(** * PO pivot builder ([app.py]): model and verification

    The program reads a purchase-order table, enriches every line with two
    style labels, a quantity and a numeric size, aggregates the lines with
    [pandas.pivot_table] and writes the grid to a styled worksheet.

    The development has these layers:
    - [Py]: the Python built-ins the program calls ([str.strip],
      [str.split], [float], [fractions.Fraction], the exception classes),
      as CPython 3.11 has them;
    - [Pandas]: the data-frame operations it calls ([to_numeric],
      [fillna], [dropna], [pivot_table] with margins and [reset_index],
      the selection of columns), as pandas 2 has them;
    - [Openpyxl]: the cells of a worksheet, with the styles that pandas
      and the program set, and the check that openpyxl makes of a text,
      as openpyxl 3.1 has them;
    - [Streamlit]: the elements of the page;
    - the program itself: [parse_size], [generate_pivot_excel] and the
      script of the page.

    Conventions of the model.
    - The uploaded table is the frame [read_csv(dtype=str)] returns: every
      cell is a string or missing.
    - A string is a sequence of the code points U+0000..U+00FF.
    - Sizes are IEEE-754 binary64 values ([spec_float] of the standard
      library), rounded to nearest, ties to even.
    - Quantities and vendor codes are rationals ([Qc]), the values of
      the int64 or float64 numbers that pandas holds; how pandas reads a
      string as a number is a parameter of the development, and so are
      the two sums of pandas on the column of quantities, which add in
      the arithmetic of the dtype of the column: int64 sums wrap around
      and float64 sums round.  The sums are known to be exact on whole
      numbers whose absolute values add up to less than 2^53.  Infinite
      quantities and sums are outside the model.
    - The style table of [StyleMap] is a parameter.
    - A run has one more input than the table: the clock, which openpyxl
      stamps into the properties of the workbook it saves. *)

From Stdlib Require Import ZArith QArith Qcanon String Ascii List Lia.
From Stdlib Require Import Floats.SpecFloat.
From stdpp Require Import base option list sorting strings gmap.

Local Open Scope Z_scope.

(** ** Python built-ins *)

Module Py.

(** The exception classes that can leave [generate_pivot_excel]; the
    last one is openpyxl's. *)
Inductive exn : Set :=
| ValueError
| ZeroDivisionError
| OverflowError
| IndexError
| KeyError
| IllegalCharacterError.

(** A computation either returns or raises. *)
Inductive result (A : Type) : Type :=
| Ok (a : A)
| Raise (e : exn).
Global Arguments Ok {A} a.
Global Arguments Raise {A} e.

Global Instance result_ret : MRet result := @Ok.
Global Instance result_bind : MBind result := fun A B f m =>
  match m with
  | Ok a => f a
  | Raise e => Raise e
  end.
Global Instance result_fmap : FMap result := fun A B f m =>
  match m with
  | Ok a => Ok (f a)
  | Raise e => Raise e
  end.

Definition returns {A} (m : result A) : bool :=
  match m with Ok _ => true | Raise _ => false end.

(** *** Strings

    A [string] stands for a Python [str] whose characters are the code
    points U+0000..U+00FF. *)

(** [str.isspace] on one character of that range. *)
Definition is_space (c : ascii) : bool :=
  let n := N_of_ascii c in
  ((9 <=? n) && (n <=? 13) || (28 <=? n) && (n <=? 32)
   || (n =? 133) || (n =? 160))%N.

(** The blanks [float] skips around a literal: C's [isspace] below
    U+007F, [str.isspace] above. *)
Definition is_float_space (c : ascii) : bool :=
  let n := N_of_ascii c in
  ((9 <=? n) && (n <=? 13) || (n =? 32) || (n =? 133) || (n =? 160))%N.

Section Strip.
Variable blank : ascii -> bool.

Fixpoint lstrip (s : string) : string :=
  match s with
  | EmptyString => EmptyString
  | String c s' => if blank c then lstrip s' else s
  end.

Fixpoint rstrip (s : string) : string :=
  match s with
  | EmptyString => EmptyString
  | String c s' =>
      match rstrip s' with
      | EmptyString => if blank c then EmptyString else String c EmptyString
      | t => String c t
      end
  end.

Definition strip_with (s : string) : string := rstrip (lstrip s).
End Strip.

(** [s.strip()] *)
Definition strip : string -> string := strip_with is_space.

(** [c in s] for a one-character [c]. *)
Fixpoint contains (c : ascii) (s : string) : bool :=
  match s with
  | EmptyString => false
  | String a s' => Ascii.eqb a c || contains c s'
  end.

(** [s.count(c)] for a one-character [c]. *)
Fixpoint occurrences (c : ascii) (s : string) : nat :=
  match s with
  | EmptyString => 0%nat
  | String a s' => ((if Ascii.eqb a c then 1 else 0) + occurrences c s')%nat
  end.

(** [s.split(sep)] for a one-character separator: [n] separators give
    [n + 1] pieces, empty pieces included. *)
Fixpoint split (sep : ascii) (s : string) : list string :=
  match s with
  | EmptyString => [EmptyString]
  | String a s' =>
      if Ascii.eqb a sep then EmptyString :: split sep s'
      else match split sep s' with
           | h :: t => String a h :: t
           | [] => [String a EmptyString]
           end
  end.

Definition is_digit (c : ascii) : bool :=
  let n := N_of_ascii c in ((48 <=? n) && (n <=? 57))%N.

Definition digit_value (c : ascii) : Z := Z.of_N (N_of_ascii c) - 48.

(** [int(s)] for a string of decimal digits, most significant first. *)
Fixpoint digits_value_from (acc : Z) (s : string) : Z :=
  match s with
  | EmptyString => acc
  | String c s' => digits_value_from (10 * acc + digit_value c) s'
  end.
Definition digits_value (s : string) : Z := digits_value_from 0 s.

Fixpoint all_digits (s : string) : bool :=
  match s with
  | EmptyString => true
  | String c s' => is_digit c && all_digits s'
  end.

(** Every character of [s] satisfies [p]. *)
Fixpoint every (p : ascii -> bool) (s : string) : bool :=
  match s with
  | EmptyString => true
  | String c s' => p c && every p s'
  end.

(** The longest prefix of decimal digits, and what follows it. *)
Fixpoint take_digits (s : string) : string * string :=
  match s with
  | EmptyString => (EmptyString, EmptyString)
  | String c s' =>
      if is_digit c
      then let '(d, r) := take_digits s' in (String c d, r)
      else (EmptyString, s)
  end.

(** The longest prefix of digits grouped by single underscores
    ([digit+ (_ digit+)*]), with the underscores removed, and what
    follows it. *)
Fixpoint take_grouped (s : string) : string * string :=
  match s with
  | EmptyString => (EmptyString, EmptyString)
  | String c s' =>
      if is_digit c then
        match s' with
        | String "_" (String c2 _ as s'') =>
            if is_digit c2
            then let '(d, r) := take_grouped s'' in (String c d, r)
            else (String c EmptyString, s')
        | _ => let '(d, r) := take_grouped s' in (String c d, r)
        end
      else (EmptyString, s)
  end.

(** An optional leading sign: [true] for a minus. *)
Definition parse_sign (s : string) : bool * string :=
  match s with
  | String "-" s' => (true, s')
  | String "+" s' => (false, s')
  | _ => (false, s)
  end.

Definition is_exp_mark (c : ascii) : bool :=
  Ascii.eqb c "e" || Ascii.eqb c "E".

(** A decimal literal [digits* [. digits*] [(e|E) [sign] digits+]] with
    at least one mantissa digit, read as [(m, e)] for [m * 10 ^ e]. *)
Definition parse_decimal (take : string -> string * string) (s : string)
  : option (Z * Z) :=
  let '(ip, r1) := take s in
  let '(fp, r2) :=
    match r1 with
    | String "." r => take r
    | _ => (EmptyString, r1)
    end in
  let m := digits_value (ip +:+ fp) in
  let scale := Z.of_nat (String.length fp) in
  if (String.length ip + String.length fp =? 0)%nat then None
  else match r2 with
       | EmptyString => Some (m, - scale)
       | String c r3 =>
           if is_exp_mark c then
             let '(neg, r4) := parse_sign r3 in
             let '(ep, r5) := take r4 in
             match ep, r5 with
             | String _ _, EmptyString =>
                 let e := digits_value ep in
                 Some (m, (if neg then - e else e) - scale)
             | _, _ => None
             end
           else None
       end.

(** *** Floats: IEEE-754 binary64 *)

Definition float : Set := spec_float.
Definition prec : Z := 53.
Definition emax : Z := 1024.

Definition float_add : float -> float -> float := SFadd prec emax.

(** [x == y] on floats. *)
Definition float_eqb : float -> float -> bool := SFeqb.

(** The binary64 value nearest to [m * 2 ^ e] (ties to even). *)
Definition float_of_dyadic (m e : Z) : float :=
  binary_normalize prec emax m e false.

(** The binary64 value nearest to [a / b] (ties to even), for positive
    integers of any size; an infinity when the quotient is too large. *)
Definition nearest_quotient (neg : bool) (a b : positive) : float :=
  let '(mz, ez, lz) := SFdiv_core_binary prec emax (Zpos a) 0 (Zpos b) 0 in
  binary_round_aux prec emax neg mz ez lz.

(** The binary64 value nearest to [(-1)^neg * m * 10 ^ e], [0 <= m]. *)
Definition decimal_to_float (neg : bool) (m e : Z) : float :=
  match m with
  | Zpos a =>
      match e with
      | Zneg k => nearest_quotient neg a (10 ^ k)%positive
      | _ => binary_normalize prec emax
               (if neg then - (m * 10 ^ e) else m * 10 ^ e) 0 false
      end
  | _ => S754_zero neg
  end.

Definition to_lower (c : ascii) : ascii :=
  let n := N_of_ascii c in
  if ((65 <=? n) && (n <=? 90))%N then ascii_of_N (n + 32) else c.

Fixpoint lower (s : string) : string :=
  match s with
  | EmptyString => EmptyString
  | String c s' => String (to_lower c) (lower s')
  end.

(** The spellings of the non-finite values, letter case ignored. *)
Definition parse_inf_nan (neg : bool) (s : string) : option float :=
  let l := lower s in
  if String.eqb l "inf" || String.eqb l "infinity" then Some (S754_infinity neg)
  else if String.eqb l "nan" then Some S754_nan
  else None.

(** Digit grouping: an underscore is accepted only between two digits;
    accepted underscores are removed.  [prev] is the character before
    [s] (NUL at the start). *)
Fixpoint drop_underscores (prev : ascii) (s : string) : option string :=
  match s with
  | EmptyString => if Ascii.eqb prev "_" then None else Some EmptyString
  | String c s' =>
      if Ascii.eqb c "_" then
        if is_digit prev then drop_underscores c s' else None
      else if Ascii.eqb prev "_" && negb (is_digit c) then None
      else String c <$> drop_underscores c s'
  end.

(** [float(s)] for a string [s]: surrounding blanks are ignored, the
    literal is read exactly and rounded once. *)
Definition float_of_string (s : string) : result float :=
  match drop_underscores zero (strip_with is_float_space s) with
  | None => Raise ValueError
  | Some t =>
      let '(neg, body) := parse_sign t in
      match parse_inf_nan neg body with
      | Some f => Ok f
      | None =>
          match parse_decimal take_digits body with
          | Some (m, e) => Ok (decimal_to_float neg m e)
          | None => Raise ValueError
          end
      end
  end.

(** *** [fractions.Fraction] *)

Record Fraction : Set := { numerator : Z; denominator : Z }.

(** [Fraction(n, d)]: lowest terms, positive denominator. *)
Definition make_Fraction (n d : Z) : result Fraction :=
  if d =? 0 then Raise ZeroDivisionError
  else let g := (if d <? 0 then - Z.gcd n d else Z.gcd n d) in
       Ok {| numerator := n / g; denominator := d / g |}.

(** [int(s)] refuses a string of more than 4300 decimal digits
    ([sys.get_int_max_str_digits()]); leading zeros count, underscores
    and the sign do not.  [float(s)] has no such limit. *)
Definition max_str_digits : nat := 4300.
Definition too_long (digits : string) : bool :=
  (max_str_digits <? String.length digits)%nat.

(** The groups of digits of a decimal literal, underscores removed: the
    integer part, the fraction part and, if there is one, the exponent. *)
Definition decimal_groups (take : string -> string * string) (s : string)
  : list string :=
  let '(ip, r1) := take s in
  let '(fp, r2) :=
    match r1 with
    | String "." r => take r
    | _ => (EmptyString, r1)
    end in
  match r2 with
  | EmptyString => [ip; fp]
  | String c r3 =>
      if is_exp_mark c
      then let '(_, r4) := parse_sign r3 in [ip; fp; (take r4).1]
      else [ip; fp]
  end.

(** [Fraction(s)] for a string (CPython 3.11): [[sign] digits / digits]
    or a decimal literal, digits grouped by underscores, surrounding
    whitespace ignored.  Every group of digits goes through [int]. *)
Definition Fraction_of_string (s : string) : result Fraction :=
  let '(neg, body) := parse_sign (strip s) in
  let sgn (n : Z) := if neg then - n else n in
  let '(np, r) := take_grouped body in
  match np, r with
  | String _ _, String "/" r' =>
      match take_grouped r' with
      | (String _ _ as dp, EmptyString) =>
          if too_long np || too_long dp then Raise ValueError
          else make_Fraction (sgn (digits_value np)) (digits_value dp)
      | _ => Raise ValueError
      end
  | _, _ =>
      match parse_decimal take_grouped body with
      | Some (m, e) =>
          if existsb too_long (decimal_groups take_grouped body)
          then Raise ValueError
          else if 0 <=? e then make_Fraction (sgn (m * 10 ^ e)) 1
          else make_Fraction (sgn m) (10 ^ (- e))
      | None => Raise ValueError
      end
  end.

(** [n / d] on integers (true division): the nearest binary64 value, or
    [OverflowError] when it is out of range. *)
Definition int_truediv (n d : Z) : result float :=
  let q :=
    match n, d with
    | Z0, _ => S754_zero false
    | Zpos a, Zpos b => nearest_quotient false a b
    | Zneg a, Zpos b => nearest_quotient true a b
    | Zpos a, Zneg b => nearest_quotient true a b
    | Zneg a, Zneg b => nearest_quotient false a b
    | _, Z0 => S754_nan
    end in
  match d, q with
  | Z0, _ => Raise ZeroDivisionError
  | _, S754_infinity _ => Raise OverflowError
  | _, _ => Ok q
  end.

(** [float(f)] for a [Fraction]. *)
Definition float_of_Fraction (f : Fraction) : result float :=
  int_truediv (numerator f) (denominator f).

(** [int.__float__]: the nearest binary64 value of an integer. *)
Definition float_of_int (n : Z) : float := float_of_dyadic n 0.

(** [float(Fraction(n, d))] *)
Definition float_of_ratio (n d : Z) : result float :=
  f ← make_Fraction n d; float_of_Fraction f.

(** The rational a finite float stands for, in lowest terms. *)
Definition float_value (x : float) : option Q :=
  match x with
  | S754_zero _ => Some 0%Q
  | S754_finite s m e =>
      let v := (inject_Z (Zpos m) * (2 ^ e))%Q in
      Some (Qred (if s then (- v)%Q else v))
  | _ => None
  end.

Global Instance float_eq_dec : EqDecision float.
Proof. solve_decision. Defined.

End Py.
Import Py.

(** ** The size parser (app.py, lines 11-21) *)

(** A table cell as [read_csv(dtype=str)] delivers it: a string, or the
    missing value ([NaN]). *)
Definition cell : Set := option string.

Definition parse_size (size_str : cell) : result (option float) :=
  match size_str with
  | None => Ok None
  | Some s =>
      let size_str := strip s in
      if contains " " size_str then
        match split " " size_str with
        | [whole; frac] =>
            w ← float_of_string whole;
            f ← Fraction_of_string frac;
            x ← float_of_Fraction f;
            Ok (Some (float_add w x))
        | _ => Raise ValueError
        end
      else
        match float_of_string size_str with
        | Ok x => Ok (Some x)
        | Raise _ => Ok None
        end
  end.


(** ** pandas *)

Module Pandas.

(** [pd.isna] on a float. *)
Definition is_nan (x : float) : bool :=
  match x with S754_nan => true | _ => false end.

(** [pd.to_numeric(col, errors='coerce')] on one cell: a missing cell
    stays missing, a string that [read]s as a number becomes it, any
    other string becomes [NaN]. *)
Definition to_numeric (read : string -> option Qc) (c : cell) : option Qc :=
  c ≫= read.

(** [col.fillna(d)] on one cell. *)
Definition fillna (d : Qc) (x : option Qc) : Qc := default d x.

(** [col.dropna().iloc[0]] *)
Fixpoint first_valid (col : list cell) : result string :=
  match col with
  | [] => Raise IndexError
  | Some s :: _ => Ok s
  | None :: col' => first_valid col'
  end.

(** *** [pivot_table]

    The call of the program: three index columns, one column of float
    labels, one column of values, [aggfunc='sum'], [fill_value=0],
    [margins=True], and [dropna] left at its default [True].  What pandas
    does on such a call:
    - the frame is restricted to the index, column and value columns;
    - a row with a missing index or column entry is in no group, and is
      left out of the margins too;
    - floats group by numeric equality, and a group is labelled by the
      float that comes first in the column;
    - the groups are sorted by key; a cell without a row holds the fill
      value;
    - the cells, the margin column and the cells of the margin row are
      sums by group ([GroupBy.sum]), the grand margin is the sum of the
      column of values ([Series.sum]);
    - the margins name may not be a value of an index level
      ([ValueError]);
    - the margin column is named by the margins name; the margin row has
      the margins name in the first index level and the empty string in
      the others;
    - a table without any group gets no margins. *)

(** One row of the frame restricted to the five columns of the call. *)
Record datum : Set := {
  index1 : cell; index2 : cell; index3 : cell;
  column : option float;
  value : Qc
}.

Definition row_key : Set := string * string * string.

(** The labels of a column of floats are the values [factorize] meets
    first, over the whole column: rows that a missing index entry keeps
    out of every group are looked at too.  Two floats that are equal and
    distinct are the two zeros: [zero_sign col] is the sign of the zero
    that comes first in [col], the label of the zero sizes ([true] for
    -0.0). *)
Fixpoint zero_sign (col : list (option float)) : bool :=
  match col with
  | [] => false
  | Some (S754_zero s) :: _ => s
  | _ :: col' => zero_sign col'
  end.

(** Group keys come out sorted: strings by code points, tuples
    lexicographically, floats numerically. *)
Definition key_leb (a b : row_key) : bool :=
  match String.compare a.1.1 b.1.1 with
  | Lt => true
  | Gt => false
  | Eq =>
      match String.compare a.1.2 b.1.2 with
      | Lt => true
      | Gt => false
      | Eq => String.leb a.2 b.2
      end
  end.
Definition key_le (a b : row_key) : Prop := key_leb a b.
Definition float_le (x y : float) : Prop := SFleb x y.

Global Instance key_le_dec : RelDecision key_le.
Proof. intros a b. unfold key_le. apply _. Defined.
Global Instance float_le_dec : RelDecision float_le.
Proof. intros a b. unfold float_le. apply _. Defined.

(** One row of the pivot after [reset_index]. *)
Record pivot_row : Set := {
  row_Color : string;
  row_KPR_Style : string;
  row_Marks_Style : string;
  row_sizes : list (float * Qc);
  row_Grand_Total : Qc
}.

(** The pivot after [reset_index]: the labels of its size columns,
    whether it has the margin column, and its rows. *)
Record frame : Set := {
  size_columns : list float;
  has_margin : bool;
  rows : list pivot_row
}.

Definition row_key_of (r : pivot_row) : row_key :=
  (row_Color r, row_KPR_Style r, row_Marks_Style r).

(** The margins name may not occur in any level of the row index. *)
Definition conflicting (margins_name : string) (index : list row_key) : bool :=
  bool_decide (margins_name ∈ (fun k : row_key => k.1.1) <$> index
               ∨ margins_name ∈ (fun k : row_key => k.1.2) <$> index
               ∨ margins_name ∈ (fun k : row_key => k.2) <$> index).

(** The group keys of the rows and of the columns, sorted. *)
Definition pivot_index (obs : list (row_key * float * Qc)) : list row_key :=
  merge_sort key_le (remove_dups (obs.*1.*1)).
Definition pivot_columns (obs : list (row_key * float * Qc)) : list float :=
  merge_sort float_le (remove_dups (obs.*1.*2)).

Section PivotTable.

(** The sums of pandas add in the arithmetic of the dtype of the column
    of values: modulo 2^64 in an int64 column, with a rounding after
    every addition in a float64 column.  Which dtype the column has, and
    so which sums are taken, is decided by [to_numeric] on the whole
    column, and the float64 sums depend on the order of the rows.  The
    two sums are parameters: [group_sum] is [GroupBy.sum] on the values
    of the rows of one group and [series_sum] is [Series.sum], both on
    the values in the order of the rows. *)
Variable group_sum : list Qc -> Qc.
Variable series_sum : list Qc -> Qc.

(** The sign of the zero that labels the zero sizes. *)
Variable sign : bool.

(** The label of the group of a float. *)
Definition group_key (x : float) : float :=
  match x with S754_zero _ => S754_zero sign | _ => x end.

(** [dropna=True]: a row takes part only if none of its index and
    column entries is missing. *)
Definition observe (d : datum) : option (row_key * float * Qc) :=
  match index1 d, index2 d, index3 d, column d with
  | Some a, Some b, Some c, Some x =>
      if is_nan x then None else Some ((a, b, c), group_key x, value d)
  | _, _, _, _ => None
  end.

Definition observations (data : list datum) : list (row_key * float * Qc) :=
  omap observe data.

(** A cell is the sum of its group, or the fill value when no row is in
    the group. *)
Definition cell_sum (obs : list (row_key * float * Qc)) (k : row_key) (c : float) : Qc :=
  match (filter (fun o => o.1 = (k, c)) obs).*2 with
  | [] => Q2Qc 0
  | vals => group_sum vals
  end.
Definition row_sum (obs : list (row_key * float * Qc)) (k : row_key) : Qc :=
  group_sum ((filter (fun o => o.1.1 = k) obs).*2).
Definition col_sum (obs : list (row_key * float * Qc)) (c : float) : Qc :=
  group_sum ((filter (fun o => o.1.2 = c) obs).*2).
Definition grand_sum (obs : list (row_key * float * Qc)) : Qc :=
  series_sum (obs.*2).

Definition body_row (obs : list (row_key * float * Qc)) (cols : list float)
    (k : row_key) : pivot_row :=
  {| row_Color := k.1.1; row_KPR_Style := k.1.2; row_Marks_Style := k.2;
     row_sizes := (fun c => (c, cell_sum obs k c)) <$> cols;
     row_Grand_Total := row_sum obs k |}.

(** The margin row: keyed by the margins name padded with empty
    strings, holding the column sums and the grand sum. *)
Definition margin_row (margins_name : string)
    (obs : list (row_key * float * Qc)) (cols : list float) : pivot_row :=
  {| row_Color := margins_name; row_KPR_Style := ""; row_Marks_Style := "";
     row_sizes := (fun c => (c, col_sum obs c)) <$> cols;
     row_Grand_Total := grand_sum obs |}.

End PivotTable.

(** [pd.pivot_table(...).reset_index()].  Without a single complete row
    the table is empty and gets no margins. *)
Definition pivot_table (group_sum series_sum : list Qc -> Qc)
    (margins_name : string) (data : list datum) : result frame :=
  let obs := observations (zero_sign (column <$> data)) data in
  let index := pivot_index obs in
  let cols := pivot_columns obs in
  match index with
  | [] => Ok {| size_columns := []; has_margin := false; rows := [] |}
  | _ =>
      if conflicting margins_name index then Raise ValueError
      else Ok {| size_columns := cols; has_margin := true;
                 rows := (body_row group_sum obs cols <$> index)
                         ++ [margin_row group_sum series_sum margins_name obs cols] |}
  end.

(** [row[c]] for a size label [c]. *)
Fixpoint lookup_label (c : float) (cells : list (float * Qc)) : option Qc :=
  match cells with
  | [] => None
  | p :: cells' => if decide (p.1 = c) then Some p.2 else lookup_label c cells'
  end.
Definition size_cell (r : pivot_row) (c : float) : option Qc :=
  lookup_label c (row_sizes r).

(** [frame[[..three index columns..] + cols + [margins_name]]]: the
    size columns [cols] in that order, [KeyError] for a label the frame
    does not have. *)
Definition select_row (cols : list float) (r : pivot_row) : result pivot_row :=
  cells ← mapM (fun c => match size_cell r c with
                         | Some q => Ok (c, q)
                         | None => Raise KeyError
                         end) cols;
  Ok {| row_Color := row_Color r; row_KPR_Style := row_KPR_Style r;
        row_Marks_Style := row_Marks_Style r;
        row_sizes := cells; row_Grand_Total := row_Grand_Total r |}.

Definition select_columns (cols : list float) (f : frame) : result frame :=
  if has_margin f
     && bool_decide (Forall (fun c => c ∈ size_columns f) cols)
  then rs ← mapM (select_row cols) (rows f);
       Ok {| size_columns := cols; has_margin := true; rows := rs |}
  else Raise KeyError.

End Pandas.
Import Pandas.

(** ** openpyxl worksheets *)

Module Openpyxl.

Inductive cell_value : Set :=
| Blank
| Text (s : string)
| Number (q : Qc)
| Label (x : float).

Inductive pattern : Set :=
| no_fill
| solid (rgb : string).

(** A cell: its value and the styles that pandas and the program set:
    a bold font, a fill, a thin border on the four sides, a horizontal
    alignment at the centre. *)
Record xcell : Set := {
  content : cell_value;
  bold : bool;
  fill : pattern;
  border : bool;
  centered : bool
}.

Abbreviation worksheet := (list (list xcell)).

Record workbook : Set := {
  active : worksheet;
  merged_cells : list (nat * nat * nat * nat);
  column_widths : list nat;
  modified : Z
}.

Definition plain (v : cell_value) : xcell :=
  {| content := v; bold := false; fill := no_fill; border := false;
     centered := false |}.

Definition with_value (v : cell_value) (c : xcell) : xcell :=
  {| content := v; bold := bold c; fill := fill c; border := border c;
     centered := centered c |}.
Definition with_bold (c : xcell) : xcell :=
  {| content := content c; bold := true; fill := fill c; border := border c;
     centered := centered c |}.
Definition with_fill (p : pattern) (c : xcell) : xcell :=
  {| content := content c; bold := bold c; fill := p; border := border c;
     centered := centered c |}.
Definition with_border (c : xcell) : xcell :=
  {| content := content c; bold := bold c; fill := fill c; border := true;
     centered := centered c |}.
Definition with_center (c : xcell) : xcell :=
  {| content := content c; bold := bold c; fill := fill c; border := border c;
     centered := true |}.

(** [Cell.check_string], which every text given to a cell goes through:
    the text is cut to 32767 characters, and a control character other
    than tab, line feed and carriage return is refused. *)
Definition is_illegal (c : ascii) : bool :=
  let n := N_of_ascii c in
  ((n <=? 8) || ((11 <=? n) && (n <=? 12)) || ((14 <=? n) && (n <=? 31)))%N.

Fixpoint truncate (n : N) (s : string) : string :=
  match s with
  | EmptyString => EmptyString
  | String c s' => if (n =? 0)%N then EmptyString else String c (truncate (N.pred n) s')
  end.

Definition check_string (value : string) : result string :=
  let value := truncate 32767 value in
  if every (fun c => negb (is_illegal c)) value then Ok value
  else Raise IllegalCharacterError.

(** A text as [load_workbook] reads it back from a saved sheet: the cell
    of an empty text is empty. *)
Definition loaded_text (s : string) : cell_value :=
  match s with
  | EmptyString => Blank
  | _ => Text s
  end.

(** [ws.cell(row, column)] updated by [f]; rows and columns count from 1. *)
Definition at_cell (row col : nat) (f : xcell -> xcell) (ws : worksheet) : worksheet :=
  alter (alter f (col - 1)%nat) (row - 1)%nat ws.

(** [ws[row]] updated cell by cell. *)
Definition at_row (row : nat) (f : xcell -> xcell) (ws : worksheet) : worksheet :=
  alter (map f) (row - 1)%nat ws.

(** The text lengths of the non-empty cells of column [i] (from 0). *)
Definition column_lengths (str : cell_value -> string) (ws : worksheet) (i : nat)
  : list nat :=
  omap (fun row =>
          match content <$> row !! i with
          | Some Blank | None => None
          | Some v => Some (String.length (str v))
          end) ws.

End Openpyxl.
Import Openpyxl.

(** ** Streamlit *)

Module Streamlit.

(** The elements a run of the script puts on the page; their texts are
    the UTF-8 bytes of the source. *)
Inductive element : Set :=
| title (body : string)
| file_uploader (label : string) (type : string)
| success (body : string)
| button (label : string)
| download_button (label : string) (data : workbook) (file_name mime : string).

End Streamlit.
Import Streamlit.

(** ** The program (app.py, lines 24-113) *)

(** One line of the uploaded table, restricted to the columns the
    program reads; the header names are already stripped. *)
Record csv_line : Set := {
  csv_UPC_EAN : cell;
  csv_Qty_per_Store : cell;
  csv_Size : cell;
  csv_Color : cell;
  csv_PO_Number : cell;
  csv_Ship_Dates : cell
}.

(** One line of [df] after lines 29-35. *)
Record line : Set := {
  Vendor_Style : option Qc;
  KPR_Style : string;
  Marks_Style : string;
  Qty_per_Store : Qc;
  Size : option float;
  Color : cell;
  PO_Number : cell;
  Ship_Dates : cell
}.

Definition accent6_green : pattern := solid "C6E0B4".
Definition accent1_blue : pattern := solid "D9E1F2".

(** ** Exact sums

    What the sums of the program are compared with: the sum of a list
    of numbers as rationals. *)
Definition total (l : list Qc) : Qc := foldr Qcplus (Q2Qc 0) l.

(** A whole number as a quantity. *)
Definition whole (z : Z) : Qc := Q2Qc (inject_Z z).

(** The numbers are whole and their absolute values add up to less than
    2^53. *)
Definition small_integers (qs : list Qc) : bool :=
  forallb (fun q : Qc => (Qden q =? 1)%positive) qs
  && (foldr Z.add 0 ((fun q : Qc => Z.abs (Qnum q)) <$> qs) <? 2 ^ 53).

(** ** Concrete tables, to run the program *)

(** The sums of a column of dtype int64, which holds whole numbers from
    -2^63 to 2^63 - 1: additions modulo 2^64.  On whole numbers whose
    absolute values add up to less than 2^53 they are the sums of a
    float64 column too. *)
Definition int64 (z : Z) : Z := (z + 2 ^ 63) mod 2 ^ 64 - 2 ^ 63.
Definition int64_sum (qs : list Qc) : Qc :=
  whole (int64 (foldr Z.add 0 ((fun q : Qc => Qnum q) <$> qs))).

(** A reader of plain decimal numerals, exact. *)
Definition decimal_number (s : string) : option Qc :=
  let '(neg, body) := parse_sign (strip s) in
  match parse_decimal take_digits body with
  | Some (m, e) =>
      let m := if neg then - m else m in
      Some (if 0 <=? e then Q2Qc (inject_Z (m * 10 ^ e))
            else Q2Qc (m # Z.to_pos (10 ^ (- e))))
  | None => None
  end.

(** A style table with one vendor code. *)
Definition example_style_map : gmap Qc (gmap string string) :=
  {[ Q2Qc (inject_Z 12345) := {[ "KPR" := "StyleA"; "Marks" := "StyleX" ]} ]}.

(** One line of a table; an empty field is read as missing. *)
Definition csv (upc qty size color po ship : string) : csv_line :=
  let c (s : string) : cell := if String.eqb s "" then None else Some s in
  {| csv_UPC_EAN := c upc; csv_Qty_per_Store := c qty; csv_Size := c size;
     csv_Color := c color; csv_PO_Number := c po; csv_Ship_Dates := c ship |}.

(** Two lines of one colour and style, sizes 8 and 8 1/2. *)
Definition example_upload : list csv_line :=
  [ csv "12345" "3" "8" "Red" "PO123" "2024-01-01";
    csv "12345" "5" "8 1/2" "Red" "PO123" "2024-01-01" ].


(** A table with a line whose size has a non-numeric part. *)
Definition upload_with_width_suffix : list csv_line :=
  [ csv "12345" "3" "8" "Red" "PO123" "2024-01-01";
    csv "12345" "5" "8 1/2 W" "Red" "PO123" "2024-01-01" ].

(** A table with a colour that is literally 'All'. *)
Definition upload_with_All : list csv_line :=
  [ csv "12345" "3" "8" "Red" "PO123" "2024-01-01";
    csv "12345" "7" "9" "All" "PO123" "2024-01-01";
    csv "777" "1" "8" "Blue" "PO123" "2024-01-01" ].

(** A table with a blank and an unreadable quantity. *)
Definition upload_with_blank_quantities : list csv_line :=
  [ csv "12345" "" "8" "Red" "PO123" "2024-01-01";
    csv "12345" "TBD" "8 1/2" "Red" "PO123" "2024-01-01";
    csv "12345" "4" "8" "Red" "PO123" "2024-01-01" ].

(** A table whose first lines lack the PO number or the ship date, and
    whose later lines disagree on them. *)
Definition upload_with_late_po_number : list csv_line :=
  [ csv "12345" "3" "8" "Red" "" "";
    csv "12345" "5" "9" "Red" "PO123" "";
    csv "12345" "1" "9" "Blue" "PO999" "2024-01-01";
    csv "12345" "1" "9" "Blue" "PO999" "2024-02-02" ].

(** A table without any PO number. *)
Definition upload_without_po_number : list csv_line :=
  [ csv "12345" "3" "8" "Red" "" "2024-01-01" ].

(** A table in which no line has both a colour and a size. *)
Definition upload_without_complete_line : list csv_line :=
  [ csv "12345" "3" "" "Red" "PO123" "2024-01-01";
    csv "12345" "5" "8" "" "PO123" "2024-01-01";
    csv "12345" "5" "XL" "Blue" "PO123" "2024-01-01" ].

(** A table with the colour 'Grand Total'. *)
Definition upload_with_Grand_Total : list csv_line :=
  [ csv "12345" "3" "8" "Red" "PO123" "2024-01-01";
    csv "12345" "5" "9" "Grand Total" "PO123" "2024-01-01" ].


(** A table of three colours and three sizes, out of order. *)
Definition upload_with_three_colours : list csv_line :=
  [ csv "12345" "3" "9" "Red" "PO123" "2024-01-01";
    csv "777" "2" "8 1/2" "Blue" "PO123" "2024-01-01";
    csv "12345" "4" "10" "Green" "PO123" "2024-01-01";
    csv "12345" "1" "8 1/2" "Red" "PO123" "2024-01-01" ].

(** Two lines of one colour, style and size, with the quantity 2^62
    each. *)
Definition upload_with_large_quantities : list csv_line :=
  [ csv "12345" "4611686018427387904" "8" "Red" "PO123" "2024-01-01";
    csv "12345" "4611686018427387904" "8" "Red" "PO123" "2024-01-01" ].

(** Two lines of one colour and style, with the quantities 2^63 - 1 and
    1 in two sizes. *)
Definition upload_with_largest_quantity : list csv_line :=
  [ csv "12345" "9223372036854775807" "8" "Red" "PO123" "2024-01-01";
    csv "12345" "1" "9" "Red" "PO123" "2024-01-01" ].

(** A table with the sizes -0.0 and 0.0, in that order. *)
Definition upload_with_zero_sizes : list csv_line :=
  [ csv "12345" "3" "9" "Red" "PO123" "2024-01-01";
    csv "12345" "5" "-0" "Red" "PO123" "2024-01-01";
    csv "777" "1" "0" "Blue" "PO123" "2024-01-01" ].

(** A stand-in for Python's [str] in the examples: a text is itself; the
    examples do not depend on how numbers are printed. *)
Definition example_str (v : cell_value) : string :=
  match v with Text s => s | _ => "" end.

Section Program.

(** How [pd.to_numeric] reads one string as a number ([None]: not a
    number, [NaN] under [errors='coerce']). *)
Variable read_number : string -> option Qc.
(** [StyleMap.style_map]: vendor code to a dictionary of labels. *)
Variable style_map : gmap Qc (gmap string string).
(** Python's [str] of a cell value read back from the workbook. *)
Variable str : cell_value -> string.
(** The sums of pandas on the column of quantities, in the arithmetic of
    its dtype: [GroupBy.sum] on one group and [Series.sum]. *)
Variable group_sum : list Qc -> Qc.
Variable series_sum : list Qc -> Qc.

Abbreviation cell_sum := (Pandas.cell_sum group_sum).
Abbreviation row_sum := (Pandas.row_sum group_sum).
Abbreviation col_sum := (Pandas.col_sum group_sum).
Abbreviation grand_sum := (Pandas.grand_sum series_sum).
Abbreviation body_row := (Pandas.body_row group_sum).
Abbreviation margin_row := (Pandas.margin_row group_sum series_sum).
Abbreviation pivot_table := (Pandas.pivot_table group_sum series_sum).

(** Both sums are exact on whole numbers whose absolute values add up to
    less than 2^53: an int64 sum of such numbers stays below 2^63 and
    does not wrap around, and float64 holds every whole number up to
    2^53, so that no addition of a float64 sum of such numbers rounds. *)
Hypothesis group_sum_exact :
  ∀ qs, small_integers qs = true -> group_sum qs = total qs.
Hypothesis series_sum_exact :
  ∀ qs, small_integers qs = true -> series_sum qs = total qs.

(** [style_map.get(x, {}).get(label, 'Unknown Style')] *)
Definition style_label (label : string) (x : option Qc) : string :=
  default "Unknown Style" (default ∅ (x ≫= (style_map !!.)) !! label).

(** Lines 29-35 on one line of the table. *)
Definition enrich (r : csv_line) : result line :=
  let vendor := to_numeric read_number (strip <$> csv_UPC_EAN r) in
  let qty := fillna (Q2Qc 0) (to_numeric read_number (csv_Qty_per_Store r)) in
  size ← parse_size (csv_Size r);
  Ok {| Vendor_Style := vendor;
        KPR_Style := style_label "KPR" vendor;
        Marks_Style := style_label "Marks" vendor;
        Qty_per_Store := qty;
        Size := size;
        Color := csv_Color r;
        PO_Number := csv_PO_Number r;
        Ship_Dates := csv_Ship_Dates r |}.

(** The columns of [df] that [pivot_table] is called with. *)
Definition datum_of (l : line) : datum :=
  {| index1 := Color l; index2 := Some (KPR_Style l);
     index3 := Some (Marks_Style l);
     column := Size l; value := Qty_per_Store l |}.

(** Line 52: [pivot[~pivot['Color'].eq('All')]] *)
Definition drop_All (f : frame) : frame :=
  {| size_columns := size_columns f; has_margin := has_margin f;
     rows := filter (fun r => row_Color r ≠ "All") (rows f) |}.

(** Lines 42-54: the pivot that is written out. *)
Definition written_pivot (df : list line) : result frame :=
  pivot ← pivot_table "Grand Total" (datum_of <$> df);
  let pivot := drop_All pivot in
  let size_cols := merge_sort float_le (size_columns pivot) in
  select_columns size_cols pivot.

(** Lines 25-54: the enriched table, the PO number, the ship date and
    the pivot that is written out. *)
Definition build_pivot (uploaded_file : list csv_line)
  : result (frame * string * string) :=
  df ← mapM enrich uploaded_file;
  po_number ← first_valid (PO_Number <$> df);
  ship_date ← first_valid (Ship_Dates <$> df);
  pivot ← written_pivot df;
  Ok (pivot, po_number, ship_date).

(** [pivot.to_excel(output, index=False)] and [load_workbook(output)]:
    the column names, which pandas writes bold, bordered and centred,
    then one row per row of the frame.  A sheet has at most 2^20 rows and
    2^14 columns ([ValueError]), and every text goes through
    [check_string]. *)
Definition header_cells (f : frame) : list xcell :=
  (fun v => with_center (with_border (with_bold (plain v))))
    <$> ([Text "Color"; Text "KPR Style"; Text "Mark's Style"]
         ++ (Label <$> size_columns f) ++ [Text "Grand Total"]).

Definition text_cell (s : string) : result xcell :=
  s ← check_string s; Ok (plain (loaded_text s)).

Definition data_cells (r : pivot_row) : result (list xcell) :=
  texts ← mapM text_cell [row_Color r; row_KPR_Style r; row_Marks_Style r];
  Ok (texts ++ (plain <$> ((Number <$> (row_sizes r).*2)
                           ++ [Number (row_Grand_Total r)]))).

Definition to_excel (pivot : frame) : result worksheet :=
  if (2 ^ 20 <? Z.of_nat (length (rows pivot)))
     || (2 ^ 14 <? Z.of_nat (length (header_cells pivot)))
  then Raise ValueError
  else body ← mapM data_cells (rows pivot);
       Ok (header_cells pivot :: body).

(** Lines 98-102: rows 3 .. max_row - 1 alternate between no fill and
    the blue accent. *)
Definition alternate (max_row : nat) (ws : worksheet) : worksheet :=
  imap (fun j row =>
          if (2 <=? j)%nat && (S j <? max_row)%nat
          then map (with_fill (if Nat.even (j - 2) then no_fill else accent1_blue)) row
          else row) ws.

(** Lines 56-112. *)
Definition format_workbook (clock : Z) (pivot : frame)
    (po_number ship_date : string) : result workbook :=
  ws ← to_excel pivot;
  let max_column := length (header_cells pivot) in
  (* header row *)
  let ws := replicate max_column (plain Blank) :: ws in
  let size_start_col := 4%nat in
  let size_end_col := (max_column - 1)%nat in
  let ws := at_cell 1 size_start_col
              (fun c => with_center (with_value (Text "Size") c)) ws in
  let ws := at_cell 1 size_start_col with_bold ws in
  po_text ← check_string ("PO Number: " +:+ po_number);
  let ws := at_cell 1 1 (fun c => with_bold (with_value (Text po_text) c)) ws in
  (* auto column width *)
  let widths :=
    (fun i => max_list (column_lengths str ws i) + 2)%nat <$> seq 0 max_column in
  (* borders + fills *)
  let max_row := length ws in
  let ws := map (map with_border) ws in
  let ws := at_row 1 (with_fill accent6_green) ws in
  let ws := at_row 2 (fun c => with_bold (with_fill accent6_green c)) ws in
  let ws := at_row max_row (fun c => with_bold (with_fill accent6_green c)) ws in
  let ws := alternate max_row ws in
  (* ship date row *)
  ship_text ← check_string ("Ship Date: " +:+ ship_date);
  let ship :=
    with_fill accent6_green (with_border (with_bold (plain (Text ship_text)))) in
  Ok {| active := ws ++ [[ship]];
        merged_cells := [(1, size_start_col, 1, size_end_col)%nat];
        column_widths := widths;
        modified := clock |}.

(** [generate_pivot_excel(uploaded_file)]; [clock] is the time at which
    the workbook is saved, which openpyxl stamps into its properties. *)
Definition generate_pivot_excel (clock : Z) (uploaded_file : list csv_line)
  : result (workbook * string) :=
  '(pivot, po_number, ship_date) ← build_pivot uploaded_file;
  wb ← format_workbook clock pivot po_number ship_date;
  Ok (wb, po_number).

(** Lines 115-129: one run of the script.  [uploaded_file] is what the
    uploader returns ([None] until a file is chosen) and [pressed] what
    the button returns.  The run puts its elements on the page; an
    exception of [generate_pivot_excel] is not caught and ends it. *)
Definition run_script (clock : Z) (uploaded_file : option (list csv_line))
    (pressed : bool) : list element * result unit :=
  let page := [title "📊 PO Pivot Table Generator";
               file_uploader "Upload a PO CSV file" "csv"] in
  match uploaded_file with
  | Some file =>
      let page :=
        page ++ [success "File uploaded successfully! Click below to generate.";
                 button "Generate Pivot Excel"] in
      if pressed then
        match generate_pivot_excel clock file with
        | Ok (excel_file, po_number) =>
            (page
             ++ [download_button "⬇️ Download Pivot Excel" excel_file
                   ("PO_" +:+ po_number +:+ ".xlsx")
                   "application/vnd.openxmlformats-officedocument.spreadsheetml.sheet"],
             Ok ())
        | Raise e => (page, Raise e)
        end
      else (page, Ok ())
  | None => (page, Ok ())
  end.

(** *** Notions used in the statements *)

(** The size of the line is equal to [c], as floats. *)
Definition has_size (c : float) (l : line) : Prop :=
  match Size l with
  | Some x => float_eqb x c = true
  | None => False
  end.
Global Instance has_size_dec c l : Decision (has_size c l).
Proof. unfold has_size. destruct (Size l); apply _. Defined.

(** The line lies in the pivot cell of row key [k] and size [c]. *)
Definition in_cell (k : row_key) (c : float) (l : line) : Prop :=
  Color l = Some k.1.1 ∧ KPR_Style l = k.1.2 ∧ Marks_Style l = k.2
  ∧ has_size c l.
Global Instance in_cell_dec k c l : Decision (in_cell k c l).
Proof. unfold in_cell. apply _. Defined.

(** The line has a colour and its size is [c]. *)
Definition in_column (c : float) (l : line) : Prop :=
  is_Some (Color l) ∧ has_size c l.
Global Instance in_column_dec c l : Decision (in_column c l).
Proof. unfold in_column. apply _. Defined.

(** The line has a colour and a size: it survives [dropna]. *)
Definition complete (l : line) : Prop :=
  is_Some (Color l) ∧ is_Some (Size l) ∧ Size l ≠ Some S754_nan.
Global Instance complete_dec l : Decision (complete l).
Proof. unfold complete. apply _. Defined.

(** The line is counted in the pivot row of key [k]. *)
Definition in_row (k : row_key) (l : line) : Prop :=
  Color l = Some k.1.1 ∧ KPR_Style l = k.1.2 ∧ Marks_Style l = k.2
  ∧ complete l.
Global Instance in_row_dec k l : Decision (in_row k l).
Proof. unfold in_row. apply _. Defined.

(** The sizes of the table do not hold both -0.0 and 0.0. *)
Definition one_zero (df : list line) : Prop :=
  Some (S754_zero true) ∉ Size <$> df ∨ Some (S754_zero false) ∉ Size <$> df.
Global Instance one_zero_dec df : Decision (one_zero df).
Proof. unfold one_zero. apply _. Defined.

(** The key of the margin row. *)
Definition margin_key : row_key := ("Grand Total", "", "").

(** The sign of the zero that labels the zero sizes of the table, and
    the lines that the pivot counts, as it sees them. *)
Definition sign_of (df : list line) : bool := zero_sign (Size <$> df).
Definition observed (df : list line) : list (row_key * float * Qc) :=
  observations (sign_of df) (datum_of <$> df).

(** The size columns of the written pivot. *)
Definition written_columns (df : list line) : list float :=
  merge_sort float_le (pivot_columns (observed df)).

(** The values of a worksheet, row by row. *)
Definition contents (ws : worksheet) : list (list cell_value) :=
  map (map content) ws.

(** The style of the last row of the table after lines 85-96: bordered,
    filled with the green accent, bold. *)
Definition total_style (c : xcell) : xcell :=
  with_bold (with_fill accent6_green (with_border c)).

(** The size field is missing, or is a string without an inner space
    that [float] rejects. *)
Definition size_absent (c : cell) : Prop :=
  match c with
  | None => True
  | Some s => contains " " (strip s) = false
              ∧ returns (float_of_string (strip s)) = false
  end.

(** The quantity field is blank or does not read as a number. *)
Definition blank_or_unparsable (c : cell) : Prop :=
  match c with
  | None => True
  | Some s => read_number s = None
  end.

(** A whole number written in decimal digits. *)
Definition digit_string (s : string) : Prop := all_digits s = true ∧ s ≠ "".

(** [x < y] on floats, and the strict order of the row keys. *)
Definition float_lt (x y : float) : Prop := SFltb x y = true.
Definition key_lt (a b : row_key) : Prop := key_le a b ∧ a ≠ b.

(** A bordered cell on the green accent. *)
Definition green (v : cell_value) : xcell :=
  with_fill accent6_green (with_border (plain v)).

(** Row 1 of a sheet with [n] size columns: the PO number in bold in
    column 1, 'Size' in bold and centred in column 4, blanks elsewhere. *)
Definition banner_row (po_number : string) (n : nat) : list xcell :=
  [with_bold (green (Text (truncate 32767 ("PO Number: " +:+ po_number))));
   green Blank; green Blank; with_center (with_bold (green (Text "Size")))]
  ++ replicate n (green Blank).

(** The row below the table. *)
Definition ship_row (ship_date : string) : list xcell :=
  [with_bold (green (Text (truncate 32767 ("Ship Date: " +:+ ship_date))))].

(** The cells of a row of the pivot, as the sheet shows them. *)
Definition shown_cells (r : pivot_row) : list xcell :=
  plain <$> ((loaded_text ∘ truncate 32767
                <$> [row_Color r; row_KPR_Style r; row_Marks_Style r])
             ++ (Number <$> (row_sizes r).*2) ++ [Number (row_Grand_Total r)]).

(** The text has no character that a worksheet refuses, as far as it is
    written. *)
Definition legal (s : string) : Prop :=
  every (fun c => negb (is_illegal c)) (truncate 32767 s) = true.

(** The three texts of a row of the pivot are accepted, and the pivot
    fits on a sheet of 2^20 rows and 2^14 columns. *)
Definition legal_row (r : pivot_row) : Prop :=
  legal (row_Color r) ∧ legal (row_KPR_Style r) ∧ legal (row_Marks_Style r).
Definition fits (f : frame) : Prop :=
  (Z.of_nat (length (rows f)) <= 2 ^ 20)%Z
  ∧ (Z.of_nat (4 + length (size_columns f)) <= 2 ^ 14)%Z.
Global Instance legal_row_dec r : Decision (legal_row r).
Proof. unfold legal_row, legal. apply _. Defined.

(** The style of the [j]-th row of the body, counted from 0: bordered,
    without fill when [j] is even and on the blue accent when it is odd. *)
Definition body_style (j : nat) (c : xcell) : xcell :=
  with_fill (if Nat.even j then no_fill else accent1_blue) (with_border c).

(** * Verification *)

(** ** Characters and strings *)

Lemma digit_cases c :
  is_digit c = true ->
  c = "0"%char ∨ c = "1"%char ∨ c = "2"%char ∨ c = "3"%char ∨ c = "4"%char ∨
  c = "5"%char ∨ c = "6"%char ∨ c = "7"%char ∨ c = "8"%char ∨ c = "9"%char.
Proof.
  destruct c as [[] [] [] [] [] [] [] []]; intros H; try discriminate H;
    clear H; tauto.
Qed.

Ltac digit_case c H :=
  destruct (digit_cases c H) as [->|[->|[->|[->|[->|[->|[->|[->|[->| ->]]]]]]]]].

Lemma digit_value_nonneg c : is_digit c = true -> 0 <= digit_value c.
Proof. intros H. digit_case c H; vm_compute; discriminate. Qed.

Lemma digits_value_from_nonneg s : ∀ acc,
  all_digits s = true -> 0 <= acc -> 0 <= digits_value_from acc s.
Proof.
  induction s as [|c s IH]; intros acc Hs Hacc; simpl in *; [done|].
  apply andb_prop in Hs as [Hc Hs]. apply IH; [done|].
  pose proof (digit_value_nonneg c Hc). lia.
Qed.

Lemma digits_value_nonneg s : all_digits s = true -> 0 <= digits_value s.
Proof. intros. by apply digits_value_from_nonneg. Qed.

Lemma append_cons a (s t : string) : String a s +:+ t = String a (s +:+ t).
Proof. reflexivity. Qed.

Lemma append_empty_l (t : string) : "" +:+ t = t.
Proof. reflexivity. Qed.

Lemma append_empty_r (s : string) : s +:+ "" = s.
Proof. induction s as [|a s IH]; [done|]. by rewrite append_cons, IH. Qed.

Lemma append_assoc (s1 s2 s3 : string) : (s1 +:+ s2) +:+ s3 = s1 +:+ (s2 +:+ s3).
Proof. induction s1 as [|a s1 IH]; [done|]. by rewrite !append_cons, IH. Qed.

Section StripFacts.
Variable blank : ascii -> bool.

Lemma rstrip_solid s :
  (∀ c, contains c s = true -> blank c = false) -> rstrip blank s = s.
Proof.
  induction s as [|a s IH]; intros Hs; simpl; [done|].
  rewrite IH.
  - destruct s; [|done].
    rewrite (Hs a); [done|]. simpl. by rewrite Ascii.eqb_refl.
  - intros c Hc. apply Hs. simpl. rewrite Hc. apply orb_true_r.
Qed.

Lemma rstrip_app s1 s2 :
  s2 ≠ "" -> rstrip blank s2 = s2 -> rstrip blank (s1 +:+ s2) = s1 +:+ s2.
Proof.
  intros Hne H2. induction s1 as [|a s1 IH]; [done|].
  rewrite append_cons. cbn [rstrip].
  rewrite IH. destruct s1; [|done]. rewrite append_empty_l. by destruct s2.
Qed.

Lemma strip_with_id a s1 s2 :
  blank a = false -> s2 ≠ "" ->
  (∀ c, contains c s2 = true -> blank c = false) ->
  strip_with blank (String a s1 +:+ s2) = String a s1 +:+ s2.
Proof.
  intros Ha Hne Hs2. unfold strip_with.
  rewrite append_cons. cbn [lstrip]. rewrite Ha, <- append_cons.
  apply rstrip_app; [done|]. by apply rstrip_solid.
Qed.
End StripFacts.

Lemma contains_app c s1 s2 :
  contains c (s1 +:+ s2) = contains c s1 || contains c s2.
Proof.
  induction s1 as [|a s1 IH]; [done|].
  rewrite append_cons. simpl. by rewrite IH, orb_assoc.
Qed.

Lemma contains_digits c s :
  all_digits s = true -> is_digit c = false -> contains c s = false.
Proof.
  induction s as [|a s IH]; simpl; [done|]. intros Hs Hc.
  apply andb_prop in Hs as [Ha Hs]. rewrite (IH Hs Hc), orb_false_r.
  destruct (Ascii.eqb_spec a c) as [->|]; [congruence|done].
Qed.

Lemma digits_contain c s :
  all_digits s = true -> contains c s = true -> is_digit c = true.
Proof.
  intros Hs Hc. destruct (is_digit c) eqn:E; [done|].
  by rewrite (contains_digits c s Hs E) in Hc.
Qed.

Lemma split_piece sep s r :
  contains sep s = false -> split sep (s +:+ String sep r) = s :: split sep r.
Proof.
  induction s as [|a s IH]; intros Hs.
  - rewrite append_empty_l. simpl. by rewrite Ascii.eqb_refl.
  - rewrite append_cons. simpl in *.
    apply orb_false_elim in Hs as [Ha Hs]. by rewrite Ha, (IH Hs).
Qed.

Lemma split_whole sep s : contains sep s = false -> split sep s = [s].
Proof.
  induction s as [|a s IH]; simpl; intros Hs; [done|].
  apply orb_false_elim in Hs as [Ha Hs]. by rewrite Ha, (IH Hs).
Qed.

Lemma split_length sep s : length (split sep s) = S (occurrences sep s).
Proof.
  induction s as [|a s IH]; [done|]. cbn [split occurrences].
  destruct (Ascii.eqb a sep); cbn [length Nat.add]; [by rewrite IH|].
  by destruct (split sep s) as [|h t].
Qed.

Lemma contains_occurrences c s :
  contains c s = true ↔ (0 < occurrences c s)%nat.
Proof.
  induction s as [|a s IH]; cbn [contains occurrences]; [split; [done|lia]|].
  destruct (Ascii.eqb a c); cbn [orb]; [split; [lia|done]|].
  by rewrite IH.
Qed.

Lemma take_digits_all s : all_digits s = true -> take_digits s = (s, "").
Proof.
  induction s as [|c s IH]; simpl; [done|]. intros Hs.
  apply andb_prop in Hs as [-> Hs]. by rewrite (IH Hs).
Qed.

Lemma take_grouped_digits s r :
  all_digits s = true -> (r = "" ∨ ∃ r', r = String "/" r') ->
  take_grouped (s +:+ r) = (s, r).
Proof.
  intros Hs Hr. induction s as [|c s IH].
  - destruct Hr as [->|[r' ->]]; reflexivity.
  - simpl in Hs. apply andb_prop in Hs as [Hc Hs]. specialize (IH Hs).
    rewrite append_cons. cbn [take_grouped]. rewrite Hc.
    destruct s as [|c' s].
    + destruct Hr as [->|[r' ->]]; reflexivity.
    + simpl in Hs. apply andb_prop in Hs as [Hc' _].
      rewrite append_cons in *. rewrite IH. by digit_case c' Hc'.
Qed.

Lemma drop_underscores_digits s : ∀ prev,
  all_digits s = true -> Ascii.eqb prev "_" = false ∨ s ≠ "" ->
  drop_underscores prev s = Some s.
Proof.
  induction s as [|c s IH]; intros prev Hs Hp; simpl.
  - destruct Hp as [->|]; done.
  - simpl in Hs. apply andb_prop in Hs as [Hc Hs].
    assert (Ascii.eqb c "_" = false) as Hu by (by digit_case c Hc).
    rewrite Hu, Hc, andb_false_r, (IH c Hs); [done|by left].
Qed.

Lemma parse_sign_digit c s :
  is_digit c = true -> parse_sign (String c s) = (false, String c s).
Proof. intros Hc. by digit_case c Hc. Qed.

Lemma parse_inf_nan_digit neg c s :
  is_digit c = true -> parse_inf_nan neg (String c s) = None.
Proof. intros Hc. by digit_case c Hc. Qed.

Lemma digit_not_blank c :
  is_digit c = true -> is_space c = false ∧ is_float_space c = false.
Proof. intros Hc. by digit_case c Hc. Qed.

(** ** [float] and [Fraction] on digit strings *)

Lemma float_of_string_digits s :
  digit_string s -> float_of_string s = Ok (float_of_int (digits_value s)).
Proof.
  intros [Hs Hne]. unfold float_of_string.
  destruct s as [|c s]; [done|].
  pose proof Hs as Hs'. simpl in Hs'. apply andb_prop in Hs' as [Hc _].
  assert (strip_with is_float_space (String c s) = String c s) as ->.
  { unfold strip_with. cbn [lstrip].
    rewrite (proj2 (digit_not_blank c Hc)). apply rstrip_solid.
    intros a Ha. by apply digit_not_blank, (digits_contain a _ Hs). }
  rewrite drop_underscores_digits by (done || by right).
  rewrite (parse_sign_digit c s Hc), (parse_inf_nan_digit false c s Hc).
  unfold parse_decimal. rewrite (take_digits_all _ Hs), append_empty_r.
  cbn [String.length Nat.add Nat.eqb Z.of_nat Z.opp].
  pose proof (digits_value_nonneg _ Hs) as Hv.
  unfold decimal_to_float, float_of_int, float_of_dyadic.
  destruct (digits_value (String c s)) as [|m|m]; [done| |lia].
  by rewrite Z.pow_0_r, Z.mul_1_r.
Qed.

Lemma Fraction_of_string_digits ns ds :
  digit_string ns -> digit_string ds ->
  too_long ns = false -> too_long ds = false ->
  Fraction_of_string (ns +:+ "/" +:+ ds)
  = make_Fraction (digits_value ns) (digits_value ds).
Proof.
  intros [Hn Hnn] [Hd Hdn] Hln Hld. unfold Fraction_of_string.
  destruct ns as [|c ns]; [done|].
  pose proof Hn as Hn'. simpl in Hn'. apply andb_prop in Hn' as [Hc _].
  assert (strip (String c ns +:+ "/" +:+ ds) = String c ns +:+ "/" +:+ ds) as ->.
  { rewrite <- (append_assoc (String c ns) "/" ds), append_cons.
    apply (strip_with_id is_space); [by apply digit_not_blank|done|].
    intros a Ha. by apply digit_not_blank, (digits_contain a _ Hd). }
  rewrite append_cons, (parse_sign_digit c _ Hc), <- append_cons.
  change ("/" +:+ ds) with (String "/" ds).
  rewrite (take_grouped_digits _ _ Hn) by eauto.
  rewrite <- (append_empty_r ds) at 1.
  rewrite (take_grouped_digits _ _ Hd) by eauto.
  destruct ds; [done|]. by rewrite Hln, Hld.
Qed.

(** ** The size parser *)

Lemma parse_size_plain s :
  digit_string s -> parse_size (Some s) = Ok (Some (float_of_int (digits_value s))).
Proof.
  intros Hs. pose proof Hs as [Hd Hne]. unfold parse_size.
  assert (strip s = s) as ->.
  { unfold strip, strip_with. destruct s as [|c s]; [done|].
    pose proof Hd as Hd'. simpl in Hd'. apply andb_prop in Hd' as [Hc _].
    cbn [lstrip]. rewrite (proj1 (digit_not_blank c Hc)). apply rstrip_solid.
    intros a Ha. by apply digit_not_blank, (digits_contain a _ Hd). }
  rewrite (contains_digits " " s Hd) by done.
  by rewrite (float_of_string_digits s Hs).
Qed.

Lemma parse_size_mixed ws ns ds q :
  digit_string ws -> digit_string ns -> digit_string ds ->
  too_long ns = false -> too_long ds = false ->
  float_of_ratio (digits_value ns) (digits_value ds) = Ok q ->
  parse_size (Some (ws +:+ " " +:+ ns +:+ "/" +:+ ds))
  = Ok (Some (float_add (float_of_int (digits_value ws)) q)).
Proof.
  intros Hw Hn Hd Hln Hld Hq. pose proof Hw as [Hwd Hwn]. pose proof Hn as [Hnd _].
  pose proof Hd as [Hdd Hdn]. unfold parse_size.
  assert (strip (ws +:+ " " +:+ ns +:+ "/" +:+ ds)
          = ws +:+ " " +:+ ns +:+ "/" +:+ ds) as ->.
  { destruct ws as [|c ws]; [done|].
    pose proof Hwd as Hc. simpl in Hc. apply andb_prop in Hc as [Hc _].
    rewrite <- (append_assoc ns), <- (append_assoc " "),
      <- (append_assoc (String c ws)), append_cons.
    apply (strip_with_id is_space); [by apply digit_not_blank|done|].
    intros a Ha. by apply digit_not_blank, (digits_contain a _ Hdd). }
  assert (contains " " (ns +:+ "/" +:+ ds) = false) as Hrest.
  { rewrite !contains_app, (contains_digits " " ns), (contains_digits " " ds); done. }
  change (" " +:+ ns +:+ "/" +:+ ds) with (String " " (ns +:+ "/" +:+ ds)).
  rewrite contains_app. cbn [contains]. rewrite Ascii.eqb_refl, orb_true_r.
  rewrite split_piece by (by apply contains_digits).
  rewrite (split_whole _ _ Hrest).
  rewrite (float_of_string_digits ws Hw),
    (Fraction_of_string_digits ns ds Hn Hd Hln Hld).
  unfold float_of_ratio in Hq. cbn.
  destruct (make_Fraction (digits_value ns) (digits_value ds)) as [f|e]; [|done].
  cbn in *. by rewrite Hq.
Qed.

(** C7: a size written as a whole number, one space and a vulgar fraction
    parses to the float sum of the whole number and of the fraction (the
    float [q] of num/den, which exists unless the denominator is zero or
    the quotient is out of range); a plain whole number parses to its
    float.  "8 1/2" gives 8.5 and "9" gives 9.0.  The numerator and the
    denominator have at most 4300 digits each, the most that [Fraction]
    reads; the whole number has any number of digits. *)
Theorem parse_size_whole_and_fraction ws ns ds q :
  digit_string ws -> digit_string ns -> digit_string ds ->
  (String.length ns <= 4300)%nat -> (String.length ds <= 4300)%nat ->
  float_of_ratio (digits_value ns) (digits_value ds) = Ok q ->
  parse_size (Some (ws +:+ " " +:+ ns +:+ "/" +:+ ds))
    = Ok (Some (float_add (float_of_int (digits_value ws)) q))
  ∧ parse_size (Some ws) = Ok (Some (float_of_int (digits_value ws)))
  ∧ parse_size (Some "8 1/2") = Ok (Some (float_of_dyadic 17 (-1)))
  ∧ float_value (float_of_dyadic 17 (-1)) = Some (17 # 2)%Q
  ∧ parse_size (Some "9") = Ok (Some (float_of_dyadic 9 0))
  ∧ float_value (float_of_dyadic 9 0) = Some (9 # 1)%Q.
Proof.
  intros Hw Hn Hd Hln Hld Hq. split.
  { apply parse_size_mixed; try done; by apply Nat.ltb_ge. }
  split; [by apply parse_size_plain|]. by vm_compute.
Qed.

Lemma parse_size_whole_and_fraction_witness :
  parse_size (Some "10 3/4")
  = Ok (Some (float_add (float_of_int 10) (float_of_dyadic 3 (-2)))).
Proof.
  refine (proj1 (parse_size_whole_and_fraction "10" "3" "4"
                   (float_of_dyadic 3 (-2)) _ _ _ _ _ _));
    first [ by split | by vm_compute | cbn; lia ].
Defined.

(** ** The error monad *)

Global Instance Ok_inj {A} : Inj (=) (=) (@Ok A).
Proof. by intros x y [= ->]. Qed.

Lemma mapM_ok_iff {A B} (f : A -> result B) l k :
  mapM f l = Ok k ↔ Forall2 (fun x y => f x = Ok y) l k.
Proof.
  revert k. induction l as [|x l IH]; intros k; cbn.
  - split; [intros [= <-]; constructor|by inversion 1].
  - split.
    + destruct (f x) as [y|e] eqn:Hx; [|done]. cbn.
      destruct (mapM f l) as [k'|e] eqn:Hl; [|done]. cbn.
      intros [= <-]. constructor; [done|by apply IH].
    + inversion 1 as [|? y ? k' Hy Hk]; subst. rewrite Hy. cbn.
      apply IH in Hk. by rewrite Hk.
Qed.

Lemma mapM_ok_fmap {A B} (f : A -> result B) (g : A -> B) l :
  (∀ x, x ∈ l -> f x = Ok (g x)) -> mapM f l = Ok (g <$> l).
Proof.
  intros H. apply mapM_ok_iff. induction l as [|x l IH]; [constructor|].
  rewrite fmap_cons. constructor; [apply H; left|apply IH].
  intros y Hy. apply H. by right.
Qed.

(** ** Sums *)

Local Open Scope Qc_scope.

Lemma total_nil : total [] = 0.
Proof. reflexivity. Qed.

Lemma total_cons q l : total (q :: l) = q + total l.
Proof. reflexivity. Qed.

Lemma total_app l1 l2 : total (l1 ++ l2) = total l1 + total l2.
Proof.
  induction l1 as [|q l1 IH]; [by rewrite app_nil_l, total_nil, Qcplus_0_l|].
  rewrite <- app_comm_cons, !total_cons, IH. ring.
Qed.

Lemma total_zero {A} (l : list A) : total ((fun _ => 0) <$> l) = 0.
Proof.
  induction l as [|x l IH]; [done|]. rewrite fmap_cons, total_cons, IH. ring.
Qed.

Lemma total_plus {A} (a b : A -> Qc) l :
  total ((fun x => a x + b x) <$> l) = total (a <$> l) + total (b <$> l).
Proof.
  induction l as [|x l IH]; [by rewrite !fmap_nil, total_nil, Qcplus_0_l|].
  rewrite !fmap_cons, !total_cons, IH. ring.
Qed.

Lemma total_indicator (c0 : float) q cols :
  NoDup cols ->
  total ((fun c => if decide (c0 = c) then q else 0) <$> cols)
  = if decide (c0 ∈ cols) then q else 0.
Proof.
  induction 1 as [|c cols Hc Hnd IH].
  - by rewrite decide_False by by intros ?%elem_of_nil.
  - rewrite fmap_cons, total_cons, IH. destruct (decide (c0 = c)) as [->|Hne].
    + rewrite (decide_False (P := c ∈ cols)) by done.
      rewrite decide_True by left. ring.
    + destruct (decide (c0 ∈ cols)) as [Hin|Hin].
      * rewrite decide_True by by right. ring.
      * rewrite decide_False; [ring|]. by intros [?|?]%elem_of_cons.
Qed.

(** The sums of the pivot when both sums of pandas are exact. *)
Section Sums.
Implicit Types (obs : list (row_key * float * Qc)) (k : row_key) (c : float).

Abbreviation cell_sum := (Pandas.cell_sum total).
Abbreviation row_sum := (Pandas.row_sum total).
Abbreviation col_sum := (Pandas.col_sum total).
Abbreviation grand_sum := (Pandas.grand_sum total).

Lemma cell_sum_total obs k c :
  cell_sum obs k c = total ((filter (fun o => o.1 = (k, c)) obs).*2).
Proof. unfold Pandas.cell_sum. by destruct (_.*2). Qed.

Lemma cell_sum_cons o obs k c :
  cell_sum (o :: obs) k c
  = (if decide (o.1 = (k, c)) then o.2 else 0) + cell_sum obs k c.
Proof.
  rewrite !cell_sum_total, filter_cons.
  destruct (decide (o.1 = (k, c)));
    [rewrite fmap_cons, total_cons; done|by rewrite Qcplus_0_l].
Qed.

Lemma row_sum_cons o obs k :
  row_sum (o :: obs) k = (if decide (o.1.1 = k) then o.2 else 0) + row_sum obs k.
Proof.
  unfold Pandas.row_sum. rewrite filter_cons.
  destruct (decide (o.1.1 = k));
    [rewrite fmap_cons, total_cons; done|by rewrite Qcplus_0_l].
Qed.

Lemma col_sum_cons o obs c :
  col_sum (o :: obs) c = (if decide (o.1.2 = c) then o.2 else 0) + col_sum obs c.
Proof.
  unfold Pandas.col_sum. rewrite filter_cons.
  destruct (decide (o.1.2 = c));
    [rewrite fmap_cons, total_cons; done|by rewrite Qcplus_0_l].
Qed.

(** The cells of a row add up to the row's sum. *)
Lemma cells_add_up obs k cols :
  NoDup cols -> (∀ o, o ∈ obs -> o.1.2 ∈ cols) ->
  total (cell_sum obs k <$> cols) = row_sum obs k.
Proof.
  intros Hnd. induction obs as [|o obs IH]; intros Hin.
  - apply (total_zero cols).
  - rewrite (list_fmap_ext _ _ _ (fun _ c _ => cell_sum_cons o obs k c)).
    rewrite total_plus, row_sum_cons, IH by (intros; apply Hin; by right).
    f_equal. destruct o as [[k0 c0] q]. cbn.
    destruct (decide (k0 = k)) as [->|Hne].
    + rewrite (list_fmap_ext _ (fun c => if decide (c0 = c) then q else 0) cols)
        by (intros; repeat case_decide; congruence).
      rewrite total_indicator by done.
      rewrite decide_True; [done|]. apply (Hin (k, c0, q)). left.
    + rewrite (list_fmap_ext _ (fun _ => 0) cols)
        by (intros; case_decide; congruence).
      apply total_zero.
Qed.

(** The column sums add up to the grand sum. *)
Lemma columns_add_up obs cols :
  NoDup cols -> (∀ o, o ∈ obs -> o.1.2 ∈ cols) ->
  total (col_sum obs <$> cols) = grand_sum obs.
Proof.
  intros Hnd. induction obs as [|o obs IH]; intros Hin.
  - apply (total_zero cols).
  - rewrite (list_fmap_ext _ _ _ (fun _ c _ => col_sum_cons o obs c)).
    rewrite total_plus, IH by (intros; apply Hin; by right).
    unfold Pandas.grand_sum. rewrite fmap_cons, total_cons. f_equal.
    rewrite total_indicator by done.
    rewrite decide_True; [done|]. apply Hin. left.
Qed.
End Sums.

(** *** Where the sums of pandas are exact *)

Lemma small_integers_spec qs :
  small_integers qs = true
  ↔ Forall (fun q : Qc => Qden q = 1%positive) qs
    ∧ (foldr Z.add 0 ((fun q : Qc => Z.abs (Qnum q)) <$> qs) < 2 ^ 53)%Z.
Proof.
  unfold small_integers. rewrite andb_true_iff, forallb_forall, Z.ltb_lt.
  rewrite Forall_forall. split; intros [H1 H2]; (split; [|done]); intros q Hq.
  - by apply Pos.eqb_eq, H1, list_elem_of_In.
  - by apply Pos.eqb_eq, H1, list_elem_of_In.
Qed.

Lemma small_integers_sublist l1 l2 :
  l1 `sublist_of` l2 -> small_integers l2 = true -> small_integers l1 = true.
Proof.
  rewrite !small_integers_spec. intros Hsub [Hd Hs]. split.
  { rewrite Forall_forall in *. intros q Hq. apply Hd.
    eapply elem_of_submseteq; [exact Hq|by apply sublist_submseteq]. }
  eapply Z.le_lt_trans; [|exact Hs]. clear Hd Hs.
  induction Hsub as [|q l1 l2 _ IH|q l1 l2 _ IH]; [done|cbn; lia|cbn; lia].
Qed.

Lemma small_integers_filter {A} (g : A -> Qc) (P : A -> Prop)
    `{!∀ x, Decision (P x)} l :
  small_integers (g <$> l) = true -> small_integers (g <$> filter P l) = true.
Proof. apply small_integers_sublist, fmap_sublist, sublist_filter. Qed.

Lemma small_integers_Permutation l1 l2 :
  l1 ≡ₚ l2 -> small_integers l1 = small_integers l2.
Proof.
  intros Hp. apply eq_true_iff_eq. rewrite !small_integers_spec.
  assert (foldr Z.add 0%Z ((fun q : Qc => Z.abs (Qnum q)) <$> l1)
          = foldr Z.add 0%Z ((fun q : Qc => Z.abs (Qnum q)) <$> l2)) as ->.
  { induction Hp; cbn; lia. }
  by rewrite Hp.
Qed.

(** The sums of an int64 column are exact there. *)
Lemma whole_plus a b : whole a + whole b = whole (a + b).
Proof.
  unfold whole. apply Qc_is_canon. cbn. rewrite !Qred_correct.
  unfold Qeq, Qplus, inject_Z. cbn. lia.
Qed.

Lemma total_whole qs :
  Forall (fun q : Qc => Qden q = 1%positive) qs ->
  total qs = whole (foldr Z.add 0%Z ((fun q : Qc => Qnum q) <$> qs)).
Proof.
  induction 1 as [|q qs Hq _ IH]; [done|].
  rewrite total_cons, IH, fmap_cons. cbn [foldr]. rewrite <- whole_plus. f_equal.
  unfold whole. apply Qc_is_canon. cbn. rewrite Qred_correct.
  destruct q as [[n d] Hc]. cbn in *. by subst.
Qed.

Lemma int64_sum_exact qs : small_integers qs = true -> int64_sum qs = total qs.
Proof.
  intros [Hd Hs]%small_integers_spec. rewrite (total_whole qs Hd).
  unfold int64_sum, int64. do 2 f_equal.
  assert (Z.abs (foldr Z.add 0%Z ((fun q : Qc => Qnum q) <$> qs))
          <= foldr Z.add 0%Z ((fun q : Qc => Z.abs (Qnum q)) <$> qs))%Z as Hle.
  { clear. induction qs as [|q qs IH]; cbn; lia. }
  rewrite Z.mod_small; lia.
Qed.

(** ** The pivot *)

Local Close Scope Qc_scope.

Lemma pivot_columns_NoDup obs : NoDup (pivot_columns obs).
Proof.
  unfold pivot_columns. rewrite merge_sort_Permutation. apply NoDup_remove_dups.
Qed.

Lemma elem_of_pivot_columns obs c : c ∈ pivot_columns obs ↔ c ∈ obs.*1.*2.
Proof.
  unfold pivot_columns. by rewrite merge_sort_Permutation, elem_of_remove_dups.
Qed.

Lemma elem_of_pivot_index obs k : k ∈ pivot_index obs ↔ k ∈ obs.*1.*1.
Proof.
  unfold pivot_index. by rewrite merge_sort_Permutation, elem_of_remove_dups.
Qed.

Lemma lookup_label_fmap (g : float -> Qc) cols c :
  c ∈ cols -> lookup_label c ((fun c => (c, g c)) <$> cols) = Some (g c).
Proof.
  induction cols as [|c' cols IH]; [by intros ?%elem_of_nil|].
  intros Hin. rewrite fmap_cons. cbn [lookup_label fst snd].
  destruct (decide (c' = c)) as [->|Hne]; [done|].
  apply IH. apply elem_of_cons in Hin as [->|?]; done.
Qed.

Lemma select_cells (g : float -> Qc) cols0 cols :
  cols ⊆ cols0 ->
  mapM (fun c => match lookup_label c ((fun c => (c, g c)) <$> cols0) with
                 | Some q => Ok (c, q)
                 | None => Raise KeyError
                 end) cols
  = Ok ((fun c => (c, g c)) <$> cols).
Proof.
  intros Hsub. apply mapM_ok_fmap. intros c Hc.
  by rewrite lookup_label_fmap by by apply Hsub.
Qed.

Lemma select_row_body obs cols0 cols k :
  cols ⊆ cols0 ->
  select_row cols (body_row obs cols0 k) = Ok (body_row obs cols k).
Proof.
  intros Hsub. unfold select_row, size_cell. cbn [row_sizes Pandas.body_row].
  by rewrite (select_cells (cell_sum obs k)).
Qed.

Lemma select_row_margin name obs cols0 cols :
  cols ⊆ cols0 ->
  select_row cols (margin_row name obs cols0) = Ok (margin_row name obs cols).
Proof.
  intros Hsub. unfold select_row, size_cell. cbn [row_sizes Pandas.margin_row].
  by rewrite (select_cells (col_sum obs)).
Qed.

Lemma filter_body_rows obs cols (index : list row_key) :
  filter (fun r => row_Color r ≠ "All") (body_row obs cols <$> index)
  = body_row obs cols <$> filter (fun k : row_key => k.1.1 ≠ "All") index.
Proof.
  induction index as [|k index IH]; [done|].
  rewrite fmap_cons, !filter_cons, IH. cbn [row_Color Pandas.body_row].
  by destruct (decide (k.1.1 ≠ "All")).
Qed.

Lemma written_columns_NoDup df : NoDup (written_columns df).
Proof.
  unfold written_columns. rewrite merge_sort_Permutation. apply pivot_columns_NoDup.
Qed.

Lemma elem_of_written_columns df c :
  c ∈ written_columns df ↔ c ∈ (observed df).*1.*2.
Proof.
  unfold written_columns. by rewrite merge_sort_Permutation, elem_of_pivot_columns.
Qed.

Lemma filter_margin_row name obs cols :
  name ≠ "All" ->
  filter (fun r => row_Color r ≠ "All") [margin_row name obs cols]
  = [margin_row name obs cols].
Proof. intros. by rewrite filter_cons_True. Qed.

Lemma data_sizes (df : list line) : column <$> (datum_of <$> df) = Size <$> df.
Proof. by rewrite <- list_fmap_compose. Qed.

(** What lines 42-54 do: without a complete line the selection of the
    'Grand Total' column fails; a key equal to the margins name is
    refused by [pivot_table]; otherwise the pivot is written with the
    rows coloured 'All' removed and the margin row last. *)
Lemma written_pivot_eq df :
  written_pivot df
  = match pivot_index (observed df) with
    | [] => Raise KeyError
    | index =>
        if conflicting "Grand Total" index then Raise ValueError
        else Ok {| size_columns := written_columns df; has_margin := true;
                   rows := (body_row (observed df) (written_columns df)
                              <$> filter (fun k : row_key => k.1.1 ≠ "All") index)
                           ++ [margin_row "Grand Total" (observed df)
                                 (written_columns df)] |}
    end.
Proof.
  unfold written_pivot, written_columns, Pandas.pivot_table, observed, sign_of.
  rewrite data_sizes.
  set (obs := observations _ (datum_of <$> df)).
  destruct (pivot_index obs) as [|k0 index] eqn:Hidx; [done|].
  destruct (conflicting _ _) eqn:Hcf; [done|].
  cbn [mbind result_bind drop_All size_columns has_margin rows].
  unfold select_columns. cbn [size_columns has_margin rows andb].
  set (cols0 := pivot_columns obs). set (cols := merge_sort float_le cols0).
  assert (cols ⊆ cols0) as Hsub.
  { intros c. unfold cols. by rewrite merge_sort_Permutation. }
  rewrite bool_decide_true by (by apply Forall_forall).
  unfold drop_All. cbn [size_columns has_margin rows andb].
  rewrite filter_app, filter_body_rows.
  rewrite filter_margin_row by discriminate.
  erewrite (proj2 (mapM_ok_iff _ _ _)); [reflexivity|].
  apply Forall2_app.
  - apply Forall2_fmap, Forall_Forall2_diag, Forall_forall.
    intros k _. by apply select_row_body.
  - constructor; [|constructor]. by apply select_row_margin.
Qed.

Lemma written_pivot_ok df f :
  written_pivot df = Ok f ->
  conflicting "Grand Total" (pivot_index (observed df)) = false
  ∧ f = {| size_columns := written_columns df; has_margin := true;
           rows := (body_row (observed df) (written_columns df)
                      <$> filter (fun k : row_key => k.1.1 ≠ "All")
                            (pivot_index (observed df)))
                   ++ [margin_row "Grand Total" (observed df) (written_columns df)] |}.
Proof.
  rewrite written_pivot_eq.
  destruct (pivot_index _) as [|k0 index]; [done|]. cbn zeta.
  destruct (conflicting _ _); [done|]. by intros [= <-].
Qed.

(** The run gets through lines 25-54 whenever every size parses without
    raising, a PO number and a ship date are present, some line is
    complete, and no key of a complete line is 'Grand Total'. *)
Lemma build_pivot_returns up df po sd :
  mapM enrich up = Ok df ->
  first_valid (PO_Number <$> df) = Ok po ->
  first_valid (Ship_Dates <$> df) = Ok sd ->
  pivot_index (observed df) ≠ [] ->
  conflicting "Grand Total" (pivot_index (observed df)) = false ->
  ∃ f, build_pivot up = Ok (f, po, sd).
Proof.
  intros Hdf Hpo Hsd Hne Hcf. unfold build_pivot.
  rewrite Hdf. cbn [mbind result_bind]. rewrite Hpo. cbn [mbind result_bind].
  rewrite Hsd. cbn [mbind result_bind]. rewrite written_pivot_eq.
  destruct (pivot_index _) as [|k0 index]; [done|]. cbn zeta. rewrite Hcf. eauto.
Qed.

Lemma build_pivot_ok up f po sd :
  build_pivot up = Ok (f, po, sd) ->
  ∃ df, mapM enrich up = Ok df
        ∧ first_valid (PO_Number <$> df) = Ok po
        ∧ first_valid (Ship_Dates <$> df) = Ok sd
        ∧ written_pivot df = Ok f.
Proof.
  unfold build_pivot. destruct (mapM enrich up) as [df|e]; [|done]. cbn.
  destruct (first_valid (PO_Number <$> df)) as [po'|e] eqn:Hpo; [|done]. cbn.
  destruct (first_valid (Ship_Dates <$> df)) as [sd'|e] eqn:Hsd; [|done]. cbn.
  destruct (written_pivot df) as [f'|e] eqn:Hf; [|done]. cbn.
  intros [= <- <- <-]. by exists df.
Qed.

(** *** The observations, line by line

    [z] is the sign of the zero that labels the zero sizes. *)

Lemma observe_datum_of z l :
  observe z (datum_of l)
  = match Color l, Size l with
    | Some a, Some x =>
        if is_nan x then None
        else Some ((a, KPR_Style l, Marks_Style l), group_key z x, Qty_per_Store l)
    | _, _ => None
    end.
Proof. unfold observe, datum_of. cbn. by destruct (Color l), (Size l). Qed.

Lemma group_key_nan z x : is_nan (group_key z x) = is_nan x.
Proof. by destruct x. Qed.

Lemma observations_cons z l df :
  observations z (datum_of <$> l :: df)
  = match observe z (datum_of l) with
    | Some o => o :: observations z (datum_of <$> df)
    | None => observations z (datum_of <$> df)
    end.
Proof. reflexivity. Qed.

Lemma observed_not_nan z df o :
  o ∈ observations z (datum_of <$> df) -> is_nan o.1.2 = false.
Proof.
  unfold observations. rewrite list_elem_of_omap. intros (d & Hd & Ho).
  apply list_elem_of_fmap in Hd as (l & -> & _).
  rewrite observe_datum_of in Ho.
  destruct (Color l), (Size l) as [x|]; try done.
  destruct (is_nan x) eqn:Hx; [done|]. injection Ho as <-. cbn.
  by rewrite group_key_nan.
Qed.

Lemma group_key_idemp z x : group_key z (group_key z x) = group_key z x.
Proof. by destruct x. Qed.

Lemma observed_key z df o :
  o ∈ observations z (datum_of <$> df) -> group_key z o.1.2 = o.1.2.
Proof.
  unfold observations. rewrite list_elem_of_omap. intros (d & Hd & Ho).
  apply list_elem_of_fmap in Hd as (l & -> & _).
  rewrite observe_datum_of in Ho.
  destruct (Color l), (Size l) as [x|]; try done.
  destruct (is_nan x); [done|]. injection Ho as <-. apply group_key_idemp.
Qed.

(** A size column of the written pivot is the group key of a size that
    is not NaN. *)
Lemma written_column_is_key df c :
  c ∈ written_columns df -> is_nan c = false ∧ group_key (sign_of df) c = c.
Proof.
  rewrite elem_of_written_columns. intros (o & -> & Ho)%list_elem_of_fmap.
  apply list_elem_of_fmap in Ho as (o' & -> & Ho).
  split; [by apply (observed_not_nan (sign_of df) df)
         |by apply (observed_key (sign_of df) df)].
Qed.

Lemma observed_in_written_columns df o :
  o ∈ observed df -> o.1.2 ∈ written_columns df.
Proof.
  intros Ho. apply elem_of_written_columns.
  by apply list_elem_of_fmap_2, list_elem_of_fmap_2.
Qed.

Lemma observed_value z l o :
  observe z (datum_of l) = Some o -> o.2 = Qty_per_Store l.
Proof.
  rewrite observe_datum_of. destruct (Color l), (Size l) as [x|]; try done.
  destruct (is_nan x); [done|]. by intros [= <-].
Qed.

(** The values of the observations that satisfy [Q] are the quantities
    of the lines that satisfy [P], in the order of the table, when [P]
    says that the line is observed and its observation satisfies [Q]. *)
Lemma observed_values z (P : line -> Prop) `{!∀ l, Decision (P l)}
    (Q : row_key * float * Qc -> Prop) `{!∀ o, Decision (Q o)} df :
  (∀ l, P l ↔ ∃ o, observe z (datum_of l) = Some o ∧ Q o) ->
  (filter Q (observations z (datum_of <$> df))).*2
  = Qty_per_Store <$> filter P df.
Proof.
  intros HPQ. induction df as [|l df IH]; [done|].
  rewrite observations_cons, (filter_cons P).
  destruct (observe z (datum_of l)) as [o|] eqn:Ho.
  - rewrite filter_cons. destruct (decide (Q o)) as [Hq|Hq].
    + rewrite decide_True by (apply HPQ; eauto).
      by rewrite !fmap_cons, IH, (observed_value z l o).
    + rewrite decide_False; [done|].
      intros (o' & Ho' & Hq')%HPQ. congruence.
  - rewrite decide_False; [done|]. intros (o' & Ho' & _)%HPQ. congruence.
Qed.

(** Equality of floats is equality of their group keys. *)
Lemma float_eqb_group_key z x y :
  float_eqb x y = true
  ↔ is_nan x = false ∧ is_nan y = false ∧ group_key z x = group_key z y.
Proof.
  assert (∀ P : Prop, (P -> False) -> false = true ↔ false = false ∧ false = false ∧ P)
    as Hno by (intros P HP; split; [done|by intros (_ & _ & ?%HP)]).
  unfold float_eqb, SFeqb.
  destruct x as [sx|sx| |sx mx ex], y as [sy|sy| |sy my ey]; cbn;
    try (split; [done|by intros (? & ? & ?)]);
    try (by destruct sx; cbn; apply Hno);
    try (by destruct sy; cbn; apply Hno).
  - destruct sx, sy; cbn; by (apply Hno || split).
  - change (PosDef.Pos.compare_cont Eq mx my) with (Pos.compare mx my).
    destruct sx, sy; cbn; try (by apply Hno);
      destruct (Z.compare_spec ex ey) as [->|Hlt|Hlt]; cbn;
      try (apply Hno; intros [= _ ->]; lia);
      destruct (Pos.compare_spec mx my) as [->|Hm|Hm]; cbn;
      try (apply Hno; intros [= ->]; lia); done.
Qed.

Lemma has_size_key z c l :
  is_nan c = false -> group_key z c = c ->
  has_size c l ↔ ∃ x, Size l = Some x ∧ is_nan x = false ∧ group_key z x = c.
Proof.
  intros Hc Hkey. unfold has_size. destruct (Size l) as [x|].
  - rewrite (float_eqb_group_key z), Hkey. split.
    + intros (? & _ & ?). eauto.
    + by intros (? & [= <-] & ? & ?).
  - split; [done|by intros (? & [=] & _)].
Qed.

Lemma in_cell_observed z k c l :
  is_nan c = false -> group_key z c = c ->
  in_cell k c l ↔ ∃ o, observe z (datum_of l) = Some o ∧ o.1 = (k, c).
Proof.
  intros Hc Hkey. rewrite observe_datum_of. unfold in_cell.
  rewrite (has_size_key z c l Hc Hkey).
  destruct k as [[k1 k2] k3]. cbn [fst snd].
  destruct (Color l) as [a|]; [|split; [intros [[=] _]|intros (o & [=] & _)]].
  destruct (Size l) as [x|];
    [|split; [intros (_ & _ & _ & ? & [=] & _)|intros (o & [=] & _)]].
  destruct (is_nan x) eqn:Hx.
  - split; [|intros (o & [=] & _)].
    intros (_ & _ & _ & ? & [= <-] & ? & _). congruence.
  - split.
    + intros ([= <-] & <- & <- & ? & [= <-] & _ & <-). eauto.
    + intros (o & [= <-] & [= <- <- <- <-]). eauto 10.
Qed.

Lemma in_column_observed z c l :
  is_nan c = false -> group_key z c = c ->
  in_column c l ↔ ∃ o, observe z (datum_of l) = Some o ∧ o.1.2 = c.
Proof.
  intros Hc Hkey. rewrite observe_datum_of. unfold in_column.
  rewrite (has_size_key z c l Hc Hkey).
  destruct (Color l) as [a|];
    [|split; [intros [[? [=]] _]|intros (o & [=] & _)]].
  destruct (Size l) as [x|];
    [|split; [intros (_ & ? & [=] & _)|intros (o & [=] & _)]].
  destruct (is_nan x) eqn:Hx.
  - split; [|intros (o & [=] & _)].
    intros (_ & ? & [= <-] & ? & _). congruence.
  - split.
    + intros (_ & ? & [= <-] & _ & <-). eauto.
    + intros (o & [= <-] & <-). eauto 10.
Qed.

Lemma in_row_observed z k l :
  in_row k l ↔ ∃ o, observe z (datum_of l) = Some o ∧ o.1.1 = k.
Proof.
  rewrite observe_datum_of. unfold in_row, complete.
  destruct k as [[k1 k2] k3]. cbn [fst snd].
  destruct (Color l) as [a|];
    [|split; [intros [[=] _]|intros (o & [=] & _)]].
  destruct (Size l) as [x|];
    [|split; [intros (_ & _ & _ & _ & [? [=]] & _)|intros (o & [=] & _)]].
  destruct (is_nan x) eqn:Hx.
  - destruct x; try discriminate Hx.
    split; [by intros (_ & _ & _ & _ & _ & ?)|intros (o & [=] & _)].
  - split.
    + intros ([= <-] & <- & <- & _). eauto.
    + intros (o & [= <-] & [= <- <- <-]). repeat split; eauto.
      by intros [= ->].
Qed.

Lemma complete_observed z l :
  complete l ↔ ∃ o, observe z (datum_of l) = Some o ∧ True.
Proof.
  rewrite observe_datum_of. unfold complete.
  destruct (Color l) as [a|];
    [|split; [intros [[? [=]] _]|intros (o & [=] & _)]].
  destruct (Size l) as [x|];
    [|split; [intros (_ & [? [=]] & _)|intros (o & [=] & _)]].
  destruct (is_nan x) eqn:Hx.
  - destruct x; try discriminate Hx.
    split; [by intros (_ & _ & ?)|intros (o & [=] & _)].
  - split; [eauto|]. intros _. repeat split; eauto. by intros [= ->].
Qed.

(** The quantities that the pivot counts are those of the complete
    lines. *)
Lemma observed_quantities z df :
  (observations z (datum_of <$> df)).*2 = Qty_per_Store <$> filter complete df.
Proof.
  rewrite <- (observed_values z complete (fun _ => True) df (complete_observed z)).
  f_equal. induction (observations _ _) as [|o obs IH]; [done|].
  by rewrite filter_cons_True, <- IH.
Qed.

Lemma cell_sum_lines z df k c :
  is_nan c = false -> group_key z c = c ->
  cell_sum (observations z (datum_of <$> df)) k c
  = match Qty_per_Store <$> filter (in_cell k c) df with
    | [] => Q2Qc 0
    | qs => group_sum qs
    end.
Proof.
  intros Hc Hkey. unfold Pandas.cell_sum.
  rewrite (observed_values z (in_cell k c) (fun o => o.1 = (k, c))); [done|].
  intros l. by apply in_cell_observed.
Qed.

Lemma row_sum_lines z df k :
  row_sum (observations z (datum_of <$> df)) k
  = group_sum (Qty_per_Store <$> filter (in_row k) df).
Proof.
  unfold Pandas.row_sum.
  rewrite (observed_values z (in_row k) (fun o => o.1.1 = k)); [done|].
  intros l. by apply in_row_observed.
Qed.

Lemma col_sum_lines z df c :
  is_nan c = false -> group_key z c = c ->
  col_sum (observations z (datum_of <$> df)) c
  = group_sum (Qty_per_Store <$> filter (in_column c) df).
Proof.
  intros Hc Hkey. unfold Pandas.col_sum.
  rewrite (observed_values z (in_column c) (fun o => o.1.2 = c)); [done|].
  intros l. by apply in_column_observed.
Qed.

Lemma grand_sum_lines z df :
  grand_sum (observations z (datum_of <$> df))
  = series_sum (Qty_per_Store <$> filter complete df).
Proof. unfold Pandas.grand_sum. by rewrite observed_quantities. Qed.

(** *** The sums of the pivot on small whole numbers *)

Lemma observed_small z df :
  small_integers (Qty_per_Store <$> df) = true ->
  small_integers ((observations z (datum_of <$> df)).*2) = true.
Proof. rewrite observed_quantities. apply small_integers_filter. Qed.

Lemma cell_sum_exact (obs : list (row_key * float * Qc)) k c :
  small_integers (obs.*2) = true ->
  cell_sum obs k c = Pandas.cell_sum total obs k c.
Proof.
  intros Hs. unfold Pandas.cell_sum.
  destruct ((filter _ obs).*2) as [|q qs] eqn:Hqs; [done|].
  rewrite <- Hqs. by apply group_sum_exact, small_integers_filter.
Qed.

Lemma row_sum_exact (obs : list (row_key * float * Qc)) k :
  small_integers (obs.*2) = true ->
  row_sum obs k = Pandas.row_sum total obs k.
Proof. intros Hs. by apply group_sum_exact, small_integers_filter. Qed.

Lemma col_sum_exact (obs : list (row_key * float * Qc)) c :
  small_integers (obs.*2) = true ->
  col_sum obs c = Pandas.col_sum total obs c.
Proof. intros Hs. by apply group_sum_exact, small_integers_filter. Qed.

Lemma grand_sum_exact (obs : list (row_key * float * Qc)) :
  small_integers (obs.*2) = true ->
  grand_sum obs = Pandas.grand_sum total obs.
Proof. intros Hs. by apply series_sum_exact. Qed.

(** *** The rows of the written pivot *)

Lemma row_key_of_body obs cols k : row_key_of (body_row obs cols k) = k.
Proof. by destruct k as [[? ?] ?]. Qed.

Lemma not_conflicting name (index : list row_key) k :
  conflicting name index = false -> k ∈ index -> k.1.1 ≠ name.
Proof.
  unfold conflicting. intros Hcf%bool_decide_eq_false Hk Heq. apply Hcf. left.
  rewrite <- Heq. by apply (list_elem_of_fmap_2 (fun k : row_key => k.1.1)).
Qed.

Lemma written_rows df f r :
  written_pivot df = Ok f -> r ∈ rows f ->
  (∃ k, k ∈ pivot_index (observed df) ∧ k.1.1 ≠ "All" ∧ k.1.1 ≠ "Grand Total"
        ∧ r = body_row (observed df) (written_columns df) k)
  ∨ r = margin_row "Grand Total" (observed df) (written_columns df).
Proof.
  intros [Hcf ->]%written_pivot_ok. cbn [rows].
  intros [Hr|Hr%list_elem_of_singleton]%elem_of_app; [left|by right].
  apply list_elem_of_fmap in Hr as (k & -> & [Hall Hk]%list_elem_of_filter).
  exists k. split; [done|]. split; [done|].
  split; [by apply (not_conflicting _ _ _ Hcf)|done].
Qed.

Lemma body_cells obs cols k :
  (row_sizes (body_row obs cols k)).*2 = cell_sum obs k <$> cols.
Proof. cbn [row_sizes Pandas.body_row]. by rewrite <- list_fmap_compose. Qed.

Lemma margin_cells name obs cols :
  (row_sizes (margin_row name obs cols)).*2 = col_sum obs <$> cols.
Proof. cbn [row_sizes Pandas.margin_row]. by rewrite <- list_fmap_compose. Qed.

(** ** The claims about the pivot *)

(** C4, as the program has it: in every written row other than the
    margin row, the cell of a size column is the sum that pandas takes,
    in the arithmetic of the column of quantities, of the quantities of
    the lines of the table that have that row's colour and style labels
    and that size, in the order of the table; without such a line it is
    0.  When these quantities are whole numbers whose absolute values add
    up to less than 2^53, the cell is their sum. *)
Theorem pivot_cell_is_sum up df f po sd r c :
  mapM enrich up = Ok df ->
  build_pivot up = Ok (f, po, sd) ->
  r ∈ rows f -> row_key_of r ≠ margin_key -> c ∈ size_columns f ->
  size_cell r c
    = Some (match Qty_per_Store <$> filter (in_cell (row_key_of r) c) df with
            | [] => Q2Qc 0
            | qs => group_sum qs
            end)
  ∧ (small_integers (Qty_per_Store <$> filter (in_cell (row_key_of r) c) df) = true ->
     size_cell r c
     = Some (total (Qty_per_Store <$> filter (in_cell (row_key_of r) c) df))).
Proof.
  intros Hdf (df' & Hdf' & _ & _ & Hf)%build_pivot_ok Hr Hkey Hc.
  assert (df' = df) as -> by congruence.
  assert (size_cell r c
          = Some (match Qty_per_Store <$> filter (in_cell (row_key_of r) c) df with
                  | [] => Q2Qc 0
                  | qs => group_sum qs
                  end)) as Hcell.
  { destruct (written_rows df f r Hf Hr) as [(k & _ & _ & _ & ->)| ->]; [|done].
    apply written_pivot_ok in Hf as [_ ->]. cbn [size_columns] in Hc.
    rewrite row_key_of_body. unfold size_cell. cbn [row_sizes Pandas.body_row].
    rewrite (lookup_label_fmap (cell_sum _ k)) by done.
    unfold observed. by rewrite cell_sum_lines by by apply (written_column_is_key df). }
  split; [done|]. intros Hs. rewrite Hcell.
  destruct (Qty_per_Store <$> _) as [|q qs]; [done|]. by rewrite group_sum_exact.
Qed.

(** C5, as the program has it: when the quantities of the table are
    whole numbers whose absolute values add up to less than 2^53, the
    grand-total cell of every written row, the margin row included, is
    the sum of the row's size cells. *)
Theorem grand_total_is_row_sum up df f po sd r :
  mapM enrich up = Ok df ->
  build_pivot up = Ok (f, po, sd) -> r ∈ rows f ->
  small_integers (Qty_per_Store <$> df) = true ->
  row_Grand_Total r = total ((row_sizes r).*2).
Proof.
  intros Hdf (df' & Hdf' & _ & _ & Hf)%build_pivot_ok Hr Hs.
  assert (df' = df) as -> by congruence.
  pose proof (written_columns_NoDup df) as Hnd.
  pose proof (observed_in_written_columns df) as Hin.
  apply (observed_small (sign_of df)) in Hs. fold (observed df) in Hs.
  destruct (written_rows df f r Hf Hr) as [(k & _ & _ & _ & ->)| ->].
  - rewrite body_cells. cbn [row_Grand_Total Pandas.body_row].
    rewrite row_sum_exact by done.
    rewrite (list_fmap_ext _ (Pandas.cell_sum total (observed df) k) (written_columns df))
      by (intros; by apply cell_sum_exact).
    symmetry. by apply cells_add_up.
  - rewrite margin_cells. cbn [row_Grand_Total Pandas.margin_row].
    rewrite grand_sum_exact by done.
    rewrite (list_fmap_ext _ (Pandas.col_sum total (observed df)) (written_columns df))
      by (intros; by apply col_sum_exact).
    symmetry. by apply columns_add_up.
Qed.

(** C10: no written row has the colour 'All'; the lines of that colour
    are missing from the body, yet their sizes are columns of the output
    and their quantities are counted in the margin row, which is kept:
    a cell of the margin row is the sum that pandas takes of the
    quantities of the lines that have a colour and the size of the
    column, its grand total the sum that pandas takes of the quantities
    of the complete lines, and the lines coloured 'All' are among them. *)
Theorem rows_coloured_All_are_dropped up df f po sd :
  mapM enrich up = Ok df ->
  build_pivot up = Ok (f, po, sd) ->
  (∀ r, r ∈ rows f -> row_Color r ≠ "All")
  ∧ (∃ body m,
       rows f = body ++ [m] ∧ row_key_of m = margin_key
       ∧ (∀ c, c ∈ size_columns f ->
            size_cell m c
            = Some (group_sum (Qty_per_Store <$> filter (in_column c) df)))
       ∧ row_Grand_Total m = series_sum (Qty_per_Store <$> filter complete df))
  ∧ (∀ l x, l ∈ df -> Color l = Some "All" -> Size l = Some x -> is_nan x = false ->
       ∃ c, c ∈ size_columns f ∧ float_eqb x c = true
            ∧ c = group_key (sign_of df) x
            ∧ l ∈ filter (in_column c) df ∧ l ∈ filter complete df).
Proof.
  intros Hdf (df' & Hdf' & _ & _ & Hf)%build_pivot_ok.
  assert (df' = df) as -> by congruence.
  split; [|split].
  - intros r Hr.
    by destruct (written_rows df f r Hf Hr) as [(k & _ & ? & _ & ->)| ->].
  - apply written_pivot_ok in Hf as [_ ->]. cbn [rows size_columns].
    eexists _, _. split; [done|]. split; [done|]. split.
    + intros c Hc. unfold size_cell. cbn [row_sizes Pandas.margin_row].
      rewrite (lookup_label_fmap (col_sum _)) by done.
      unfold observed. by rewrite col_sum_lines by by apply (written_column_is_key df).
    + apply grand_sum_lines.
  - intros l x Hl Hcol Hsize Hx. set (z := sign_of df).
    assert (float_eqb x (group_key z x) = true) as Heq.
    { apply (float_eqb_group_key z). by rewrite group_key_nan, group_key_idemp. }
    assert (in_column (group_key z x) l) as Hin.
    { unfold in_column, has_size. rewrite Hcol, Hsize. split; [eauto|done]. }
    assert (complete l) as Hcomplete.
    { unfold complete. rewrite Hcol, Hsize. repeat split; eauto.
      intros [= ->]. discriminate Hx. }
    exists (group_key z x). split; [|by rewrite !list_elem_of_filter].
    apply written_pivot_ok in Hf as [_ ->]. cbn [size_columns].
    apply elem_of_written_columns.
    apply (in_column_observed z (group_key z x)) in Hin as (o & Ho & <-);
      [|by rewrite group_key_nan|by apply group_key_idemp].
    apply list_elem_of_fmap_2, list_elem_of_fmap_2, list_elem_of_omap.
    exists (datum_of l). split; [|done]. by apply list_elem_of_fmap_2.
Qed.

(** ** The worksheet *)

Lemma check_string_ok s t :
  check_string s = Ok t ↔ legal s ∧ t = truncate 32767 s.
Proof.
  unfold check_string, legal. destruct (every _ _).
  - split; [by intros [= <-]|by intros [_ ->]].
  - split; [done|by intros [? _]].
Qed.

Lemma check_string_raises s e :
  check_string s = Raise e ↔ e = IllegalCharacterError ∧ ¬ legal s.
Proof.
  unfold check_string, legal. destruct (every _ _).
  - split; [done|by intros [_ ?]].
  - split; [by intros [= <-]|by intros [-> _]].
Qed.

Lemma data_cells_ok r cs :
  data_cells r = Ok cs ↔ legal_row r ∧ cs = shown_cells r.
Proof.
  unfold data_cells, legal_row, shown_cells, text_cell. cbn [mapM].
  destruct (check_string (row_Color r)) as [a|e] eqn:Ha.
  2:{ apply check_string_raises in Ha as [_ Ha]. split; [done|by intros [[? _] _]]. }
  destruct (check_string (row_KPR_Style r)) as [b|e] eqn:Hb.
  2:{ apply check_string_raises in Hb as [_ Hb].
      split; [done|by intros [(_ & ? & _) _]]. }
  destruct (check_string (row_Marks_Style r)) as [c|e] eqn:Hc.
  2:{ apply check_string_raises in Hc as [_ Hc].
      split; [done|by intros [(_ & _ & ?) _]]. }
  apply check_string_ok in Ha as [Ha ->], Hb as [Hb ->], Hc as [Hc ->].
  cbn [mbind result_bind mret result_ret]. rewrite !fmap_app.
  cbn [fmap list_fmap compose].
  split; [by intros [= <-]|by intros [_ ->]].
Qed.


Lemma length_header_cells f :
  length (header_cells f) = (4 + length (size_columns f))%nat.
Proof.
  unfold header_cells. rewrite length_fmap. cbn [app length].
  rewrite length_app, length_fmap. cbn [length]. lia.
Qed.

Lemma to_excel_ok f ws :
  to_excel f = Ok ws
  ↔ fits f ∧ Forall legal_row (rows f)
    ∧ ws = header_cells f :: (shown_cells <$> rows f).
Proof.
  unfold to_excel, fits. rewrite length_header_cells.
  destruct (2 ^ 20 <? Z.of_nat (length (rows f))) eqn:H1.
  { apply Z.ltb_lt in H1. split; [done|]. intros [[? _] _]. lia. }
  destruct (2 ^ 14 <? Z.of_nat (4 + length (size_columns f))) eqn:H2.
  { apply Z.ltb_lt in H2. split; [done|]. intros [[_ ?] _]. lia. }
  apply Z.ltb_ge in H1, H2. cbn [orb].
  destruct (mapM data_cells (rows f)) as [body|e] eqn:Hb; cbn [mbind result_bind].
  - apply mapM_ok_iff in Hb.
    assert (Forall legal_row (rows f) ∧ body = shown_cells <$> rows f) as [Hl ->].
    { revert Hb. generalize (rows f). intros rs Hb.
      induction Hb as [|r cs rs body Hr _ [IH ->]]; [done|].
      apply data_cells_ok in Hr as [Hr ->]. split; [by constructor|done]. }
    split; [by intros [= <-]|by intros (_ & _ & ->)].
  - split; [done|]. intros (_ & Hl & _).
    rewrite (mapM_ok_fmap data_cells shown_cells) in Hb; [done|].
    intros r Hr. apply data_cells_ok. split; [|done].
    by apply (proj1 (Forall_forall _ _) Hl).
Qed.


Lemma length_shown_cells r :
  length (shown_cells r) = (4 + length (row_sizes r))%nat.
Proof.
  unfold shown_cells. rewrite length_fmap. cbn [fmap list_fmap app length].
  rewrite length_app, !length_fmap. cbn [length]. lia.
Qed.

Lemma at_row_last (g : xcell -> xcell) x y (D : list (list xcell)) M n :
  n = (3 + length D)%nat ->
  at_row n g (x :: y :: D ++ [M]) = x :: y :: D ++ [map g M].
Proof.
  intros ->. unfold at_row. cbn [Nat.add Nat.sub alter list_alter].
  f_equal. f_equal.
  rewrite <- (Nat.add_0_r (length D)) at 1. by rewrite alter_app_r.
Qed.

Lemma alternate_layout x y (D : list (list xcell)) M n :
  n = (3 + length D)%nat ->
  alternate n (x :: y :: D ++ [M])
  = x :: y
      :: imap (fun j row =>
                 map (with_fill (if Nat.even j then no_fill else accent1_blue)) row)
           D
      ++ [M].
Proof.
  intros ->. unfold alternate. rewrite !imap_cons. cbn [Nat.leb andb].
  f_equal. f_equal. rewrite imap_app. f_equal.
  - apply imap_ext. intros j row Hj%lookup_lt_Some. unfold compose.
    replace (2 <=? S (S j))%nat with true by done.
    replace (S (S (S j)) <? 3 + length D)%nat with true
      by (symmetry; apply Nat.ltb_lt; lia).
    cbn [andb Nat.sub]. by rewrite Nat.sub_0_r.
  - cbn [imap]. unfold compose. rewrite Nat.add_0_r.
    replace (S (S (S (length D))) <? 3 + length D)%nat with false
      by (symmetry; apply Nat.ltb_ge; lia).
    by rewrite andb_false_r.
Qed.

Lemma at_row_first (g : xcell -> xcell) x (l : list (list xcell)) :
  at_row 1 g (x :: l) = map g x :: l.
Proof. reflexivity. Qed.

Lemma at_row_second (g : xcell -> xcell) x y (l : list (list xcell)) :
  at_row 2 g (x :: y :: l) = x :: map g y :: l.
Proof. reflexivity. Qed.



(** The sheet that is saved: row 1, the names of the columns, one row
    per row of the pivot, and the ship date. *)
Lemma sheet_layout clock f po sd wb body m :
  rows f = body ++ [m] ->
  format_workbook clock f po sd = Ok wb ->
  fits f ∧ Forall legal_row (rows f)
  ∧ legal ("PO Number: " +:+ po) ∧ legal ("Ship Date: " +:+ sd)
  ∧ active wb
    = banner_row po (length (size_columns f))
      :: (total_style <$> header_cells f)
      :: imap (fun j r => body_style j <$> shown_cells r) body
      ++ [total_style <$> shown_cells m; ship_row sd]
  ∧ merged_cells wb = [(1, 4, 1, 3 + length (size_columns f))%nat]
  ∧ length (column_widths wb) = (4 + length (size_columns f))%nat
  ∧ modified wb = clock.
Proof.
  intros Hrows. unfold format_workbook.
  destruct (to_excel f) as [ws|e] eqn:Hws; [|done].
  apply to_excel_ok in Hws as (Hfit & Hlegal & ->). cbn [mbind result_bind].
  destruct (check_string ("PO Number: " +:+ po)) as [t|e] eqn:Hpo; [|done].
  apply check_string_ok in Hpo as [Hpo ->]. cbn [mbind result_bind].
  destruct (check_string ("Ship Date: " +:+ sd)) as [u|e] eqn:Hsd; [|done].
  apply check_string_ok in Hsd as [Hsd ->]. cbn [mbind result_bind].
  intros <-%(inj Ok). cbn [active merged_cells column_widths modified].
  do 4 (split; [done|]).
  rewrite length_header_cells. set (n := length (size_columns f)).
  split; [|split; [|split; [|done]]].
  - cbn [Nat.add replicate]. unfold at_cell. cbn [Nat.sub alter list_alter].
    rewrite Hrows, fmap_app. cbn [fmap list_fmap].
    set (D := shown_cells <$> body).
    set (B0 := _ :: _ :: _ :: _ :: replicate n (plain Blank)).
    assert (length (B0 :: header_cells f :: D ++ [shown_cells m])
            = (3 + length (map (map with_border) D))%nat) as ->.
    { cbn [length]. rewrite length_app, length_map. cbn [length]. lia. }
    cbn [map]. rewrite map_app. cbn [map].
    rewrite at_row_first, at_row_second, at_row_last, alternate_layout by done.
    rewrite <- !app_comm_cons, <- app_assoc. cbn [app].
    f_equal; [|f_equal; [|f_equal]].
    + unfold B0, banner_row. cbn [map app]. do 4 f_equal.
      change (map ?g (map ?h ?l)) with (g <$> (h <$> l)).
      by rewrite !fmap_replicate.
    + rewrite map_map. by apply map_ext.
    + unfold D. change (map ?g ?l) with (g <$> l) at 1.
      rewrite !imap_fmap. apply imap_ext. intros j r _. unfold compose.
      rewrite !map_map. by apply map_ext.
    + f_equal. rewrite map_map. by apply map_ext.
  - by replace (4 + n - 1)%nat with (3 + n)%nat by lia.
  - by rewrite length_fmap, length_seq.
Qed.

Lemma contents_layout banner header (body : list pivot_row) m ship :
  contents (banner :: (total_style <$> header)
              :: imap (fun j r => body_style j <$> shown_cells r) body
              ++ [total_style <$> shown_cells m; ship])
  = (content <$> banner) :: (content <$> header)
      :: ((fun r => content <$> shown_cells r) <$> body)
      ++ [content <$> shown_cells m; content <$> ship].
Proof.
  assert (∀ (g : xcell -> xcell) (l : list xcell),
            (∀ c, content (g c) = content c) ->
            map content (g <$> l) = content <$> l) as Hstyle.
  { intros g l Hg. change (map content (g <$> l)) with (content <$> (g <$> l)).
    rewrite <- list_fmap_compose. apply list_fmap_ext. intros i c _. apply Hg. }
  assert (∀ (g : nat -> nat),
            map (map content)
              (imap (fun j r => body_style (g j) <$> shown_cells r) body)
            = (fun r => content <$> shown_cells r) <$> body) as Hbody.
  { induction body as [|r body IH]; intros g; [done|].
    cbn [imap map fmap list_fmap]. f_equal; [by apply Hstyle|].
    apply (IH (g ∘ S)). }
  unfold contents. cbn [map]. rewrite map_app. cbn [map].
  rewrite !Hstyle by done. do 2 f_equal. f_equal. apply (Hbody id).
Qed.

(** ** The claims about the program *)

Lemma generate_pivot_excel_ok clock up wb po :
  generate_pivot_excel clock up = Ok (wb, po) ->
  ∃ f sd, build_pivot up = Ok (f, po, sd)
          ∧ format_workbook clock f po sd = Ok wb.
Proof.
  unfold generate_pivot_excel.
  destruct (build_pivot up) as [[[f po'] sd]|e]; [|done]. cbn.
  destruct (format_workbook clock f po' sd) as [wb'|e] eqn:Hwb; [|done]. cbn.
  intros [= <- <-]. eauto.
Qed.

(** C1, as the program has it: the margin row is keyed
    ('Grand Total', '', '') and is written, as the last row of the pivot
    and of the sheet's table, where lines 94-96 render it bold on the
    green accent; line 52 removes the rows whose colour is 'All' and no
    other; no row before the last one has the margin key; the grand-total
    column is kept.  On the sheet the margin row shows 'Grand Total', two
    empty cells, its column totals and the grand total. *)
Theorem margin_row_is_written clock up wb po :
  generate_pivot_excel clock up = Ok (wb, po) ->
  ∃ df f sd body m,
    mapM enrich up = Ok df
    ∧ build_pivot up = Ok (f, po, sd)
    ∧ has_margin f = true
    ∧ rows f = body ++ [m]
    ∧ body = (body_row (observed df) (written_columns df)
                <$> filter (fun k : row_key => k.1.1 ≠ "All")
                      (pivot_index (observed df)))
    ∧ m = margin_row "Grand Total" (observed df) (written_columns df)
    ∧ row_key_of m = margin_key
    ∧ (∀ r, r ∈ body -> row_Color r ≠ "All" ∧ row_key_of r ≠ margin_key)
    ∧ contents (active wb)
      = (content <$> banner_row po (length (size_columns f)))
          :: (content <$> header_cells f)
          :: ((fun r => content <$> shown_cells r) <$> body)
          ++ [content <$> shown_cells m; content <$> ship_row sd]
    ∧ active wb !! (2 + length body)%nat = Some (total_style <$> shown_cells m)
    ∧ content <$> shown_cells m
      = [Text "Grand Total"; Blank; Blank]
        ++ (Number <$> (row_sizes m).*2) ++ [Number (row_Grand_Total m)].
Proof.
  intros (f & sd & Hf & Hwb)%generate_pivot_excel_ok.
  destruct (build_pivot_ok _ _ _ _ Hf) as (df & Hdf & _ & _ & Hw).
  pose proof (written_pivot_ok df f Hw) as [Hcf Hrows].
  set (body := body_row (observed df) (written_columns df)
                 <$> filter (fun k : row_key => k.1.1 ≠ "All")
                       (pivot_index (observed df))).
  set (m := margin_row "Grand Total" (observed df) (written_columns df)).
  assert (rows f = body ++ [m]) as Hr by (by rewrite Hrows).
  destruct (sheet_layout clock f po sd wb body m Hr Hwb)
    as (_ & _ & _ & _ & Hactive & _).
  exists df, f, sd, body, m.
  split; [done|]. split; [done|]. split; [by rewrite Hrows|].
  do 4 (split; [done|]). split; [|split; [|split]].
  - intros r (k & -> & [Hall Hk]%list_elem_of_filter)%list_elem_of_fmap.
    split; [done|]. rewrite row_key_of_body. intros ->.
    by apply (not_conflicting _ _ _ Hcf) in Hk.
  - rewrite Hactive. apply contents_layout.
  - rewrite Hactive. cbn [Nat.add]. rewrite !lookup_cons_ne_0 by done.
    cbn [Nat.pred].
    by rewrite lookup_app_r, length_imap, Nat.sub_diag by (by rewrite length_imap).
  - unfold shown_cells. rewrite <- list_fmap_compose.
    rewrite (list_fmap_ext (content ∘ plain) id) by done.
    rewrite list_fmap_id. reflexivity.
Qed.


Lemma zero_sign_in col s :
  Some (S754_zero s) ∈ col -> Some (S754_zero (zero_sign col)) ∈ col.
Proof.
  induction col as [|o col IH]; [by intros ?%elem_of_nil|]. intros Hs.
  destruct o as [[s0|?| |? ? ?]|]; cbn [zero_sign]; try (by left);
    apply elem_of_cons in Hs as [[=]|Hs]; right; by apply IH.
Qed.

Lemma zero_sign_none col :
  (∀ s, Some (S754_zero s) ∉ col) -> zero_sign col = false.
Proof.
  induction col as [|o col IH]; [done|]. intros Hno.
  assert (zero_sign col = false) as Hcol.
  { apply IH. intros s' Hs. apply (Hno s'). by right. }
  destruct o as [[s0|?| |? ? ?]|]; cbn [zero_sign]; try done.
  destruct (Hno s0). left.
Qed.



Lemma parse_size_absent c : size_absent c -> parse_size c = Ok None.
Proof.
  destruct c as [s|]; [|done]. intros [Hsp Hfl]. unfold parse_size.
  rewrite Hsp. by destruct (float_of_string (strip s)).
Qed.


(** C6: the vendor code is the number read from the stripped 'UPC/EAN'
    field; when it is a key of the style table, both labels are the ones
    stored under it; when the field is not a number or the code is not a
    key, both labels are 'Unknown Style'. *)
Theorem style_labels_follow_the_table r l :
  enrich r = Ok l ->
  Vendor_Style l = to_numeric read_number (strip <$> csv_UPC_EAN r)
  ∧ (∀ x e kpr marks,
       Vendor_Style l = Some x -> style_map !! x = Some e ->
       e !! "KPR" = Some kpr -> e !! "Marks" = Some marks ->
       KPR_Style l = kpr ∧ Marks_Style l = marks)
  ∧ (Vendor_Style l = None ∨ (∃ x, Vendor_Style l = Some x ∧ style_map !! x = None) ->
     KPR_Style l = "Unknown Style" ∧ Marks_Style l = "Unknown Style").
Proof.
  unfold enrich. destruct (parse_size (csv_Size r)) as [size|e]; [|done]. cbn.
  intros [= <-]. cbn. split; [done|]. unfold style_label. split.
  - intros x e kpr marks -> He Hk Hm. cbn. by rewrite He; cbn; rewrite Hk, Hm.
  - intros [->|(x & -> & Hx)]; cbn; [done|]. by rewrite Hx.
Qed.

Lemma quantity_zero c : blank_or_unparsable c -> to_numeric read_number c = None.
Proof. by destruct c. Qed.

(** ** More on the size parser *)

Section BlankFacts.
Variable blank : ascii -> bool.

Lemma lstrip_blanks pre s :
  every blank pre = true -> lstrip blank (pre +:+ s) = lstrip blank s.
Proof.
  induction pre as [|a pre IH]; [done|]. cbn [every].
  intros [Ha Hpre]%andb_prop. rewrite append_cons. cbn [lstrip].
  rewrite Ha. by apply IH.
Qed.

Lemma rstrip_only_blanks post : every blank post = true -> rstrip blank post = "".
Proof.
  induction post as [|a post IH]; [done|]. cbn [every rstrip].
  intros [Ha Hpost]%andb_prop. by rewrite (IH Hpost), Ha.
Qed.

Lemma rstrip_blanks s post :
  every blank post = true -> rstrip blank (s +:+ post) = rstrip blank s.
Proof.
  intros Hpost. induction s as [|a s IH].
  - by rewrite append_empty_l, rstrip_only_blanks.
  - rewrite append_cons. cbn [rstrip]. by rewrite IH.
Qed.

Lemma strip_with_blanks pre s post :
  every blank pre = true -> every blank post = true ->
  strip_with blank (pre +:+ s +:+ post) = strip_with blank s.
Proof.
  intros Hpre Hpost. unfold strip_with. rewrite (lstrip_blanks _ _ Hpre).
  induction s as [|a s IH].
  - rewrite append_empty_l.
    rewrite <- (append_empty_r post) at 1.
    by rewrite (lstrip_blanks _ _ Hpost).
  - rewrite append_cons. cbn [lstrip]. destruct (blank a); [done|].
    rewrite <- append_cons. by apply rstrip_blanks.
Qed.
End BlankFacts.

(** X1: the size parser gives an absent value for a missing field and
    for a field without an inner space that [float] rejects, and for
    nothing else: a field with an inner space gives a number or raises. *)
Theorem absent_size_iff c : parse_size c = Ok None ↔ size_absent c.
Proof.
  split; [|apply parse_size_absent].
  destruct c as [s|]; [|done]. unfold parse_size, size_absent.
  destruct (contains " " (strip s)).
  - destruct (split " " (strip s)) as [|w [|fr [|? ?]]]; try done.
    destruct (float_of_string w); [|done]. cbn.
    destruct (Fraction_of_string fr); [|done]. cbn.
    by destruct (float_of_Fraction _).
  - by destruct (float_of_string (strip s)).
Qed.

(** X2: blanks before and after the size do not matter: the field is
    stripped before anything else is done with it. *)
Theorem surrounding_blanks_are_ignored pre s post :
  every is_space pre = true -> every is_space post = true ->
  parse_size (Some (pre +:+ s +:+ post)) = parse_size (Some s).
Proof.
  intros Hpre Hpost. unfold parse_size, strip.
  by rewrite (strip_with_blanks is_space pre s post Hpre Hpost).
Qed.

Lemma strip_digits s : all_digits s = true -> strip s = s.
Proof.
  intros Hd. unfold strip, strip_with. destruct s as [|c s]; [done|].
  pose proof Hd as Hd'. simpl in Hd'. apply andb_prop in Hd' as [Hc _].
  cbn [lstrip]. rewrite (proj1 (digit_not_blank c Hc)). apply rstrip_solid.
  intros a Ha. by apply digit_not_blank, (digits_contain a _ Hd).
Qed.

(** [Fraction] of a whole number is that number over 1. *)
Lemma Fraction_of_string_whole s :
  digit_string s -> too_long s = false ->
  Fraction_of_string s = make_Fraction (digits_value s) 1.
Proof.
  intros [Hd Hne] Hlen. unfold Fraction_of_string. rewrite (strip_digits s Hd).
  destruct s as [|c s]; [done|].
  pose proof Hd as Hd'. simpl in Hd'. apply andb_prop in Hd' as [Hc _].
  rewrite (parse_sign_digit c s Hc).
  pose proof (take_grouped_digits (String c s) "" Hd (or_introl eq_refl)) as Htake.
  rewrite append_empty_r in Htake. rewrite Htake.
  unfold parse_decimal, decimal_groups. rewrite Htake, append_empty_r.
  cbn [String.length Nat.add Nat.eqb Z.of_nat Z.opp Z.leb Z.compare existsb].
  rewrite Hlen. cbn [orb too_long String.length Nat.ltb Nat.leb max_str_digits].
  by rewrite Z.pow_0_r, Z.mul_1_r.
Qed.

(** X3: two whole numbers separated by one space are added: the second
    one is read as a fraction over 1, and has at most 4300 digits, the
    most that [Fraction] reads.  "32 34" is the size 66. *)
Theorem two_whole_numbers_are_added a b q :
  digit_string a -> digit_string b -> (String.length b <= 4300)%nat ->
  float_of_ratio (digits_value b) 1 = Ok q ->
  parse_size (Some (a +:+ " " +:+ b))
  = Ok (Some (float_add (float_of_int (digits_value a)) q)).
Proof.
  intros Ha Hb Hlen%Nat.ltb_ge Hq.
  pose proof Ha as [Had Han]. pose proof Hb as [Hbd Hbn].
  unfold parse_size.
  assert (strip (a +:+ " " +:+ b) = a +:+ " " +:+ b) as ->.
  { destruct a as [|c a]; [done|].
    pose proof Had as Hc. simpl in Hc. apply andb_prop in Hc as [Hc _].
    rewrite <- (append_assoc (String c a)), append_cons.
    apply (strip_with_id is_space); [by apply digit_not_blank|done|].
    intros x Hx. by apply digit_not_blank, (digits_contain x _ Hbd). }
  change (" " +:+ b) with (String " " b).
  rewrite contains_app. cbn [contains]. rewrite Ascii.eqb_refl, orb_true_r.
  rewrite split_piece by (by apply contains_digits).
  rewrite (split_whole _ _ (contains_digits " " b Hbd eq_refl)).
  rewrite (float_of_string_digits a Ha), (Fraction_of_string_whole b Hb Hlen).
  unfold float_of_ratio in Hq.
  destruct (make_Fraction (digits_value b) 1) as [f|e]; [|done].
  cbn [mbind result_bind] in *. by rewrite Hq.
Qed.

(** ** How a run ends *)

Lemma enrich_ok r l :
  enrich r = Ok l ->
  parse_size (csv_Size r) = Ok (Size l) ∧ Color l = csv_Color r
  ∧ PO_Number l = csv_PO_Number r ∧ Ship_Dates l = csv_Ship_Dates r.
Proof.
  unfold enrich. destruct (parse_size (csv_Size r)) as [size|e]; [|done].
  cbn. by intros [= <-].
Qed.

(** [df['PO Number']] and [df['Ship Dates']] are the columns of the
    upload. *)
Lemma enriched_columns up df :
  mapM enrich up = Ok df ->
  PO_Number <$> df = csv_PO_Number <$> up
  ∧ Ship_Dates <$> df = csv_Ship_Dates <$> up.
Proof.
  intros H%mapM_ok_iff. induction H as [|r l up df Hl _ [IH1 IH2]]; [done|].
  apply enrich_ok in Hl as (_ & _ & Hpo & Hsd).
  by rewrite !fmap_cons, IH1, IH2, Hpo, Hsd.
Qed.

Lemma first_valid_raises col e :
  first_valid col = Raise e ↔ e = IndexError ∧ Forall (fun c => c = None) col.
Proof.
  induction col as [|[s|] col IH]; cbn [first_valid].
  - split; [by intros [= <-]|by intros [-> _]].
  - split; [done|]. intros [_ H]. by apply Forall_cons in H as [[=] _].
  - rewrite IH. split; intros [-> H]; (split; [done|]).
    + by constructor.
    + by apply Forall_cons in H as [_ H].
Qed.

Lemma first_valid_ok col s :
  first_valid col = Ok s
  ↔ ∃ l1 l2, col = l1 ++ Some s :: l2 ∧ Forall (fun c => c = None) l1.
Proof.
  induction col as [|[t|] col IH]; cbn [first_valid].
  - split; [done|]. by intros ([|? ?] & ? & ? & _).
  - split.
    + intros [= ->]. by exists [], col.
    + intros ([|c l1] & l2 & Heq & Hl1); [by injection Heq as ->|].
      injection Heq as <- _. by apply Forall_cons in Hl1 as [[=] _].
  - rewrite IH. split.
    + intros (l1 & l2 & -> & Hl1). exists (None :: l1), l2. split; [done|].
      by constructor.
    + intros ([|c l1] & l2 & Heq & Hl1); [done|]. injection Heq as <- ->.
      apply Forall_cons in Hl1 as [_ Hl1]. eauto.
Qed.

(** The first present entry of a column of the upload. *)
Lemma first_valid_column {A} (g : A -> cell) (up : list A) s :
  first_valid (g <$> up) = Ok s
  ↔ ∃ up1 r up2, up = up1 ++ r :: up2
                 ∧ Forall (fun r => g r = None) up1 ∧ g r = Some s.
Proof.
  rewrite first_valid_ok. split.
  - intros (l1 & l2 & Heq & Hl1).
    apply fmap_app_inv in Heq as (up1 & up' & -> & Heq & ->).
    symmetry in Heq. apply fmap_cons_inv in Heq as (r & up2 & Hr & -> & ->).
    exists up1, r, up2. split; [done|]. split; [|done].
    by apply Forall_fmap in Hl1.
  - intros (up1 & r & up2 & -> & H1 & Hr).
    exists (g <$> up1), (g <$> up2).
    rewrite fmap_app, fmap_cons, Hr. split; [done|]. by apply Forall_fmap.
Qed.

(** X4 (lines 38-39): a table in which no line has a PO number, or none
    has a ship date, ends the run with an [IndexError], once every size
    is parsed; the table without lines is such a table. *)
Theorem table_without_po_number_or_ship_date clock up df :
  mapM enrich up = Ok df ->
  Forall (fun r => csv_PO_Number r = None) up
  ∨ Forall (fun r => csv_Ship_Dates r = None) up ->
  generate_pivot_excel clock up = Raise IndexError.
Proof.
  intros Hdf Hno. unfold generate_pivot_excel, build_pivot. rewrite Hdf.
  cbn [mbind result_bind]. destruct (enriched_columns up df Hdf) as [-> ->].
  destruct (first_valid (csv_PO_Number <$> up)) as [po|e] eqn:Hpo.
  - cbn [mbind result_bind].
    destruct (first_valid (csv_Ship_Dates <$> up)) as [sd|e] eqn:Hsd.
    + exfalso.
      apply first_valid_column in Hpo as (? & r & ? & -> & _ & Hr).
      apply first_valid_column in Hsd as (? & r' & ? & Heq & _ & Hr').
      destruct Hno as [Hno|Hno].
      * apply Forall_app in Hno as [_ [Hno _]%Forall_cons]. congruence.
      * rewrite Heq in Hno.
        apply Forall_app in Hno as [_ [Hno _]%Forall_cons]. congruence.
    + by apply first_valid_raises in Hsd as [-> _].
  - by apply first_valid_raises in Hpo as [-> _].
Qed.

Lemma first_valid_present {A} (g : A -> cell) (up : list A) :
  (∃ r, r ∈ up ∧ is_Some (g r)) ↔ ∃ s, first_valid (g <$> up) = Ok s.
Proof.
  split.
  - intros (r & Hr & s & Hs).
    destruct (first_valid (g <$> up)) as [t|e] eqn:Hfv; [eauto|].
    apply first_valid_raises in Hfv as [_ Hnone].
    apply Forall_fmap in Hnone. rewrite Forall_forall in Hnone.
    specialize (Hnone r Hr). cbn in Hnone. congruence.
  - intros (s & (up1 & r & up2 & -> & _ & Hr)%first_valid_column).
    exists r. split; [|by rewrite Hr]. apply elem_of_app. right. left.
Qed.

(** Lines 25-54 once every size is parsed. *)
Lemma build_pivot_eq up df :
  mapM enrich up = Ok df ->
  build_pivot up
  = (po_number ← first_valid (csv_PO_Number <$> up);
     ship_date ← first_valid (csv_Ship_Dates <$> up);
     pivot ← written_pivot df;
     Ok (pivot, po_number, ship_date)).
Proof.
  intros Hdf. unfold build_pivot. rewrite Hdf. cbn [mbind result_bind].
  by destruct (enriched_columns up df Hdf) as [-> ->].
Qed.

Lemma pivot_index_nil obs : pivot_index obs = [] ↔ obs = [].
Proof.
  split; [|by intros ->]. intros Hnil. destruct obs as [|o obs]; [done|].
  assert (o.1.1 ∈ pivot_index (o :: obs)) as Hin
    by (apply elem_of_pivot_index; left).
  rewrite Hnil in Hin. by apply elem_of_nil in Hin.
Qed.

Lemma observed_line z df o :
  o ∈ observations z (datum_of <$> df)
  ↔ ∃ l, l ∈ df ∧ observe z (datum_of l) = Some o.
Proof.
  unfold observations. rewrite list_elem_of_omap. split.
  - intros (d & (l & -> & Hl)%list_elem_of_fmap & Ho). eauto.
  - intros (l & Hl & Ho). exists (datum_of l). split; [|done].
    by apply list_elem_of_fmap_2.
Qed.

(** The key under which a complete line is observed. *)
Lemma observe_complete z l :
  complete l ->
  ∃ a x, Color l = Some a ∧ Size l = Some x ∧ is_nan x = false
         ∧ observe z (datum_of l)
           = Some ((a, KPR_Style l, Marks_Style l), group_key z x, Qty_per_Store l).
Proof.
  intros ([a Ha] & [x Hx] & Hnan). exists a, x.
  rewrite observe_datum_of, Ha, Hx.
  assert (is_nan x = false) as Hx'.
  { by destruct x. }
  by rewrite Hx'.
Qed.

Lemma observe_Some z l o :
  observe z (datum_of l) = Some o ->
  complete l ∧ Color l = Some o.1.1.1.1 ∧ KPR_Style l = o.1.1.1.2
  ∧ Marks_Style l = o.1.1.2
  ∧ ∃ x, Size l = Some x ∧ is_nan x = false ∧ o.1.2 = group_key z x.
Proof.
  intros Ho. split; [apply (complete_observed z); eauto|].
  rewrite observe_datum_of in Ho.
  destruct (Color l) as [a|]; [|done]. destruct (Size l) as [x|]; [|done].
  destruct (is_nan x) eqn:Hx; [done|]. injection Ho as <-. cbn. eauto 10.
Qed.

(** The row keys of the pivot are the keys of the complete lines. *)
Lemma pivot_index_lines z df k :
  k ∈ pivot_index (observations z (datum_of <$> df))
  ↔ ∃ l, l ∈ df ∧ complete l ∧ Color l = Some k.1.1
         ∧ KPR_Style l = k.1.2 ∧ Marks_Style l = k.2.
Proof.
  rewrite elem_of_pivot_index. split.
  - intros (o1 & -> & (o & -> & Ho)%list_elem_of_fmap)%list_elem_of_fmap.
    apply observed_line in Ho as (l & Hl & Ho).
    apply observe_Some in Ho as (? & ? & ? & ? & _). eauto 10.
  - intros (l & Hl & (a & x & Ha & _ & _ & Ho)%(observe_complete z) & Hc & Hk & Hm).
    assert (a = k.1.1) as -> by congruence.
    destruct k as [[k1 k2] k3]. cbn in *. subst k2 k3.
    apply list_elem_of_fmap.
    exists (k1, KPR_Style l, Marks_Style l, group_key z x). split; [done|].
    apply list_elem_of_fmap.
    exists (k1, KPR_Style l, Marks_Style l, group_key z x, Qty_per_Store l).
    split; [done|]. apply observed_line. eauto.
Qed.

Lemma complete_line_key z df l :
  l ∈ df -> complete l ->
  ∃ a, Color l = Some a
       ∧ (a, KPR_Style l, Marks_Style l)
         ∈ pivot_index (observations z (datum_of <$> df)).
Proof.
  intros Hl Hc. destruct (observe_complete z l Hc) as (a & x & Ha & _).
  exists a. split; [done|]. apply pivot_index_lines. eauto 10.
Qed.

Lemma pivot_index_empty z df :
  pivot_index (observations z (datum_of <$> df)) = []
  ↔ Forall (fun l => ¬ complete l) df.
Proof.
  rewrite Forall_forall. split.
  - intros Hnil l Hl Hc.
    destruct (complete_line_key z df l Hl Hc) as (a & _ & Hin).
    rewrite Hnil in Hin. by apply elem_of_nil in Hin.
  - intros Hno.
    destruct (pivot_index (observations z (datum_of <$> df))) as [|k index] eqn:Hi;
      [done|].
    assert (k ∈ pivot_index (observations z (datum_of <$> df))) as Hk
      by (rewrite Hi; left).
    apply pivot_index_lines in Hk as (l & Hl & Hc & _). by destruct (Hno l Hl).
Qed.

Lemma conflicting_false name (index : list row_key) :
  conflicting name index = false
  ↔ ∀ k, k ∈ index -> k.1.1 ≠ name ∧ k.1.2 ≠ name ∧ k.2 ≠ name.
Proof.
  unfold conflicting. rewrite bool_decide_eq_false. split.
  - intros Hno k Hk. repeat split; intros <-; apply Hno.
    + left. by apply (list_elem_of_fmap_2 (fun k : row_key => k.1.1)).
    + right. left. by apply (list_elem_of_fmap_2 (fun k : row_key => k.1.2)).
    + right. right. by apply (list_elem_of_fmap_2 (fun k : row_key => k.2)).
  - intros Hall [Hin|[Hin|Hin]];
      apply list_elem_of_fmap in Hin as (k & -> & Hk);
      destruct (Hall k Hk) as (? & ? & ?); done.
Qed.


(** X5 (lines 42-54): when no line of the table has both a colour and a
    size that is a number, [pivot_table] gives a table without rows and
    without the 'Grand Total' column, and selecting that column on line 54
    ends the run with a [KeyError]. *)
Theorem table_without_complete_line clock up df :
  mapM enrich up = Ok df ->
  (∃ r, r ∈ up ∧ is_Some (csv_PO_Number r)) ->
  (∃ r, r ∈ up ∧ is_Some (csv_Ship_Dates r)) ->
  Forall (fun l => ¬ complete l) df ->
  generate_pivot_excel clock up = Raise KeyError.
Proof.
  intros Hdf [po Hpo]%first_valid_present [sd Hsd]%first_valid_present
    Hno%(pivot_index_empty (sign_of df)).
  unfold generate_pivot_excel. rewrite (build_pivot_eq up df Hdf), Hpo, Hsd.
  cbn [mbind result_bind]. rewrite written_pivot_eq. unfold observed.
  by rewrite Hno.
Qed.

(** X6 (lines 42-51): [pivot_table] refuses a table in which the name of
    the margins, 'Grand Total', is the colour or a style label of a line
    that has a colour and a size: the run ends with a [ValueError]. *)
Theorem label_Grand_Total_is_refused clock up df l :
  mapM enrich up = Ok df ->
  (∃ r, r ∈ up ∧ is_Some (csv_PO_Number r)) ->
  (∃ r, r ∈ up ∧ is_Some (csv_Ship_Dates r)) ->
  l ∈ df -> complete l ->
  Color l = Some "Grand Total" ∨ KPR_Style l = "Grand Total"
  ∨ Marks_Style l = "Grand Total" ->
  generate_pivot_excel clock up = Raise ValueError.
Proof.
  intros Hdf [po Hpo]%first_valid_present [sd Hsd]%first_valid_present
    Hl Hc Hname.
  unfold generate_pivot_excel. rewrite (build_pivot_eq up df Hdf), Hpo, Hsd.
  cbn [mbind result_bind]. rewrite written_pivot_eq. unfold observed.
  destruct (complete_line_key (sign_of df) df l Hl Hc) as (a & Ha & Hin).
  destruct (pivot_index (observations _ (datum_of <$> df))) as [|k0 index] eqn:Hi;
    [by apply elem_of_nil in Hin|].
  cbn zeta.
  destruct (conflicting "Grand Total" (k0 :: index)) eqn:Hcf; [done|].
  exfalso. rewrite conflicting_false in Hcf.
  destruct (Hcf _ Hin) as (H1 & H2 & H3). cbn in H1, H2, H3.
  destruct Hname as [Hn|[Hn|Hn]]; congruence.
Qed.



Lemma mapM_raises {A B} (f : A -> result B) l1 x l2 e :
  f x = Raise e ->
  returns (mapM f (l1 ++ x :: l2)) = false
  ∧ (Forall (fun y => returns (f y) = true) l1 ->
     mapM f (l1 ++ x :: l2) = Raise e).
Proof.
  intros Hx. induction l1 as [|y l1 [IH1 IH2]]; cbn [app mapM].
  - by rewrite Hx.
  - split.
    + destruct (f y) as [z|e']; [|done]. cbn [mbind result_bind].
      by destruct (mapM f (l1 ++ x :: l2)).
    + intros [Hy Hl1]%Forall_cons. destruct (f y) as [z|e']; [|done].
      cbn [mbind result_bind]. by rewrite (IH2 Hl1).
Qed.

(** X9 (line 35): a size that makes [parse_size] raise ends the whole
    run, wherever its line stands in the table and whatever the other
    lines hold; the run raises the exception of the first such line. *)
Theorem bad_size_ends_the_run clock up1 r up2 e :
  parse_size (csv_Size r) = Raise e ->
  returns (generate_pivot_excel clock (up1 ++ r :: up2)) = false
  ∧ (Forall (fun r' => returns (parse_size (csv_Size r')) = true) up1 ->
     generate_pivot_excel clock (up1 ++ r :: up2) = Raise e).
Proof.
  intros Hr.
  assert (enrich r = Raise e) as He by (unfold enrich; by rewrite Hr).
  destruct (mapM_raises enrich up1 r up2 e He) as [H1 H2].
  unfold generate_pivot_excel, build_pivot. split.
  - by destruct (mapM enrich (up1 ++ r :: up2)).
  - intros Hup1. rewrite H2; [done|].
    apply (Forall_impl _ _ _ Hup1). intros r' Hr'. unfold enrich.
    by destruct (parse_size (csv_Size r')).
Qed.

(** ** The order of the rows and of the columns *)

(** *** Merge sort with an order that is total on a part of the type *)

Section SortedOn.
Context {A : Type} (R : relation A) `{!RelDecision R} (P : A -> Prop).
Hypothesis R_total : ∀ x y, P x -> P y -> R x y ∨ R y x.

Lemma list_merge_sorted_on l1 l2 :
  Sorted R l1 ∧ Forall P l1 -> Sorted R l2 ∧ Forall P l2 ->
  Sorted R (list_merge R l1 l2) ∧ Forall P (list_merge R l1 l2).
Proof.
  intros [Hs1 HP1] [Hs2 HP2]. split; [|by rewrite merge_Permutation, Forall_app].
  revert HP1 l2 Hs2 HP2.
  induction Hs1 as [|x1 l1 Hs1 IH1 Hh1]; intros HP1 l2 Hs2;
    [by rewrite list_merge_nil_l|].
  apply Forall_cons in HP1 as [Hx1 HP1].
  induction Hs2 as [|x2 l2 Hs2 IH2 Hh2]; intros HP2;
    [rewrite list_merge_nil_r; by constructor|].
  apply Forall_cons in HP2 as [Hx2 HP2]. rewrite list_merge_cons.
  destruct (decide (R x1 x2)) as [H12|H12].
  - constructor.
    + apply IH1; [done|by constructor|by constructor].
    + apply HdRel_list_merge; [done|by constructor].
  - assert (R x2 x1) as H21 by (by destruct (R_total x1 x2)).
    constructor; [by apply IH2|].
    apply HdRel_list_merge; [by constructor|done].
Qed.

Lemma merge_list_to_stack_sorted_on st l :
  Forall (fun o => ∀ k, o = Some k -> Sorted R k ∧ Forall P k) st ->
  Sorted R l ∧ Forall P l ->
  Forall (fun o => ∀ k, o = Some k -> Sorted R k ∧ Forall P k)
    (merge_list_to_stack R st l).
Proof.
  intros Hst. revert l.
  induction Hst as [|[l'|] st Hl' Hst IH]; intros l Hl; cbn [merge_list_to_stack].
  - apply Forall_singleton. by intros k [= <-].
  - apply Forall_cons. split; [done|]. apply IH, list_merge_sorted_on; [|done].
    by apply Hl'.
  - apply Forall_cons. split; [|done]. by intros k [= <-].
Qed.

Lemma merge_stack_sorted_on st :
  Forall (fun o => ∀ k, o = Some k -> Sorted R k ∧ Forall P k) st ->
  Sorted R (merge_stack R st) ∧ Forall P (merge_stack R st).
Proof.
  induction 1 as [|[l|] st Hl Hst IH]; cbn [merge_stack].
  - by split; constructor.
  - apply list_merge_sorted_on; [by apply Hl|done].
  - done.
Qed.

Lemma merge_sort_aux_sorted_on l : ∀ st,
  Forall (fun o => ∀ k, o = Some k -> Sorted R k ∧ Forall P k) st ->
  Forall P l ->
  Sorted R (merge_sort_aux R st l) ∧ Forall P (merge_sort_aux R st l).
Proof.
  induction l as [|x l IH]; intros st Hst Hl; cbn [merge_sort_aux].
  - by apply merge_stack_sorted_on.
  - apply Forall_cons in Hl as [Hx Hl]. apply IH; [|done].
    apply merge_list_to_stack_sorted_on; [done|].
    split; [by repeat constructor|by constructor].
Qed.

Lemma merge_sort_sorted_on l : Forall P l -> Sorted R (merge_sort R l).
Proof. intros Hl. by apply merge_sort_aux_sorted_on; [constructor|]. Qed.
End SortedOn.

(** A list in order and without duplicates is in strict order. *)
Lemma Sorted_strict {A} (R S : relation A) l :
  (∀ x y, x ∈ l -> y ∈ l -> R x y -> x ≠ y -> S x y) ->
  NoDup l -> Sorted R l -> Sorted S l.
Proof.
  intros HRS Hnd Hs. induction Hs as [|x l Hs IH Hh]; [constructor|].
  apply NoDup_cons in Hnd as [Hx Hnd]. constructor.
  - apply IH; [|done]. intros y z Hy Hz. apply HRS; by right.
  - destruct Hh as [|y l Hxy]; constructor.
    apply HRS; [left|right; left|done|]. intros ->. apply Hx. left.
Qed.

Lemma StronglySorted_filter {A} (R : relation A) (P : A -> Prop)
    `{!∀ x, Decision (P x)} l :
  StronglySorted R l -> StronglySorted R (filter P l).
Proof.
  induction 1 as [|x l Hs IH Hx]; [constructor|].
  rewrite filter_cons. destruct (decide (P x)); [|done].
  constructor; [done|]. rewrite Forall_forall in *.
  intros y [_ Hy]%list_elem_of_filter. by apply Hx.
Qed.

(** *** The order of the floats *)

Lemma SFcompare_finite s1 m1 e1 s2 m2 e2 :
  SFcompare (S754_finite s1 m1 e1) (S754_finite s2 m2 e2)
  = Some match s1, s2 with
         | true, false => Lt
         | false, true => Gt
         | false, false =>
             match Z.compare e1 e2 with
             | Lt => Lt
             | Gt => Gt
             | Eq => Pos.compare m1 m2
             end
         | true, true =>
             match Z.compare e1 e2 with
             | Lt => Gt
             | Gt => Lt
             | Eq => CompOpp (Pos.compare m1 m2)
             end
         end.
Proof. reflexivity. Qed.

Ltac float_order :=
  repeat match goal with
         | x : float |- _ => destruct x as [[]|[]| |[] ? ?]
         end;
  rewrite ?SFcompare_finite; try done;
  repeat match goal with
         | |- context [Z.compare ?a ?b] => destruct (Z.compare_spec a b)
         end; try done; try lia;
  repeat match goal with
         | |- context [Pos.compare ?a ?b] => destruct (Pos.compare_spec a b)
         end; cbn; try done; try lia; auto.

Global Instance float_le_trans : Transitive float_le.
Proof. intros x y z. unfold float_le, SFleb. float_order. Qed.

Global Instance float_lt_trans : Transitive float_lt.
Proof. intros x y z. unfold float_lt, SFltb. float_order. Qed.

Lemma float_le_total x y :
  is_nan x = false -> is_nan y = false -> float_le x y ∨ float_le y x.
Proof. unfold float_le, SFleb. float_order. Qed.

Lemma float_le_antisym x y :
  float_le x y -> float_le y x -> float_eqb x y = true.
Proof. unfold float_le, SFleb, float_eqb, SFeqb. float_order. Qed.

Lemma float_lt_iff x y : float_lt x y ↔ float_le x y ∧ float_eqb x y = false.
Proof.
  unfold float_lt, float_le, float_eqb, SFltb, SFleb, SFeqb.
  destruct (SFcompare x y) as [[]|]; cbn; split; try done; by intros [? ?].
Qed.

(** Two group keys that are equal as floats are the same key. *)
Lemma group_keys_equal z x y :
  is_nan x = false -> group_key z x = x -> group_key z y = y ->
  float_eqb x y = true -> x = y.
Proof. intros _ Hx Hy (_ & _ & Heq)%(float_eqb_group_key z). congruence. Qed.

(** *** The order of the row keys *)

Lemma string_compare_refl s : String.compare s s = Eq.
Proof.
  pose proof (String.compare_antisym s s) as H.
  by destruct (String.compare s s).
Qed.

Lemma string_compare_trans a : ∀ b c,
  String.compare a b = Lt -> String.compare b c = Lt -> String.compare a c = Lt.
Proof.
  induction a as [|x a IH]; intros [|y b] [|z c]; cbn [String.compare]; try done.
  unfold Ascii.compare.
  destruct (N.compare_spec (N_of_ascii x) (N_of_ascii y)) as [Hxy|Hxy|Hxy];
    destruct (N.compare_spec (N_of_ascii y) (N_of_ascii z)) as [Hyz|Hyz|Hyz];
    destruct (N.compare_spec (N_of_ascii x) (N_of_ascii z)) as [Hxz|Hxz|Hxz];
    try done; try lia.
  apply IH.
Qed.

Lemma string_compare_cases a b :
  match String.compare a b with Eq => a = b | _ => a ≠ b end.
Proof.
  destruct (String.compare a b) eqn:H.
  - by apply String.compare_eq_iff.
  - intros ->. by rewrite string_compare_refl in H.
  - intros ->. by rewrite string_compare_refl in H.
Qed.

Lemma string_compare_asym a b :
  String.compare a b = Lt -> String.compare b a = Lt -> False.
Proof. intros H1 H2. by rewrite String.compare_antisym, H2 in H1. Qed.

(** [key_le] is the lexicographic order of the triples. *)
Lemma key_le_iff (a b : row_key) :
  key_le a b
  ↔ String.compare a.1.1 b.1.1 = Lt
    ∨ a.1.1 = b.1.1
      ∧ (String.compare a.1.2 b.1.2 = Lt
         ∨ a.1.2 = b.1.2 ∧ (String.compare a.2 b.2 = Lt ∨ a.2 = b.2)).
Proof.
  unfold key_le, key_leb, String.leb.
  pose proof (string_compare_cases a.1.1 b.1.1) as H1.
  pose proof (string_compare_cases a.1.2 b.1.2) as H2.
  pose proof (string_compare_cases a.2 b.2) as H3.
  destruct (String.compare a.1.1 b.1.1), (String.compare a.1.2 b.1.2),
    (String.compare a.2 b.2); cbn; intuition congruence.
Qed.

Global Instance key_le_trans : Transitive key_le.
Proof.
  intros a b c. rewrite !key_le_iff.
  destruct a as [[a1 a2] a3], b as [[b1 b2] b3], c as [[c1 c2] c3]. cbn.
  intros [H1|[-> [H1|[-> [H1| ->]]]]] [H2|[<- [H2|[<- [H2| <-]]]]];
    eauto 10 using string_compare_trans.
Qed.

Global Instance key_le_antisym : AntiSymm (=) key_le.
Proof.
  intros a b. rewrite !key_le_iff.
  destruct a as [[a1 a2] a3], b as [[b1 b2] b3]. cbn.
  intros [H1|[-> [H1|[-> [H1| ->]]]]] [H2|[E1 [H2|[E2 [H2| E3]]]]]; subst;
    try done;
    try (by rewrite string_compare_refl in H1);
    try (by rewrite string_compare_refl in H2);
    try (by destruct (string_compare_asym _ _ H1 H2)).
Qed.

Global Instance key_le_total : Total key_le.
Proof.
  intros a b. unfold key_le, key_leb, String.leb.
  rewrite (String.compare_antisym b.1.1), (String.compare_antisym b.1.2),
    (String.compare_antisym b.2).
  destruct (String.compare a.1.1 b.1.1), (String.compare a.1.2 b.1.2),
    (String.compare a.2 b.2); cbn; auto.
Qed.

Global Instance key_lt_trans : Transitive key_lt.
Proof.
  intros a b c [Hab Hne] [Hbc Hne']. split; [by etrans|].
  intros ->. apply Hne. by apply (anti_symm key_le).
Qed.

(** *** The pivot is in order *)

Lemma pivot_index_sorted obs : StronglySorted key_lt (pivot_index obs).
Proof.
  apply Sorted_StronglySorted; [apply _|].
  apply (Sorted_strict key_le); [by intros x y _ _ ? ?| |].
  - unfold pivot_index. rewrite merge_sort_Permutation. apply NoDup_remove_dups.
  - apply Sorted_merge_sort, _.
Qed.

Lemma written_columns_in_order df : Sorted float_le (written_columns df).
Proof.
  unfold written_columns.
  apply (merge_sort_sorted_on float_le (fun c => is_nan c = false));
    [apply float_le_total|].
  apply Forall_forall. intros c Hc. apply (written_column_is_key df).
  unfold written_columns. by rewrite merge_sort_Permutation.
Qed.

Lemma written_columns_sorted df : StronglySorted float_lt (written_columns df).
Proof.
  apply Sorted_StronglySorted; [apply _|].
  apply (Sorted_strict float_le).
  - intros x y [Hx Hkx]%written_column_is_key [Hy Hky]%written_column_is_key Hle Hne.
    apply float_lt_iff. split; [done|].
    destruct (float_eqb x y) eqn:Heq; [|done].
    by apply (group_keys_equal (sign_of df)) in Heq.
  - apply written_columns_NoDup.
  - apply written_columns_in_order.
Qed.

Lemma written_pivot_observed df f :
  written_pivot df = Ok f -> ∃ o, o ∈ observed df.
Proof.
  rewrite written_pivot_eq.
  destruct (observed df) as [|o obs]; [done|].
  intros _. exists o. left.
Qed.

(** X10 (lines 53-54): the size columns of the written pivot come in
    strictly ascending order of their numbers, so no size has two
    columns; none of them is NaN and there is at least one. *)
Theorem size_columns_ascend up f po sd :
  build_pivot up = Ok (f, po, sd) ->
  StronglySorted float_lt (size_columns f)
  ∧ Forall (fun c => is_nan c = false) (size_columns f)
  ∧ size_columns f ≠ [].
Proof.
  intros (df & _ & _ & _ & Hf)%build_pivot_ok.
  destruct (written_pivot_observed df f Hf) as [o Ho].
  apply written_pivot_ok in Hf as [_ ->]. cbn [size_columns].
  split; [apply written_columns_sorted|]. split.
  - apply Forall_forall. intros c Hc. by apply (written_column_is_key df).
  - apply observed_in_written_columns in Ho. intros Hnil.
    rewrite Hnil in Ho. by apply elem_of_nil in Ho.
Qed.

(** X11 (lines 42-52): the rows of the body come in strictly ascending
    order of their keys (colour, then the two style labels, each compared
    as strings), so no key has two rows; the margin row comes after
    them. *)
Theorem rows_ascend up f po sd :
  build_pivot up = Ok (f, po, sd) ->
  ∃ body m,
    rows f = body ++ [m] ∧ row_key_of m = margin_key
    ∧ StronglySorted key_lt (row_key_of <$> body).
Proof.
  intros (df & _ & _ & _ & Hf)%build_pivot_ok.
  apply written_pivot_ok in Hf as [_ ->]. cbn [rows].
  eexists _, _. split; [done|]. split; [done|].
  rewrite <- list_fmap_compose.
  rewrite (list_fmap_ext _ id _
             (fun _ k _ => row_key_of_body (observed df)
                             (written_columns df) k)), list_fmap_id.
  apply StronglySorted_filter, pivot_index_sorted.
Qed.

(** X12: the pivot has a body row for every key (colour and two style
    labels) of a line with a colour and a size, the colour 'All' apart,
    and for nothing else; it has a size column for every size of such a
    line, the colour 'All' included, and for nothing else: the label of a
    column is a size of the table and is equal, as a number, to the sizes
    it stands for; the column of the zero sizes is labelled by the first
    zero of the column of sizes of the table, -0.0 or 0.0; no two rows,
    the margin row included, have the same key. *)
Theorem rows_and_columns_are_the_ones_present up df f po sd :
  mapM enrich up = Ok df ->
  build_pivot up = Ok (f, po, sd) ->
  (∀ c, c ∈ size_columns f
        ↔ ∃ l x, l ∈ df ∧ is_Some (Color l) ∧ Size l = Some x
                 ∧ is_nan x = false ∧ c = group_key (sign_of df) x)
  ∧ (∀ l x, l ∈ df -> is_Some (Color l) -> Size l = Some x -> is_nan x = false ->
       ∃ c, c ∈ size_columns f ∧ float_eqb x c = true)
  ∧ (∀ c, c ∈ size_columns f -> ∃ l, l ∈ df ∧ Size l = Some c)
  ∧ (∃ body m,
       rows f = body ++ [m] ∧ row_key_of m = margin_key
       ∧ ∀ k, k ∈ row_key_of <$> body
              ↔ k.1.1 ≠ "All"
                ∧ ∃ l, l ∈ df ∧ complete l ∧ Color l = Some k.1.1
                       ∧ KPR_Style l = k.1.2 ∧ Marks_Style l = k.2)
  ∧ NoDup (row_key_of <$> rows f).
Proof.
  intros Hdf (df' & Hdf' & _ & _ & Hf)%build_pivot_ok.
  assert (df' = df) as -> by congruence.
  apply written_pivot_ok in Hf as [Hcf ->]. cbn [size_columns rows].
  set (z := sign_of df).
  assert (observed df = observations z (datum_of <$> df)) as Eobs by done.
  assert (row_key_of <$> (body_row (observed df) (written_columns df)
                            <$> filter (fun k : row_key => k.1.1 ≠ "All")
                                  (pivot_index (observed df)))
          = filter (fun k : row_key => k.1.1 ≠ "All") (pivot_index (observed df)))
    as Hkeys.
  { rewrite <- list_fmap_compose.
    by rewrite (list_fmap_ext _ id _
                  (fun _ k _ => row_key_of_body (observed df)
                                  (written_columns df) k)),
         list_fmap_id. }
  assert (∀ c, c ∈ written_columns df
               ↔ ∃ l x, l ∈ df ∧ is_Some (Color l) ∧ Size l = Some x
                        ∧ is_nan x = false ∧ c = group_key z x) as Hcols.
  { intros c. rewrite elem_of_written_columns, Eobs. split.
    + intros (o1 & -> & (o & -> & Ho)%list_elem_of_fmap)%list_elem_of_fmap.
      apply observed_line in Ho as (l & Hl & Ho).
      apply observe_Some in Ho as ((Hcol & _) & _ & _ & _ & x & Hx & Hnan & Hc).
      exists l, x. eauto 10.
    + intros (l & x & Hl & [a Ha] & Hx & Hnan & ->).
      apply list_elem_of_fmap.
      exists (a, KPR_Style l, Marks_Style l, group_key z x). split; [done|].
      apply list_elem_of_fmap.
      exists (a, KPR_Style l, Marks_Style l, group_key z x, Qty_per_Store l).
      split; [done|]. apply observed_line. exists l. split; [done|].
      by rewrite observe_datum_of, Ha, Hx, Hnan. }
  split; [done|]. split; [|split; [|split]].
  - intros l x Hl Hcol Hx Hnan. exists (group_key z x). split.
    + apply Hcols. eauto 10.
    + apply (float_eqb_group_key z). by rewrite group_key_nan, group_key_idemp.
  - intros c (l & x & Hl & _ & Hx & _ & ->)%Hcols.
    destruct x as [s|?| |? ? ?]; try (by exists l).
    cbn [Pandas.group_key]. unfold z, sign_of.
    assert (Some (S754_zero s) ∈ Size <$> df) as Hs.
    { apply list_elem_of_fmap. by exists l. }
    apply zero_sign_in, list_elem_of_fmap in Hs as (l' & Hl' & Hin). eauto.
  - eexists _, _. split; [done|]. split; [done|]. intros k.
    rewrite Hkeys, list_elem_of_filter. rewrite Eobs.
    by rewrite pivot_index_lines.
  - rewrite fmap_app, Hkeys. apply NoDup_app. split; [|split].
    + apply NoDup_filter. unfold pivot_index.
      rewrite merge_sort_Permutation. apply NoDup_remove_dups.
    + intros k [_ Hk]%list_elem_of_filter ->%list_elem_of_singleton.
      by apply (not_conflicting _ _ _ Hcf) in Hk.
    + apply NoDup_singleton.
Qed.

(** C8: a blank or unparsable quantity becomes 0 and raises nothing:
    the line is enriched whenever its size is parsed.  The line stays in
    the aggregation of a run that gets through lines 25-54: when it has a
    colour and a size, its size is a column of the written pivot, and
    its quantity, 0, is one of the numbers that the margin row sums in
    that column and in the grand total; unless its colour is 'All', its
    key has a row in the pivot, and its quantity is one of the numbers
    summed in the cell of that row and column and in the grand total of
    the row.  The numbers stand in the order of the table. *)
Theorem blank_quantity_counts_as_zero up1 r up2 df f po sd :
  blank_or_unparsable (csv_Qty_per_Store r) ->
  mapM enrich (up1 ++ r :: up2) = Ok df ->
  build_pivot (up1 ++ r :: up2) = Ok (f, po, sd) ->
  returns (enrich r) = returns (parse_size (csv_Size r))
  ∧ ∃ df1 l df2,
      df = df1 ++ l :: df2 ∧ length df1 = length up1 ∧ enrich r = Ok l
      ∧ Qty_per_Store l = Q2Qc 0
      ∧ (complete l ->
         ∃ a c body m,
           Color l = Some a ∧ c ∈ size_columns f ∧ has_size c l
           ∧ rows f = body ++ [m] ∧ row_key_of m = margin_key
           ∧ size_cell m c
             = Some (group_sum
                       ((Qty_per_Store <$> filter (in_column c) df1)
                        ++ Q2Qc 0 :: (Qty_per_Store <$> filter (in_column c) df2)))
           ∧ row_Grand_Total m
             = series_sum
                 ((Qty_per_Store <$> filter complete df1)
                  ++ Q2Qc 0 :: (Qty_per_Store <$> filter complete df2))
           ∧ (a ≠ "All" ->
              ∃ row, row ∈ body
                ∧ row_key_of row = (a, KPR_Style l, Marks_Style l)
                ∧ size_cell row c
                  = Some (group_sum
                            ((Qty_per_Store <$> filter (in_cell (row_key_of row) c) df1)
                             ++ Q2Qc 0
                             :: (Qty_per_Store
                                   <$> filter (in_cell (row_key_of row) c) df2)))
                ∧ row_Grand_Total row
                  = group_sum
                      ((Qty_per_Store <$> filter (in_row (row_key_of row)) df1)
                       ++ Q2Qc 0
                       :: (Qty_per_Store <$> filter (in_row (row_key_of row)) df2)))).
Proof.
  intros Hq%quantity_zero Hdf (df' & Hdf' & _ & _ & Hf)%build_pivot_ok.
  assert (df' = df) as -> by congruence. clear Hdf'.
  split. { unfold enrich. by destruct (parse_size (csv_Size r)). }
  apply mapM_ok_iff, Forall2_app_inv_l in Hdf as (df1 & k & H1 & Hk & ->).
  apply Forall2_cons_inv_l in Hk as (l & df2 & Hl & H2 & ->).
  exists df1, l, df2. split; [done|].
  split; [symmetry; by eapply Forall2_length|]. split; [done|].
  assert (Qty_per_Store l = Q2Qc 0) as H0.
  { unfold enrich in Hl. rewrite Hq in Hl.
    destruct (parse_size (csv_Size r)); [|done]. by injection Hl as <-. }
  split; [done|]. intros Hc. set (df := df1 ++ l :: df2) in *.
  set (z := sign_of df).
  assert (l ∈ df) as Hin by (apply elem_of_app; right; left).
  destruct (observe_complete z l Hc) as (a & x & Ha & Hx & Hnan & Ho).
  set (c := group_key z x) in *.
  assert (is_nan c = false ∧ group_key z c = c) as [Hcn Hck].
  { unfold c. by rewrite group_key_nan, group_key_idemp. }
  assert (has_size c l) as Hsize.
  { unfold has_size. rewrite Hx. apply (float_eqb_group_key z).
    unfold c. by rewrite group_key_nan, group_key_idemp. }
  assert (∀ (P : line -> Prop) `{!∀ l, Decision (P l)},
            P l ->
            Qty_per_Store <$> filter P df
            = (Qty_per_Store <$> filter P df1)
              ++ Q2Qc 0 :: (Qty_per_Store <$> filter P df2)) as Hsplit.
  { intros P ? HP. unfold df.
    by rewrite filter_app, filter_cons_True, fmap_app, fmap_cons, H0 by done. }
  pose proof (written_pivot_ok df f Hf) as [Hcf Hrows].
  assert (c ∈ written_columns df) as Hcol.
  { apply (observed_in_written_columns df (a, KPR_Style l, Marks_Style l, c,
                                           Qty_per_Store l)).
    apply observed_line. eauto. }
  eexists a, c, _, _. split; [done|]. split; [by rewrite Hrows|].
  split; [done|]. split; [by rewrite Hrows|]. split; [done|].
  split; [|split].
  - unfold size_cell. cbn [row_sizes Pandas.margin_row].
    rewrite (lookup_label_fmap (col_sum _)) by done.
    unfold observed. rewrite col_sum_lines by done.
    by rewrite (Hsplit (in_column c) _) by (split; [by rewrite Ha|done]).
  - cbn [row_Grand_Total Pandas.margin_row]. unfold observed.
    by rewrite grand_sum_lines, (Hsplit complete _).
  - intros Hall. set (key := (a, KPR_Style l, Marks_Style l)).
    assert (key ∈ pivot_index (observed df)) as Hkey.
    { apply pivot_index_lines. exists l. by split. }
    exists (body_row (observed df) (written_columns df) key).
    split; [apply list_elem_of_fmap_2, list_elem_of_filter; by split|].
    rewrite row_key_of_body. split; [done|]. split.
    + unfold size_cell. cbn [row_sizes Pandas.body_row].
      rewrite (lookup_label_fmap (cell_sum _ key)) by done.
      unfold observed. rewrite cell_sum_lines by done.
      rewrite (Hsplit (in_cell key c) _) by (repeat (split; [done|]); done).
      by destruct (Qty_per_Store <$> filter (in_cell key c) df1).
    + cbn [row_Grand_Total Pandas.body_row]. unfold observed.
      rewrite row_sum_lines.
      by rewrite (Hsplit (in_row key) _)
        by (split; [exact Ha|split; [done|split; [done|exact Hc]]]).
Qed.

(** ** The totals of the columns *)

Local Open Scope Qc_scope.

Lemma total_one {A} `{EqDecision A} (x0 : A) q l :
  NoDup l ->
  total ((fun x => if decide (x0 = x) then q else 0) <$> l)
  = if decide (x0 ∈ l) then q else 0.
Proof.
  induction 1 as [|x l Hx Hnd IH].
  - by rewrite decide_False by by intros ?%elem_of_nil.
  - rewrite fmap_cons, total_cons, IH. destruct (decide (x0 = x)) as [->|Hne].
    + rewrite (decide_False (P := x ∈ l)) by done.
      rewrite decide_True by left. ring.
    + destruct (decide (x0 ∈ l)) as [Hin|Hin].
      * rewrite decide_True by by right. ring.
      * rewrite decide_False; [ring|]. by intros [?|?]%elem_of_cons.
Qed.

Section ColumnSums.

Abbreviation cell_sum := (Pandas.cell_sum total).
Abbreviation row_sum := (Pandas.row_sum total).
Abbreviation col_sum := (Pandas.col_sum total).
Abbreviation grand_sum := (Pandas.grand_sum total).

(** The cells of a column add up to the column's sum. *)
Lemma rows_add_up (obs : list (row_key * float * Qc)) (c : float)
    (index : list row_key) :
  NoDup index -> (∀ o, o ∈ obs -> o.1.1 ∈ index) ->
  total ((fun k => cell_sum obs k c) <$> index) = col_sum obs c.
Proof.
  intros Hnd. induction obs as [|o obs IH]; intros Hin.
  - apply (total_zero index).
  - rewrite (list_fmap_ext _ _ _ (fun _ k _ => cell_sum_cons o obs k c)).
    rewrite total_plus, col_sum_cons, IH by (intros; apply Hin; by right).
    f_equal. destruct o as [[k0 c0] q]. cbn.
    destruct (decide (c0 = c)) as [->|Hne].
    + rewrite (list_fmap_ext _ (fun k => if decide (k0 = k) then q else 0) index)
        by (intros; repeat case_decide; congruence).
      rewrite total_one by done.
      rewrite decide_True; [done|]. apply (Hin (k0, c, q)). left.
    + rewrite (list_fmap_ext _ (fun _ => 0) index)
        by (intros; case_decide; congruence).
      apply total_zero.
Qed.

(** The row sums add up to the grand sum. *)
Lemma row_sums_add_up (obs : list (row_key * float * Qc))
    (index : list row_key) :
  NoDup index -> (∀ o, o ∈ obs -> o.1.1 ∈ index) ->
  total (row_sum obs <$> index) = grand_sum obs.
Proof.
  intros Hnd. induction obs as [|o obs IH]; intros Hin.
  - apply (total_zero index).
  - rewrite (list_fmap_ext _ _ _ (fun _ k _ => row_sum_cons o obs k)).
    rewrite total_plus, IH by (intros; apply Hin; by right).
    unfold Pandas.grand_sum. rewrite fmap_cons, total_cons. f_equal.
    rewrite total_one by done.
    rewrite decide_True; [done|]. apply Hin. left.
Qed.

End ColumnSums.

Local Close Scope Qc_scope.

Lemma filter_all {A} (P : A -> Prop) `{!∀ x, Decision (P x)} l :
  Forall P l -> filter P l = l.
Proof.
  induction 1 as [|x l Hx Hl IH]; [done|]. by rewrite filter_cons_True, IH.
Qed.

(** X13 (lines 42-52): when the quantities of the table are whole
    numbers whose absolute values add up to less than 2^53, and no line
    with a colour and a size has the colour 'All', every cell of the
    margin row is the sum of the cells of the body above it, and its
    grand total is the sum of the grand totals of the body. *)
Theorem column_totals_add_up up df f po sd :
  mapM enrich up = Ok df ->
  build_pivot up = Ok (f, po, sd) ->
  small_integers (Qty_per_Store <$> df) = true ->
  (∀ l, l ∈ df -> complete l -> Color l ≠ Some "All") ->
  ∃ body m,
    rows f = body ++ [m] ∧ row_key_of m = margin_key
    ∧ (∀ c, c ∈ size_columns f ->
         ∃ qs, Forall2 (fun r q => size_cell r c = Some q) body qs
               ∧ size_cell m c = Some (total qs))
    ∧ row_Grand_Total m = total (row_Grand_Total <$> body).
Proof.
  intros Hdf (df' & Hdf' & _ & _ & Hf)%build_pivot_ok Hs HnoAll.
  assert (df' = df) as -> by congruence.
  apply written_pivot_ok in Hf as [_ ->]. cbn [size_columns rows].
  apply (observed_small (sign_of df)) in Hs.
  assert (observed df = observations (sign_of df) (datum_of <$> df)) as Eobs by done.
  rewrite <- Eobs in Hs.
  assert (filter (fun k : row_key => k.1.1 ≠ "All") (pivot_index (observed df))
          = pivot_index (observed df)) as ->.
  { apply filter_all, Forall_forall. rewrite Eobs.
    intros k (l & Hl & Hc & Hcol & _)%pivot_index_lines Hall.
    apply (HnoAll l Hl Hc). by rewrite Hcol, Hall. }
  clear Eobs. set (obs := observed df) in *. clearbody obs.
  assert (NoDup (pivot_index obs)) as Hnd.
  { unfold pivot_index. rewrite merge_sort_Permutation. apply NoDup_remove_dups. }
  assert (∀ o, o ∈ obs -> o.1.1 ∈ pivot_index obs) as Hin.
  { intros o Ho. apply elem_of_pivot_index.
    by apply list_elem_of_fmap_2, list_elem_of_fmap_2. }
  eexists _, _. split; [done|]. split; [done|]. split.
  - intros c Hc. exists ((fun k => cell_sum obs k c) <$> pivot_index obs). split.
    + apply Forall2_fmap, Forall_Forall2_diag, Forall_forall. intros k _.
      unfold size_cell. cbn [row_sizes Pandas.body_row].
      by rewrite (lookup_label_fmap (cell_sum obs k)).
    + unfold size_cell. cbn [row_sizes Pandas.margin_row].
      rewrite (lookup_label_fmap (col_sum obs)) by done.
      rewrite col_sum_exact by done.
      rewrite (list_fmap_ext _ (fun k => Pandas.cell_sum total obs k c)
                 (pivot_index obs)) by (intros; by apply cell_sum_exact).
      by rewrite rows_add_up.
  - cbn [row_Grand_Total Pandas.margin_row]. rewrite <- list_fmap_compose.
    rewrite grand_sum_exact by done.
    rewrite (list_fmap_ext _ (Pandas.row_sum total obs) (pivot_index obs))
      by (intros; by apply row_sum_exact).
    symmetry. by apply row_sums_add_up.
Qed.

(** ** The order of the lines *)

Lemma mapM_Permutation {A B} (f : A -> result B) l l' :
  l ≡ₚ l' -> ∀ k, mapM f l = Ok k -> ∃ k', mapM f l' = Ok k' ∧ k ≡ₚ k'.
Proof.
  induction 1 as [|x l l' Hperm IH|x y l|l l' l'' _ IH1 _ IH2]; intros k Hk.
  - by exists k.
  - apply mapM_ok_iff, Forall2_cons_inv_l in Hk as (z & k0 & Hz & Hk0 & ->).
    apply mapM_ok_iff, IH in Hk0 as (k' & Hk' & Hperm').
    exists (z :: k'). split; [|by constructor].
    apply mapM_ok_iff. constructor; [done|by apply mapM_ok_iff].
  - apply mapM_ok_iff, Forall2_cons_inv_l in Hk as (a & k0 & Ha & Hk0 & ->).
    apply Forall2_cons_inv_l in Hk0 as (b & k1 & Hb & Hk1 & ->).
    exists (b :: a :: k1). split; [|by constructor].
    apply mapM_ok_iff. by repeat constructor.
  - apply IH1 in Hk as (k' & Hk' & Hperm').
    apply IH2 in Hk' as (k'' & Hk'' & Hperm''). exists k''.
    split; [done|by etrans].
Qed.

Lemma total_Permutation l l' : l ≡ₚ l' -> total l = total l'.
Proof.
  induction 1 as [|x l l' _ IH|x y l|l l' l'' _ IH1 _ IH2]; [done| | |congruence].
  - by rewrite !total_cons, IH.
  - rewrite !total_cons. ring.
Qed.

Lemma pivot_index_Permutation obs obs' :
  obs ≡ₚ obs' -> pivot_index obs = pivot_index obs'.
Proof.
  intros Hperm. apply (StronglySorted_unique key_le).
  - apply StronglySorted_merge_sort; apply _.
  - apply StronglySorted_merge_sort; apply _.
  - unfold pivot_index. rewrite !merge_sort_Permutation.
    apply NoDup_Permutation; [apply NoDup_remove_dups..|].
    intros k. by rewrite !elem_of_remove_dups, Hperm.
Qed.

Lemma observations_Permutation z df df' :
  df ≡ₚ df' ->
  observations z (datum_of <$> df) ≡ₚ observations z (datum_of <$> df').
Proof. intros Hperm. unfold observations. by rewrite Hperm. Qed.

(** When the zeros among the sizes have one sign, the label of the zero
    sizes does not depend on the order of the lines. *)
Lemma sign_of_Permutation df df' :
  one_zero df -> df ≡ₚ df' -> sign_of df = sign_of df'.
Proof.
  intros Hone Hperm. unfold sign_of, one_zero in *.
  assert (Size <$> df ≡ₚ Size <$> df') as Hcol by (by rewrite Hperm).
  destruct (decide (Some (S754_zero true) ∈ Size <$> df
                    ∨ Some (S754_zero false) ∈ Size <$> df)) as [Hz|Hz].
  - assert (∃ s, Some (S754_zero s) ∈ Size <$> df) as [s Hs]
      by (destruct Hz; eauto).
    pose proof (zero_sign_in _ s Hs) as H1.
    rewrite Hcol in Hs. pose proof (zero_sign_in _ s Hs) as H2.
    remember (zero_sign (Size <$> df')) as s2. rewrite <- Hcol in H2.
    destruct (zero_sign (Size <$> df)), s2; try done;
      destruct Hone as [Hone|Hone]; by destruct Hone.
  - rewrite !zero_sign_none; [done| |].
    + intros s Hs. rewrite <- Hcol in Hs. apply Hz. destruct s; eauto.
    + intros s Hs. apply Hz. destruct s; eauto.
Qed.

Lemma written_columns_Permutation df df' :
  one_zero df -> df ≡ₚ df' -> written_columns df = written_columns df'.
Proof.
  intros Hone Hperm. pose proof (sign_of_Permutation df df' Hone Hperm) as Hz.
  apply (StronglySorted_unique_strong float_le).
  - intros x y [Hx Hkx]%written_column_is_key [Hy Hky]%written_column_is_key
      Hxy Hyx.
    rewrite <- Hz in Hky.
    by apply (group_keys_equal (sign_of df)), float_le_antisym.
  - apply Sorted_StronglySorted; [apply _|apply written_columns_in_order].
  - apply Sorted_StronglySorted; [apply _|apply written_columns_in_order].
  - apply NoDup_Permutation; [apply written_columns_NoDup..|].
    intros c. rewrite !elem_of_written_columns. unfold observed.
    by rewrite <- Hz, (observations_Permutation (sign_of df) df df' Hperm).
Qed.

Lemma body_row_exact (obs : list (row_key * float * Qc)) cols k :
  small_integers (obs.*2) = true ->
  body_row obs cols k = Pandas.body_row total obs cols k.
Proof.
  intros Hs. unfold Pandas.body_row. f_equal; [|by apply row_sum_exact].
  apply list_fmap_ext. intros _ c _. f_equal. by apply cell_sum_exact.
Qed.

Lemma margin_row_exact name (obs : list (row_key * float * Qc)) cols :
  small_integers (obs.*2) = true ->
  margin_row name obs cols = Pandas.margin_row total total name obs cols.
Proof.
  intros Hs. unfold Pandas.margin_row. f_equal; [|by apply grand_sum_exact].
  apply list_fmap_ext. intros _ c _. f_equal. by apply col_sum_exact.
Qed.

(** Lines 42-54 do not depend on the order of the lines, where the sums
    are exact and the zeros among the sizes have one sign. *)
Lemma written_pivot_Permutation df df' :
  small_integers (Qty_per_Store <$> df) = true -> one_zero df ->
  df ≡ₚ df' -> written_pivot df = written_pivot df'.
Proof.
  intros Hs Hone Hperm. rewrite !written_pivot_eq.
  rewrite <- (written_columns_Permutation df df' Hone Hperm).
  assert (observed df ≡ₚ observed df') as Hobs.
  { unfold observed. rewrite <- (sign_of_Permutation df df' Hone Hperm).
    by apply observations_Permutation. }
  assert (small_integers ((observed df).*2) = true) as Hs1
    by (by apply observed_small).
  assert (small_integers ((observed df').*2) = true) as Hs2.
  { by rewrite <- (small_integers_Permutation _ _ (fmap_Permutation snd _ _ Hobs)). }
  rewrite <- (pivot_index_Permutation _ _ Hobs).
  set (obs := observed df) in *. set (obs' := observed df') in *.
  clearbody obs obs'.
  destruct (pivot_index obs) as [|k0 index]; [done|]. cbn zeta.
  destruct (conflicting "Grand Total" (k0 :: index)); [done|].
  f_equal. f_equal. f_equal.
  - apply list_fmap_ext. intros _ k _. rewrite !body_row_exact by done.
    unfold Pandas.body_row. f_equal.
    + apply list_fmap_ext. intros _ c _. f_equal. rewrite !cell_sum_total.
      apply total_Permutation. by rewrite Hobs.
    + unfold Pandas.row_sum. apply total_Permutation. by rewrite Hobs.
  - rewrite !margin_row_exact by done. unfold Pandas.margin_row. f_equal. f_equal.
    + apply list_fmap_ext. intros _ c _. f_equal. unfold Pandas.col_sum.
      apply total_Permutation. by rewrite Hobs.
    + unfold Pandas.grand_sum. apply total_Permutation. by rewrite Hobs.
Qed.

(** X14: the order of the lines of the table matters for the PO number
    and the ship date, which are the first ones present, for the sign of
    the label of the zero sizes, which is that of the first zero, and for
    the rounding of float64 sums.  When the quantities are whole numbers
    whose absolute values add up to less than 2^53, and the sizes do not
    hold both -0.0 and 0.0, a table with the same lines in another order
    gives the same pivot. *)
Theorem order_of_lines_does_not_matter up up' df f po sd :
  up ≡ₚ up' ->
  mapM enrich up = Ok df ->
  build_pivot up = Ok (f, po, sd) ->
  small_integers (Qty_per_Store <$> df) = true ->
  one_zero df ->
  ∃ po' sd', build_pivot up' = Ok (f, po', sd').
Proof.
  intros Hperm Hdf0 (df0 & Hdf & Hpo & Hsd & Hf)%build_pivot_ok Hs Hone.
  assert (df0 = df) as -> by congruence.
  destruct (mapM_Permutation enrich up up' Hperm df Hdf) as (df' & Hdf' & Hperm').
  destruct (enriched_columns up df Hdf) as [Epo Esd]. rewrite Epo in Hpo.
  rewrite Esd in Hsd.
  assert (∃ po', first_valid (csv_PO_Number <$> up') = Ok po') as [po' Hpo'].
  { apply first_valid_present.
    destruct (proj2 (first_valid_present csv_PO_Number up)) as (r & Hr & Hs');
      [eauto|].
    exists r. by rewrite <- Hperm. }
  assert (∃ sd', first_valid (csv_Ship_Dates <$> up') = Ok sd') as [sd' Hsd'].
  { apply first_valid_present.
    destruct (proj2 (first_valid_present csv_Ship_Dates up)) as (r & Hr & Hs');
      [eauto|].
    exists r. by rewrite <- Hperm. }
  exists po', sd'. rewrite (build_pivot_eq up' df' Hdf'), Hpo', Hsd'.
  cbn [mbind result_bind].
  by rewrite <- (written_pivot_Permutation df df' Hs Hone Hperm'), Hf.
Qed.

(** ** The styles of the sheet *)

(** What a run that returns has computed. *)
Lemma returned_sheet clock up wb po :
  generate_pivot_excel clock up = Ok (wb, po) ->
  ∃ df f sd,
    mapM enrich up = Ok df ∧ build_pivot up = Ok (f, po, sd)
    ∧ format_workbook clock f po sd = Ok wb
    ∧ size_columns f = written_columns df
    ∧ rows f
      = (body_row (observed df) (written_columns df)
           <$> filter (fun k : row_key => k.1.1 ≠ "All")
                 (pivot_index (observed df)))
        ++ [margin_row "Grand Total" (observed df) (written_columns df)]
    ∧ written_columns df ≠ [].
Proof.
  intros (f & sd & Hf & Hwb)%generate_pivot_excel_ok.
  destruct (build_pivot_ok _ _ _ _ Hf) as (df & Hdf & _ & _ & Hw).
  destruct (written_pivot_observed df f Hw) as [o Ho].
  apply written_pivot_ok in Hw as [_ Hw].
  exists df, f, sd. do 3 (split; [done|]). do 2 (split; [by rewrite Hw|]).
  apply observed_in_written_columns in Ho. intros Hnil.
  rewrite Hnil in Ho. by apply elem_of_nil in Ho.
Qed.

(** X15 (lines 85-87 and 107): every cell of the sheet has a border,
    the cell of the ship date included. *)
Theorem every_cell_has_a_border clock up wb po :
  generate_pivot_excel clock up = Ok (wb, po) ->
  Forall (Forall (fun c => border c = true)) (active wb).
Proof.
  intros (df & f & sd & _ & _ & Hwb & _ & Hrows & _)%returned_sheet.
  destruct (sheet_layout clock f po sd wb _ _ Hrows Hwb)
    as (_ & _ & _ & _ & -> & _).
  apply Forall_cons_2; [|apply Forall_cons_2].
  - unfold banner_row. apply Forall_app. split; [by repeat constructor|].
    by apply Forall_replicate.
  - by apply Forall_fmap, Forall_true.
  - apply Forall_app. split.
    + apply Forall_forall. intros row (j & Hj)%list_elem_of_lookup.
      rewrite list_lookup_imap in Hj. apply fmap_Some in Hj as (r & _ & ->).
      by apply Forall_fmap, Forall_true.
    + repeat constructor. by apply Forall_fmap, Forall_true.
Qed.

(** X16 (lines 98-102): the rows of the body alternate between no fill
    and the blue accent, beginning without fill; they are bordered and
    not bold.  The alternation leaves the names of the columns and the
    last row of the table, the margin row, as lines 91-96 styled them:
    bold on the green accent; the names of the columns stay centred, as
    pandas wrote them.  In the margin row the two cells of the style
    labels are empty. *)
Theorem body_rows_alternate clock up wb po :
  generate_pivot_excel clock up = Ok (wb, po) ->
  ∃ f sd body m,
    build_pivot up = Ok (f, po, sd) ∧ rows f = body ++ [m]
    ∧ (∀ j r, body !! j = Some r ->
         active wb !! (2 + j)%nat = Some (body_style j <$> shown_cells r))
    ∧ active wb !! 1%nat = Some (total_style <$> header_cells f)
    ∧ Forall (fun c => bold c = true ∧ fill c = accent6_green
                       ∧ border c = true ∧ centered c = true)
        (total_style <$> header_cells f)
    ∧ active wb !! (2 + length body)%nat = Some (total_style <$> shown_cells m)
    ∧ total_style <$> shown_cells m
      = (total_style ∘ plain)
          <$> ([Text "Grand Total"; Blank; Blank]
               ++ (Number <$> (row_sizes m).*2) ++ [Number (row_Grand_Total m)]).
Proof.
  intros (df & f & sd & _ & Hf & Hwb & _ & Hrows & _)%returned_sheet.
  eexists f, sd, _, _. split; [done|]. split; [exact Hrows|].
  destruct (sheet_layout clock f po sd wb _ _ Hrows Hwb)
    as (_ & _ & _ & _ & -> & _).
  split; [|split; [done|split; [|split]]].
  - intros j r Hj. cbn [Nat.add]. rewrite !lookup_cons_ne_0 by done.
    cbn [Nat.pred]. rewrite lookup_app_l
      by (rewrite length_imap; by apply lookup_lt_Some in Hj).
    by rewrite list_lookup_imap, Hj.
  - unfold header_cells. rewrite <- list_fmap_compose. by apply Forall_fmap, Forall_true.
  - cbn [Nat.add]. rewrite !lookup_cons_ne_0 by done. cbn [Nat.pred].
    by rewrite lookup_app_r, length_imap, Nat.sub_diag by (by rewrite length_imap).
  - unfold shown_cells. rewrite <- list_fmap_compose. reflexivity.
Qed.

(** X17 (lines 66-72 and 89-90): row 1 holds the PO number in bold in
    column 1 and 'Size' in bold and centred in column 4, on the green
    accent; the merged range of 'Size' begins in column 4 and covers the
    columns whose names are sizes, of which there is at least one, and no
    other column. *)
Theorem banner_spans_the_size_columns clock up wb po :
  generate_pivot_excel clock up = Ok (wb, po) ->
  ∃ f sd n,
    build_pivot up = Ok (f, po, sd) ∧ n = length (size_columns f) ∧ (1 <= n)%nat
    ∧ active wb !! 0%nat = Some (banner_row po n)
    ∧ merged_cells wb = [(1, 4, 1, 3 + n)%nat]
    ∧ ∀ i, (4 <= i <= 3 + n)%nat
           ↔ ∃ c, header_cells f !! (i - 1)%nat
                  = Some (with_center (with_border (with_bold (plain (Label c))))).
Proof.
  intros (df & f & sd & _ & Hf & Hwb & Hcols & Hrows & Hne)%returned_sheet.
  exists f, sd, (length (size_columns f)). split; [done|]. split; [done|].
  split; [rewrite Hcols; destruct (written_columns df); [done|cbn; lia]|].
  destruct (sheet_layout clock f po sd wb _ _ Hrows Hwb)
    as (_ & _ & _ & _ & -> & -> & _).
  split; [done|]. split; [done|].
  intros i. unfold header_cells. set (cols := size_columns f).
  rewrite list_lookup_fmap. split.
  - intros Hi. destruct (lookup_lt_is_Some_2 cols (i - 4)%nat) as [c Hc]; [lia|].
    exists c.
    replace (i - 1)%nat with (S (S (S (i - 4)))) by lia.
    cbn [app]. rewrite !lookup_cons_ne_0 by done. cbn [Nat.pred].
    by rewrite lookup_app_l, list_lookup_fmap, Hc
      by (rewrite length_fmap; lia).
  - intros [c Hc].
    destruct (i - 1)%nat as [|[|[|j]]] eqn:Hi; try done.
    cbn [app] in Hc. rewrite !lookup_cons_ne_0 in Hc by done.
    cbn [Nat.pred] in Hc.
    destruct (decide (j < length cols)%nat) as [Hj|Hj]; [lia|].
    rewrite lookup_app_r in Hc by (rewrite length_fmap; lia).
    rewrite length_fmap in Hc.
    by destruct (j - length cols)%nat as [|[|?]].
Qed.

(** X18: the sheet is a rectangle with a tail: row 1, the names of the
    columns and every row of the pivot have one cell for each of the
    three keys, for each size column and for the grand total; below them
    the ship date has a row of one cell; there is one width for every
    column. *)
Theorem sheet_is_rectangular clock up wb po :
  generate_pivot_excel clock up = Ok (wb, po) ->
  ∃ f sd table c,
    build_pivot up = Ok (f, po, sd)
    ∧ active wb = table ++ [[c]]
    ∧ length table = (2 + length (rows f))%nat
    ∧ Forall (fun row => length row = (4 + length (size_columns f))%nat) table
    ∧ length (column_widths wb) = (4 + length (size_columns f))%nat.
Proof.
  intros (df & f & sd & _ & Hf & Hwb & Hcols & Hrows & _)%returned_sheet.
  exists f, sd. eexists _, _. split; [done|].
  destruct (sheet_layout clock f po sd wb _ _ Hrows Hwb)
    as (_ & _ & _ & _ & -> & _ & Hwidths & _).
  split; [|split; [|split; [|done]]].
  - rewrite !app_comm_cons.
    change [?a; ?b] with ([a] ++ [b]). rewrite app_assoc. reflexivity.
  - rewrite length_app. cbn [length]. rewrite length_imap, Hrows, length_app.
    cbn [length]. lia.
  - rewrite Hcols. apply Forall_app. split.
    + apply Forall_cons_2; [|apply Forall_cons_2].
      * unfold banner_row. by rewrite length_app, length_replicate.
      * by rewrite length_fmap, length_header_cells, Hcols.
      * apply Forall_forall. intros row (j & Hj)%list_elem_of_lookup.
        rewrite list_lookup_imap in Hj. apply fmap_Some in Hj as (r & Hr & ->).
        apply list_elem_of_lookup_2, list_elem_of_fmap in Hr as (k & -> & _).
        rewrite length_fmap, length_shown_cells. cbn [row_sizes Pandas.body_row].
        by rewrite length_fmap.
    + apply Forall_singleton.
      rewrite length_fmap, length_shown_cells. cbn [row_sizes Pandas.margin_row].
      by rewrite length_fmap.
Qed.

(** X19 (lines 38-39, 72 and 105-108): the PO number that is returned
    and shown in row 1 is the one of the first line that has one, and the
    ship date in the last row of the sheet is the one of the first line
    that has one; later lines with other values do not count.  Of each
    text the sheet shows the first 32767 characters. *)
Theorem po_number_and_ship_date_are_the_first_present clock up wb po :
  generate_pivot_excel clock up = Ok (wb, po) ->
  (∃ up1 r up2,
     up = up1 ++ r :: up2 ∧ Forall (fun r => csv_PO_Number r = None) up1
     ∧ csv_PO_Number r = Some po)
  ∧ (∃ sd up1 r up2,
       up = up1 ++ r :: up2 ∧ Forall (fun r => csv_Ship_Dates r = None) up1
       ∧ csv_Ship_Dates r = Some sd
       ∧ last (active wb) = Some (ship_row sd))
  ∧ active wb !! 0%nat ≫= head
    = Some (with_bold (green (Text (truncate 32767 ("PO Number: " +:+ po))))).
Proof.
  intros (df & f & sd & Hdf & Hf & Hwb & _ & Hrows & _)%returned_sheet.
  rewrite (build_pivot_eq up df Hdf) in Hf.
  destruct (first_valid (csv_PO_Number <$> up)) as [po'|e] eqn:Hpo; [|done].
  destruct (first_valid (csv_Ship_Dates <$> up)) as [sd'|e] eqn:Hsd; [|done].
  cbn [mbind result_bind] in Hf.
  destruct (written_pivot df) as [f'|e]; [|done].
  apply (inj Ok) in Hf. injection Hf as -> -> ->.
  destruct (sheet_layout clock f po sd wb _ _ Hrows Hwb)
    as (_ & _ & _ & _ & -> & _).
  split; [by apply first_valid_column|]. split; [|done].
  apply first_valid_column in Hsd as (up1 & r & up2 & Hup & H1 & Hr).
  exists sd, up1, r, up2. repeat split; try done.
  rewrite !app_comm_cons. change [?a; ?b] with ([a] ++ [b]).
  by rewrite app_assoc, last_snoc.
Qed.

(** ** The page *)

(** X20 (lines 115-129): the page offers a download only when a file is
    uploaded, the button is pressed and the workbook is generated; the
    download holds that workbook and is named 'PO_', the PO number of the
    first line of the table that has one, '.xlsx'.  When the generation
    raises, the exception ends the script and no download is offered. *)
Theorem download_is_named_after_the_po_number clock uploaded_file pressed :
  (∀ label data file_name mime,
     download_button label data file_name mime
       ∈ (run_script clock uploaded_file pressed).1 ->
     ∃ up up1 r up2 po,
       uploaded_file = Some up ∧ pressed = true
       ∧ generate_pivot_excel clock up = Ok (data, po)
       ∧ up = up1 ++ r :: up2
       ∧ Forall (fun r => csv_PO_Number r = None) up1
       ∧ csv_PO_Number r = Some po
       ∧ file_name = "PO_" +:+ po +:+ ".xlsx"
       ∧ (run_script clock uploaded_file pressed).2 = Ok ())
  ∧ (∀ up wb po,
       uploaded_file = Some up -> pressed = true ->
       generate_pivot_excel clock up = Ok (wb, po) ->
       ∃ label mime,
         last (run_script clock uploaded_file pressed).1
         = Some (download_button label wb ("PO_" +:+ po +:+ ".xlsx") mime))
  ∧ (∀ up e,
       uploaded_file = Some up -> pressed = true ->
       generate_pivot_excel clock up = Raise e ->
       (run_script clock uploaded_file pressed).2 = Raise e).
Proof.
  split; [|split].
  - intros label data file_name mime Hin. unfold run_script in *.
    destruct uploaded_file as [up|];
      [|by repeat (apply elem_of_cons in Hin as [?|Hin]; [done|]);
           apply elem_of_nil in Hin].
    destruct pressed;
      [|by repeat (apply elem_of_cons in Hin as [?|Hin]; [done|]);
           apply elem_of_nil in Hin].
    destruct (generate_pivot_excel clock up) as [[wb po]|e] eqn:Hgen;
      [|by repeat (apply elem_of_cons in Hin as [?|Hin]; [done|]);
           apply elem_of_nil in Hin].
    cbn [fst snd app] in *.
    do 4 (apply elem_of_cons in Hin as [?|Hin]; [done|]).
    apply list_elem_of_singleton in Hin. injection Hin as -> -> -> ->.
    destruct (generate_pivot_excel_ok clock up wb po Hgen) as (f & sd & Hf & _).
    destruct (build_pivot_ok _ _ _ _ Hf) as (df & Hdf & Hpo & _).
    destruct (enriched_columns up df Hdf) as [Epo _]. rewrite Epo in Hpo.
    apply first_valid_column in Hpo as (up1 & r & up2 & Hup & H1 & Hr).
    exists up, up1, r, up2, po. by repeat split.
  - intros up wb po -> -> Hgen. unfold run_script. rewrite Hgen.
    eexists _, _. reflexivity.
  - intros up e -> -> Hgen. unfold run_script. by rewrite Hgen.
Qed.

End Program.

(** ** The program on concrete tables

    The tables are run with [decimal_number] as the reader of numbers
    and with the sums of an int64 column. *)

(** C3: the failures of the whole-and-fraction branch are not caught.
    Every size with two or more inner spaces raises, and so does one with
    a non-numeric whole part or fraction or with a zero denominator; the
    exception ends the whole run.  Only a size without an inner space is
    parsed under the [try]. *)
Theorem parse_size_raises :
  (∀ s, contains " " (strip s) = false -> returns (parse_size (Some s)) = true)
  ∧ (∀ s, (2 <= occurrences " " (strip s))%nat ->
          parse_size (Some s) = Raise ValueError)
  ∧ parse_size (Some "8 1/2 W") = Raise ValueError
  ∧ parse_size (Some "X Large") = Raise ValueError
  ∧ parse_size (Some "8 half") = Raise ValueError
  ∧ parse_size (Some "8 1/0") = Raise ZeroDivisionError
  ∧ parse_size (Some "XL") = Ok None
  ∧ ∀ clock,
      generate_pivot_excel decimal_number example_style_map example_str
        int64_sum int64_sum clock upload_with_width_suffix
      = Raise ValueError.
Proof.
  split; [|split; [|repeat split; by vm_compute]].
  - intros s Hs. unfold parse_size. rewrite Hs.
    by destruct (float_of_string (strip s)).
  - intros s Hs. unfold parse_size.
    rewrite (proj2 (contains_occurrences " " (strip s))) by lia.
    pose proof (split_length " " (strip s)) as Hlen.
    destruct (split " " (strip s)) as [|a [|b [|c t]]]; cbn in Hlen; try done; lia.
Qed.

(** C1 fails as stated: on the two-line table of the specification the
    margin row, keyed ('Grand Total', '', ''), is a row of the written
    pivot and of the sheet, where it shows 'Grand Total', two empty
    cells and the totals. *)
Lemma margin_row_is_not_removed :
  ∃ wb f,
    generate_pivot_excel decimal_number example_style_map example_str
      int64_sum int64_sum 0 example_upload = Ok (wb, "PO123")
    ∧ build_pivot decimal_number example_style_map int64_sum int64_sum
        example_upload
      = Ok (f, "PO123", "2024-01-01")
    ∧ row_key_of <$> rows f = [("Red", "StyleA", "StyleX"); margin_key]
    ∧ ¬ (∀ r, r ∈ rows f -> row_key_of r ≠ margin_key)
    ∧ contents (active wb) !! 3%nat
      = Some [Text "Grand Total"; Blank; Blank;
              Number (Q2Qc 3); Number (Q2Qc 5); Number (Q2Qc 8)].
Proof.
  eexists _, _. split; [by vm_compute|]. split; [by vm_compute|].
  split; [by vm_compute|]. split; [|by vm_compute].
  intros H. eapply (H _); [right; left|]. reflexivity.
Qed.


(** C4 fails as stated: two lines of one colour, style and size with
    the quantity 2^62 each make a column of dtype int64, whose sum wraps
    around: the cell holds -2^63, and the sum of the two quantities is
    2^63. *)
Lemma pivot_cell_wraps_around :
  ∃ df f r,
    mapM (enrich decimal_number example_style_map) upload_with_large_quantities
    = Ok df
    ∧ build_pivot decimal_number example_style_map int64_sum int64_sum
        upload_with_large_quantities
      = Ok (f, "PO123", "2024-01-01")
    ∧ r ∈ rows f ∧ row_key_of r = ("Red", "StyleA", "StyleX")
    ∧ size_columns f = [float_of_int 8]
    ∧ Qty_per_Store <$> filter (in_cell (row_key_of r) (float_of_int 8)) df
      = [whole (2 ^ 62); whole (2 ^ 62)]
    ∧ size_cell r (float_of_int 8) = Some (whole (- 2 ^ 63))
    ∧ total (Qty_per_Store <$> filter (in_cell (row_key_of r) (float_of_int 8)) df)
      = whole (2 ^ 63)
    ∧ size_cell r (float_of_int 8)
      ≠ Some (total (Qty_per_Store
                       <$> filter (in_cell (row_key_of r) (float_of_int 8)) df)).
Proof.
  eexists _, _, _. split; [by vm_compute|]. split; [by vm_compute|].
  split; [left|]. by vm_compute.
Qed.

(** C5 fails as stated: in a row with the cells 2^63 - 1 and 1 the
    grand total, an int64 sum of its own, wraps around to -2^63, and the
    sum of the two cells is 2^63. *)
Lemma grand_total_wraps_around :
  ∃ f r,
    build_pivot decimal_number example_style_map int64_sum int64_sum
      upload_with_largest_quantity
    = Ok (f, "PO123", "2024-01-01")
    ∧ r ∈ rows f ∧ row_key_of r = ("Red", "StyleA", "StyleX")
    ∧ (row_sizes r).*2 = [whole (2 ^ 63 - 1); whole 1]
    ∧ row_Grand_Total r = whole (- 2 ^ 63)
    ∧ total ((row_sizes r).*2) = whole (2 ^ 63)
    ∧ row_Grand_Total r ≠ total ((row_sizes r).*2).
Proof.
  eexists _, _. split; [by vm_compute|]. split; [left|]. by vm_compute.
Qed.

(** *** The theorems at work *)

Lemma margin_row_is_written_witness :
  ∃ wb f,
    generate_pivot_excel decimal_number example_style_map example_str
      int64_sum int64_sum 0 upload_with_All = Ok (wb, "PO123")
    ∧ build_pivot decimal_number example_style_map int64_sum int64_sum
        upload_with_All
      = Ok (f, "PO123", "2024-01-01")
    ∧ has_margin f = true
    ∧ row_Color <$> rows f = ["Blue"; "Red"; "Grand Total"].
Proof.
  eexists _, _. split; [by vm_compute|]. split; [by vm_compute|].
  destruct (margin_row_is_written decimal_number example_style_map example_str
              int64_sum int64_sum 0 upload_with_All _ "PO123"
              ltac:(by vm_compute))
    as (df & f & sd & body & m & Hdf & Hf & Hm & _).
  vm_compute in Hf. injection Hf as <- <-.
  split; [exact Hm|by vm_compute].
Defined.


Lemma pivot_cell_is_sum_witness :
  ∃ df f r c,
    mapM (enrich decimal_number example_style_map) upload_with_blank_quantities = Ok df
    ∧ build_pivot decimal_number example_style_map int64_sum int64_sum
        upload_with_blank_quantities
      = Ok (f, "PO123", "2024-01-01")
    ∧ r ∈ rows f ∧ row_key_of r = ("Red", "StyleA", "StyleX")
    ∧ c ∈ size_columns f ∧ c = float_of_int 8
    ∧ small_integers
        (Qty_per_Store <$> filter (in_cell (row_key_of r) c) df) = true
    ∧ size_cell r c
      = Some (total (Qty_per_Store <$> filter (in_cell (row_key_of r) c) df))
    ∧ size_cell r c = Some (Q2Qc 4).
Proof.
  eexists _, _, _, _. split; [by vm_compute|]. split; [by vm_compute|].
  split; [left|]. split; [reflexivity|]. split; [left|]. split; [by vm_compute|].
  split; [by vm_compute|]. split; [|by vm_compute].
  refine (proj2 (pivot_cell_is_sum decimal_number example_style_map
                   int64_sum int64_sum int64_sum_exact
                   upload_with_blank_quantities _ _ "PO123" "2024-01-01" _ _
                   _ _ _ _ _) _).
  - by vm_compute.
  - by vm_compute.
  - left.
  - discriminate.
  - left.
  - by vm_compute.
Defined.

Lemma grand_total_is_row_sum_witness :
  ∃ df f r,
    mapM (enrich decimal_number example_style_map) example_upload = Ok df
    ∧ build_pivot decimal_number example_style_map int64_sum int64_sum
        example_upload
      = Ok (f, "PO123", "2024-01-01")
    ∧ small_integers (Qty_per_Store <$> df) = true
    ∧ r ∈ rows f ∧ row_key_of r = ("Red", "StyleA", "StyleX")
    ∧ (row_sizes r).*2 = [Q2Qc 3; Q2Qc 5]
    ∧ row_Grand_Total r = total ((row_sizes r).*2).
Proof.
  eexists _, _, _. split; [by vm_compute|]. split; [by vm_compute|].
  split; [by vm_compute|]. split; [left|].
  split; [reflexivity|]. split; [by vm_compute|].
  refine (grand_total_is_row_sum decimal_number example_style_map
            int64_sum int64_sum int64_sum_exact int64_sum_exact example_upload
            _ _ "PO123" "2024-01-01" _ _ _ _ _).
  - by vm_compute.
  - by vm_compute.
  - left.
  - by vm_compute.
Defined.

Lemma rows_coloured_All_are_dropped_witness :
  ∃ df f,
    mapM (enrich decimal_number example_style_map) upload_with_All = Ok df
    ∧ build_pivot decimal_number example_style_map int64_sum int64_sum
        upload_with_All
      = Ok (f, "PO123", "2024-01-01")
    ∧ (∀ r, r ∈ rows f -> row_Color r ≠ "All")
    ∧ size_columns f = [float_of_int 8; float_of_int 9]
    ∧ (fun m => (row_sizes m).*2) <$> last (rows f) = Some [Q2Qc 4; Q2Qc 7].
Proof.
  eexists _, _. split; [by vm_compute|]. split; [by vm_compute|].
  split; [|split; by vm_compute].
  refine (proj1 (rows_coloured_All_are_dropped decimal_number example_style_map
                   int64_sum int64_sum
                   upload_with_All _ _ "PO123" "2024-01-01" _ _)); by vm_compute.
Defined.

Lemma style_labels_follow_the_table_witness :
  ∃ l,
    enrich decimal_number example_style_map
      (csv "12345" "3" "8" "Red" "PO123" "2024-01-01") = Ok l
    ∧ KPR_Style l = "StyleA" ∧ Marks_Style l = "StyleX".
Proof.
  eexists. split; [by vm_compute|].
  refine (proj1 (proj2 (style_labels_follow_the_table decimal_number
                          example_style_map
                          (csv "12345" "3" "8" "Red" "PO123" "2024-01-01") _ _))
            (Q2Qc 12345) {[ "KPR" := "StyleA"; "Marks" := "StyleX" ]}
            "StyleA" "StyleX" _ _ _ _); by vm_compute.
Defined.

Lemma blank_quantity_counts_as_zero_witness :
  ∃ df f,
    blank_or_unparsable decimal_number (Some "TBD")
    ∧ mapM (enrich decimal_number example_style_map) upload_with_blank_quantities
      = Ok df
    ∧ build_pivot decimal_number example_style_map int64_sum int64_sum
        upload_with_blank_quantities
      = Ok (f, "PO123", "2024-01-01")
    ∧ Qty_per_Store <$> df = [Q2Qc 0; Q2Qc 0; Q2Qc 4]
    ∧ size_columns f = [float_of_int 8; float_of_dyadic 17 (-1)]
    ∧ (fun r => (row_sizes r).*2) <$> rows f
      = [[Q2Qc 4; Q2Qc 0]; [Q2Qc 4; Q2Qc 0]]
    ∧ ∃ df1 l df2,
        df = df1 ++ l :: df2 ∧ length df1 = 1%nat ∧ Qty_per_Store l = Q2Qc 0.
Proof.
  eexists _, _. split; [by vm_compute|].
  assert (mapM (enrich decimal_number example_style_map)
            upload_with_blank_quantities = Ok _) as Hdf by (by vm_compute).
  assert (build_pivot decimal_number example_style_map int64_sum int64_sum
            upload_with_blank_quantities = Ok (_, "PO123", "2024-01-01")) as Hf
    by (by vm_compute).
  split; [exact Hdf|]. split; [exact Hf|].
  split; [by vm_compute|]. split; [by vm_compute|]. split; [by vm_compute|].
  destruct (blank_quantity_counts_as_zero decimal_number example_style_map
              int64_sum int64_sum
              (take 1 upload_with_blank_quantities)
              (csv "12345" "TBD" "8 1/2" "Red" "PO123" "2024-01-01")
              (drop 2 upload_with_blank_quantities) _ _ "PO123" "2024-01-01"
              ltac:(by vm_compute) Hdf Hf)
    as (_ & df1 & l & df2 & Hsplit & Hlen & _ & Hzero & _).
  exists df1, l, df2. split; [exact Hsplit|]. split; [exact Hlen|exact Hzero].
Defined.

Lemma surrounding_blanks_are_ignored_witness :
  parse_size (Some "  8 1/2 ") = parse_size (Some "8 1/2").
Proof.
  exact (surrounding_blanks_are_ignored "  " "8 1/2" " " eq_refl eq_refl).
Defined.

Lemma two_whole_numbers_are_added_witness :
  parse_size (Some "32 34")
  = Ok (Some (float_add (float_of_int 32) (float_of_int 34)))
  ∧ float_value (float_add (float_of_int 32) (float_of_int 34)) = Some (66 # 1)%Q.
Proof.
  split; [|by vm_compute].
  refine (two_whole_numbers_are_added "32" "34" (float_of_int 34) _ _ _ _);
    first [ by split | by vm_compute | cbn; lia ].
Defined.

Lemma table_without_po_number_or_ship_date_witness :
  generate_pivot_excel decimal_number example_style_map example_str
    int64_sum int64_sum 0 []
  = Raise IndexError
  ∧ generate_pivot_excel decimal_number example_style_map example_str
      int64_sum int64_sum 0 upload_without_po_number
    = Raise IndexError.
Proof.
  split.
  - refine (table_without_po_number_or_ship_date decimal_number
              example_style_map example_str int64_sum int64_sum 0 [] [] _ _);
      [reflexivity|left; constructor].
  - refine (table_without_po_number_or_ship_date decimal_number
              example_style_map example_str int64_sum int64_sum 0
              upload_without_po_number _ _ _);
      [by vm_compute|left; by repeat constructor].
Defined.

Lemma table_without_complete_line_witness :
  generate_pivot_excel decimal_number example_style_map example_str
    int64_sum int64_sum 0 upload_without_complete_line
  = Raise KeyError.
Proof.
  refine (table_without_complete_line decimal_number example_style_map
            example_str int64_sum int64_sum 0 upload_without_complete_line
            _ _ _ _ _).
  - by vm_compute.
  - eexists. split; [left|by eexists].
  - eexists. split; [left|by eexists].
  - apply (bool_decide_unpack _). by vm_compute.
Defined.

Lemma label_Grand_Total_is_refused_witness :
  generate_pivot_excel decimal_number example_style_map example_str
    int64_sum int64_sum 0 upload_with_Grand_Total
  = Raise ValueError.
Proof.
  refine (label_Grand_Total_is_refused decimal_number example_style_map
            example_str int64_sum int64_sum 0 upload_with_Grand_Total
            _ _ _ _ _ _ _ _).
  - by vm_compute.
  - eexists. split; [left|by eexists].
  - eexists. split; [left|by eexists].
  - right. left.
  - apply (bool_decide_unpack _). by vm_compute.
  - by left.
Defined.


Lemma bad_size_ends_the_run_witness :
  generate_pivot_excel decimal_number example_style_map example_str
    int64_sum int64_sum 0 upload_with_width_suffix
  = Raise ValueError.
Proof.
  refine (proj2 (bad_size_ends_the_run decimal_number example_style_map
                   example_str int64_sum int64_sum 0
                   (take 1 upload_with_width_suffix)
                   (csv "12345" "5" "8 1/2 W" "Red" "PO123" "2024-01-01") []
                   ValueError _) _).
  - by vm_compute.
  - by repeat constructor.
Defined.

Lemma size_columns_ascend_witness :
  ∃ f,
    build_pivot decimal_number example_style_map int64_sum int64_sum
      upload_with_three_colours
    = Ok (f, "PO123", "2024-01-01")
    ∧ size_columns f = [float_of_dyadic 17 (-1); float_of_int 9; float_of_int 10]
    ∧ StronglySorted float_lt (size_columns f).
Proof.
  eexists. split; [by vm_compute|]. split; [by vm_compute|].
  refine (proj1 (size_columns_ascend decimal_number example_style_map
                   int64_sum int64_sum
                   upload_with_three_colours _ "PO123" "2024-01-01" _)).
  by vm_compute.
Defined.

Lemma rows_ascend_witness :
  ∃ f,
    build_pivot decimal_number example_style_map int64_sum int64_sum
      upload_with_three_colours
    = Ok (f, "PO123", "2024-01-01")
    ∧ row_key_of <$> rows f
      = [("Blue", "Unknown Style", "Unknown Style");
         ("Green", "StyleA", "StyleX"); ("Red", "StyleA", "StyleX"); margin_key]
    ∧ ∃ body m, rows f = body ++ [m]
                ∧ StronglySorted key_lt (row_key_of <$> body).
Proof.
  eexists. split; [by vm_compute|]. split; [by vm_compute|].
  destruct (rows_ascend decimal_number example_style_map int64_sum int64_sum
              upload_with_three_colours _ "PO123" "2024-01-01"
              ltac:(by vm_compute))
    as (body & m & Hrows & _ & Hsorted).
  exists body, m. split; [exact Hrows|exact Hsorted].
Defined.

Lemma rows_and_columns_are_the_ones_present_witness :
  ∃ df f,
    mapM (enrich decimal_number example_style_map) upload_with_zero_sizes = Ok df
    ∧ build_pivot decimal_number example_style_map int64_sum int64_sum
        upload_with_zero_sizes
      = Ok (f, "PO123", "2024-01-01")
    ∧ Size <$> df
      = [Some (float_of_int 9); Some (S754_zero true); Some (S754_zero false)]
    ∧ size_columns f = [S754_zero true; float_of_int 9]
    ∧ row_key_of <$> rows f
      = [("Blue", "Unknown Style", "Unknown Style");
         ("Red", "StyleA", "StyleX"); margin_key]
    ∧ NoDup (row_key_of <$> rows f).
Proof.
  eexists _, _. split; [by vm_compute|]. split; [by vm_compute|].
  split; [by vm_compute|]. split; [by vm_compute|]. split; [by vm_compute|].
  refine (proj2 (proj2 (proj2 (proj2
            (rows_and_columns_are_the_ones_present decimal_number
               example_style_map int64_sum int64_sum upload_with_zero_sizes
               _ _ "PO123" "2024-01-01" _ _))))); by vm_compute.
Defined.

Lemma column_totals_add_up_witness :
  ∃ df f,
    mapM (enrich decimal_number example_style_map) upload_with_three_colours
    = Ok df
    ∧ build_pivot decimal_number example_style_map int64_sum int64_sum
        upload_with_three_colours
      = Ok (f, "PO123", "2024-01-01")
    ∧ small_integers (Qty_per_Store <$> df) = true
    ∧ row_Grand_Total <$> rows f = [Q2Qc 2; Q2Qc 4; Q2Qc 4; Q2Qc 10]
    ∧ ∃ body m,
        rows f = body ++ [m]
        ∧ row_Grand_Total m = total (row_Grand_Total <$> body).
Proof.
  eexists _, _.
  assert (mapM (enrich decimal_number example_style_map)
            upload_with_three_colours = Ok _) as Hdf by (by vm_compute).
  assert (build_pivot decimal_number example_style_map int64_sum int64_sum
            upload_with_three_colours = Ok (_, "PO123", "2024-01-01")) as Hf
    by (by vm_compute).
  destruct (column_totals_add_up decimal_number example_style_map
              int64_sum int64_sum int64_sum_exact int64_sum_exact
              upload_with_three_colours _ _ "PO123" "2024-01-01" Hdf Hf)
    as (body & m & Hrows & _ & _ & Htotal).
  { by vm_compute. }
  { refine (proj1 (Forall_forall (fun l => complete l -> Color l ≠ Some "All") _) _).
    apply (bool_decide_unpack _). by vm_compute. }
  split; [exact Hdf|]. split; [exact Hf|]. split; [by vm_compute|].
  split; [by vm_compute|].
  exists body, m. split; [exact Hrows|exact Htotal].
Defined.

Lemma order_of_lines_does_not_matter_witness :
  ∃ df f,
    mapM (enrich decimal_number example_style_map) upload_with_late_po_number
    = Ok df
    ∧ small_integers (Qty_per_Store <$> df) = true ∧ one_zero df
    ∧ build_pivot decimal_number example_style_map int64_sum int64_sum
        upload_with_late_po_number
      = Ok (f, "PO123", "2024-01-01")
    ∧ build_pivot decimal_number example_style_map int64_sum int64_sum
        (reverse upload_with_late_po_number)
      = Ok (f, "PO999", "2024-02-02").
Proof.
  eexists _, _. split; [by vm_compute|].
  match goal with
  | |- small_integers (Qty_per_Store <$> ?d) = true ∧ _ => set (df := d)
  end.
  assert (mapM (enrich decimal_number example_style_map)
            upload_with_late_po_number = Ok df) as Hdf by (by vm_compute).
  assert (small_integers (Qty_per_Store <$> df) = true) as Hs by (by vm_compute).
  assert (one_zero df) as Hone
    by (left; apply (bool_decide_unpack _); by vm_compute).
  assert (build_pivot decimal_number example_style_map int64_sum int64_sum
            upload_with_late_po_number
          = Ok (_, "PO123", "2024-01-01")) as Hf by (by vm_compute).
  split; [exact Hs|]. split; [exact Hone|]. split; [exact Hf|].
  destruct (order_of_lines_does_not_matter decimal_number
              example_style_map int64_sum int64_sum
              int64_sum_exact int64_sum_exact
              upload_with_late_po_number
              (reverse upload_with_late_po_number)
              df _ "PO123" "2024-01-01"
              (Permutation_sym (reverse_Permutation _)) Hdf Hf Hs Hone)
    as (po' & sd' & Hf').
  pose proof Hf' as Heq. vm_compute in Heq. injection Heq as <- <-.
  exact Hf'.
Defined.

Lemma every_cell_has_a_border_witness :
  ∃ wb,
    generate_pivot_excel decimal_number example_style_map example_str
      int64_sum int64_sum 0 upload_with_three_colours = Ok (wb, "PO123")
    ∧ Forall (Forall (fun c => border c = true)) (active wb).
Proof.
  eexists. split; [by vm_compute|].
  refine (every_cell_has_a_border decimal_number example_style_map example_str
            int64_sum int64_sum 0 upload_with_three_colours _ "PO123" _).
  by vm_compute.
Defined.

Lemma body_rows_alternate_witness :
  ∃ wb,
    generate_pivot_excel decimal_number example_style_map example_str
      int64_sum int64_sum 0 upload_with_three_colours = Ok (wb, "PO123")
    ∧ (fun row => fill <$> head row) <$> active wb
      = [Some accent6_green; Some accent6_green; Some no_fill;
         Some accent1_blue; Some no_fill; Some accent6_green;
         Some accent6_green]
    ∧ (fun row => centered <$> head row) <$> active wb
      = [Some false; Some true; Some false; Some false; Some false; Some false;
         Some false]
    ∧ ∃ f body m,
        rows f = body ++ [m]
        ∧ ∀ j r, body !! j = Some r ->
            active wb !! (2 + j)%nat = Some (body_style j <$> shown_cells r).
Proof.
  eexists. split; [by vm_compute|]. split; [by vm_compute|].
  split; [by vm_compute|].
  destruct (body_rows_alternate decimal_number example_style_map example_str
              int64_sum int64_sum 0 upload_with_three_colours _ "PO123"
              ltac:(by vm_compute))
    as (f & sd & body & m & _ & Hrows & Halt & _).
  exists f, body, m. split; [exact Hrows|exact Halt].
Defined.

Lemma banner_spans_the_size_columns_witness :
  ∃ wb,
    generate_pivot_excel decimal_number example_style_map example_str
      int64_sum int64_sum 0 upload_with_three_colours = Ok (wb, "PO123")
    ∧ content <$> default [] (active wb !! 0%nat)
      = [Text "PO Number: PO123"; Blank; Blank; Text "Size"; Blank; Blank; Blank]
    ∧ ∃ n, (1 <= n)%nat ∧ merged_cells wb = [(1, 4, 1, 3 + n)%nat].
Proof.
  eexists. split; [by vm_compute|]. split; [by vm_compute|].
  destruct (banner_spans_the_size_columns decimal_number example_style_map
              example_str int64_sum int64_sum 0 upload_with_three_colours
              _ "PO123" ltac:(by vm_compute))
    as (f & sd & n & _ & _ & Hn & _ & Hmerged & _).
  exists n. split; [exact Hn|exact Hmerged].
Defined.

Lemma sheet_is_rectangular_witness :
  ∃ wb,
    generate_pivot_excel decimal_number example_style_map example_str
      int64_sum int64_sum 0 upload_with_three_colours = Ok (wb, "PO123")
    ∧ length <$> active wb = [7; 7; 7; 7; 7; 7; 1]%nat
    ∧ ∃ f table c,
        active wb = table ++ [[c]]
        ∧ Forall (fun row => length row = (4 + length (size_columns f))%nat) table.
Proof.
  eexists. split; [by vm_compute|]. split; [by vm_compute|].
  destruct (sheet_is_rectangular decimal_number example_style_map example_str
              int64_sum int64_sum 0 upload_with_three_colours _ "PO123"
              ltac:(by vm_compute))
    as (f & sd & table & c & _ & Hsheet & _ & Hrows & _).
  exists f, table, c. split; [exact Hsheet|exact Hrows].
Defined.

Lemma po_number_and_ship_date_are_the_first_present_witness :
  ∃ wb,
    generate_pivot_excel decimal_number example_style_map example_str
      int64_sum int64_sum 0 upload_with_late_po_number = Ok (wb, "PO123")
    ∧ last (active wb) = Some (ship_row "2024-01-01")
    ∧ ∃ up1 r up2,
        upload_with_late_po_number = up1 ++ r :: up2
        ∧ Forall (fun r => csv_PO_Number r = None) up1
        ∧ csv_PO_Number r = Some "PO123".
Proof.
  eexists. split; [by vm_compute|]. split; [by vm_compute|].
  refine (proj1 (po_number_and_ship_date_are_the_first_present decimal_number
                   example_style_map example_str int64_sum int64_sum 0
                   upload_with_late_po_number _ "PO123" _)).
  by vm_compute.
Defined.
